(** * makeid-l1-printer-core: template rendering, bitmap packing and
      the serial transmission protocol, embedded in Rocq.

    The development follows the TypeScript sources:
    - [utils/config.ts]            protocol framing ([getPrinterProtocol]);
    - [services/printerService.ts] splitting, packetization, send sequence;
    - [utils/imageProcessor.ts]    canvas setup, element rendering, packing.

    Conventions of the embedding.
    - A JavaScript [number] that holds an integer (dimensions, byte values,
      indices, lengths) is a [Z].  Non-integral and non-finite doubles are
      outside the model.
    - The 32-bit operators [>>], [&], [|], [<<] are written with their
      ToInt32 wrap-around.
    - [number[]] and [Buffer] are [list Z]; reading past the end yields
      [undefined], modelled by [None].
    - The scale factor [dpi / 96] is an exact rational; [Math.round] is
      [floor (q + 1/2)].  The code computes both on doubles, where a
      rounded value can differ by one from the exact one when the scale
      factor is not a power of two.  What is proved of the calls of a
      stripes or grid element is therefore proved on the rounded values,
      whatever they are.
    - A render function that raises (a circle whose radius rounds below
      zero, in [ctx.arc]) is caught by [renderFromTemplate], which logs
      the failure and goes on with the next element.  Variables are read
      as the code reads them for keys without regular-expression
      characters and values that are strings without [$] or integers
      below [2 ^ 53] in absolute value.
    - The 2D drawing context of the external canvas library is modelled by
      the sequence of calls made on it; its rasterizer stays abstract.
    - The serial port is a parameter that tells which writes complete.
    - Of the logger only the messages passed to [logger.error] by the
      renderer are kept; the other calls print to the console and change
      nothing else.
    - A loop that need not end carries fuel; running out of fuel while the
      loop condition holds is reported ([None], [Pending]) and stands for
      the loop that does not end. *)

From Stdlib Require Import ZArith QArith Qround Lia String Ascii.
From stdpp Require Import base list numbers strings pretty.

Close Scope Q_scope.
Local Open Scope Z_scope.

(* ================================================================= *)
(** ** JavaScript primitives used by the sources *)
(* ================================================================= *)

Module JS.

(** ToInt32: the two's complement reading of the low 32 bits. *)
Definition toInt32 (z : Z) : Z := (z + 2 ^ 31) mod 2 ^ 32 - 2 ^ 31.

(** [a >> b] *)
Definition shr (a b : Z) : Z := Z.shiftr (toInt32 a) (b mod 32).

(** [a << b] *)
Definition shl (a b : Z) : Z := toInt32 (Z.shiftl (toInt32 a) (b mod 32)).

(** [a & b] *)
Definition band (a b : Z) : Z := toInt32 (Z.land (toInt32 a) (toInt32 b)).

(** [a | b] *)
Definition bor (a b : Z) : Z := toInt32 (Z.lor (toInt32 a) (toInt32 b)).

(** [a || d] on numbers: [0] is falsy. *)
Definition or_else (a d : Z) : Z := if a =? 0 then d else a.

(** [a || d] where [a] may be [undefined]. *)
Definition opt_or_else (a : option Z) (d : Z) : Z :=
  match a with
  | Some v => or_else v d
  | None => d
  end.

(** [s || d] on strings that may be [undefined]: the empty string is
    falsy. *)
Definition str_or_else (s : option string) (d : string) : string :=
  match s with
  | Some EmptyString => d
  | Some v => v
  | None => d
  end.

(** [Math.ceil(a / b)] for integers [a] and [b <> 0]. *)
Definition ceil_div (a b : Z) : Z := - ((- a) / b).

(** [Math.min(a, b)] *)
Definition min (a b : Z) : Z := Z.min a b.

(** [Math.round(q)]: the nearest integer, halves going up. *)
Definition round (q : Q) : Z := Qfloor (q + (1 # 2))%Q.

(** [arr[i]]: [undefined] outside [0 .. length - 1]. *)
Definition get {A} (arr : list A) (i : Z) : option A :=
  if i <? 0 then None else arr !! Z.to_nat i.

(** [arr.slice(start, end)], with the clamping of relative indices
    that Array.prototype.slice performs. *)
Definition clamp_index (len i : Z) : Z :=
  if i <? 0 then Z.max (len + i) 0 else Z.min i len.

Definition slice {A} (arr : list A) (start stop : Z) : list A :=
  let len := Z.of_nat (length arr) in
  let k := clamp_index len start in
  let final := clamp_index len stop in
  take (Z.to_nat (Z.max (final - k) 0)) (drop (Z.to_nat k) arr).

(** [arr.reduce((value, x, index) => f(value, x, index), init)] *)
Fixpoint reduce_from {A B} (f : B -> A -> Z -> B) (arr : list A)
    (index : Z) (value : B) : B :=
  match arr with
  | [] => value
  | x :: rest => reduce_from f rest (index + 1) (f value x index)
  end.

Definition reduce {A B} (f : B -> A -> Z -> B) (arr : list A) (init : B) : B :=
  reduce_from f arr 0 init.

(** [for (let i = start; cond(i); i += step) body(i)] over a state [S].
    [None] when the fuel runs out while the condition still holds. *)
Fixpoint for_loop {S} (fuel : nat) (cond : Z -> bool) (step : Z)
    (body : Z -> S -> S) (i : Z) (s : S) : option S :=
  if cond i then
    match fuel with
    | O => None
    | Datatypes.S fuel' => for_loop fuel' cond step body (i + step) (body i s)
    end
  else Some s.

(** The characters with a meaning of their own in a regular
    expression ([092] is the backslash). *)
Definition regex_metachar (c : ascii) : bool :=
  existsb (Ascii.eqb c)
    ["092"; "^"; "$"; "."; "*"; "+"; "?"; "("; ")"; "["; "]"; "{"; "}"; "|"]%char.

Definition is_digit (c : ascii) : bool :=
  (("0" <=? c) && (c <=? "9"))%char.

(** Keys for which [new RegExp(`{{${key}}}`, 'g')] matches exactly the
    text [{{key}}]: no metacharacter in the key, and no leading digit
    (braces around digits would be read as a repetition count; such keys
    are also enumerated out of insertion order). *)
Definition literal_key (key : string) : bool :=
  forallb (fun c => negb (regex_metachar c)) (list_ascii_of_string key)
  && match key with
     | String c _ => negb (is_digit c)
     | EmptyString => true
     end.

(** Replacement texts without [$], which [replace] inserts as they
    are. *)
Definition plain_replacement (replacement : string) : bool :=
  forallb (fun c => negb (Ascii.eqb c "$")) (list_ascii_of_string replacement).

(** [s.replace(new RegExp(pattern, 'g'), replacement)] for a pattern
    without regular-expression metacharacters and a replacement without
    [$]: every non-overlapping occurrence, leftmost first.  [skip]
    counts the characters of a match still to be consumed. *)
Fixpoint replace_skip (pattern replacement : string) (skip : nat)
    (s : string) : string :=
  match s with
  | EmptyString => EmptyString
  | String c rest =>
      match skip with
      | Datatypes.S k => replace_skip pattern replacement k rest
      | O =>
          if String.prefix pattern s
          then (replacement ++
                replace_skip pattern replacement
                  (String.length pattern - 1) rest)%string
          else String c (replace_skip pattern replacement 0 rest)
      end
  end.

Definition replace_all (s pattern replacement : string) : string :=
  replace_skip pattern replacement 0 s.

End JS.

(* ================================================================= *)
(** ** types/index.ts *)
(* ================================================================= *)

Module ImageDimensions.
Record t := mk {
  width : Z;
  height : Z;
  dpi : Z
}.
End ImageDimensions.

Module PrinterProtocol.
Record t := mk {
  firmwareRequest : list Z;
  prefix : list Z;
  postfix : list Z
}.
End PrinterProtocol.

(** [portPath] and [baudRate] only select the serial device and are
    left out. *)
Module PrinterConfig.
Record t := mk {
  packetSize : Z;
  exitDelay : Z;
  packetDelay : Z
}.
End PrinterConfig.

(** Only the two fields the template renderer reads. *)
Module PrintOptions.
Record t := mk {
  fontSize : Z;
  fontFamily : string
}.
End PrintOptions.

Module Position.
Record t := mk {
  x : Z;
  y : Z
}.
End Position.

Module Bounds.
Record t := mk {
  x : Z;
  y : Z;
  width : Z;
  height : Z
}.
End Bounds.

Inductive Align := AlignLeft | AlignCenter | AlignRight.

Inductive Direction := horizontal | vertical.

Module TextElement.
Record t := mk {
  content : string;
  position : Position.t;
  fontSize : option Z;
  fontFamily : option string;
  align : option Align
}.
End TextElement.

Module LineElement.
Record t := mk {
  start : Position.t;
  end_ : Position.t;
  width : option Z
}.
End LineElement.

Module RectangleElement.
Record t := mk {
  position : Position.t;
  width : Z;
  height : Z;
  filled : option bool
}.
End RectangleElement.

Module CircleElement.
Record t := mk {
  center : Position.t;
  radius : Z;
  filled : option bool
}.
End CircleElement.

Module StripeElement.
Record t := mk {
  direction : Direction;
  spacing : Z;
  width : Z;
  bounds : option Bounds.t
}.
End StripeElement.

Module GridElement.
Record t := mk {
  cellWidth : Z;
  cellHeight : Z;
  lineWidth : option Z;
  bounds : option Bounds.t
}.
End GridElement.

(** The union [RenderElement], discriminated by the [type] tag.  A
    template is only checked to have an [elements] array, so an element
    can carry any other tag: [unknown tag]. *)
Inductive RenderElement :=
| text (element : TextElement.t)
| line (element : LineElement.t)
| rectangle (element : RectangleElement.t)
| circle (element : CircleElement.t)
| stripes (element : StripeElement.t)
| grid (element : GridElement.t)
| unknown (tag : string).

Definition type_of (element : RenderElement) : string :=
  match element with
  | text _ => "text"
  | line _ => "line"
  | rectangle _ => "rectangle"
  | circle _ => "circle"
  | stripes _ => "stripes"
  | grid _ => "grid"
  | unknown tag => tag
  end.


Module TemplateDimensions.
Record t := mk {
  width : option Z;
  height : option Z
}.
End TemplateDimensions.

Module DefaultFont.
Record t := mk {
  family : string;
  size : Z
}.
End DefaultFont.

Module RenderTemplate.
Record t := mk {
  name : string;
  description : option string;
  dimensions : option TemplateDimensions.t;
  defaultFont : option DefaultFont.t;
  elements : list RenderElement
}.
End RenderTemplate.

(** A value of [Record<string, string | number>]. *)
Inductive VarValue :=
| VString (s : string)
| VNumber (n : Z).

(** The entries of the variables object, in [Object.entries] order. *)
Definition Variables := list (string * VarValue).

(* ================================================================= *)
(** ** utils/config.ts *)
(* ================================================================= *)

(** [IMAGE_DIMENSIONS]; the dpi is read from the environment. *)
Definition IMAGE_DIMENSIONS (printer_dpi : Z) : ImageDimensions.t :=
  {| ImageDimensions.width := 0xE3;
     ImageDimensions.height := 0x11;
     ImageDimensions.dpi := printer_dpi |}.

Definition getPrinterProtocol (imageDimensions : ImageDimensions.t)
  : PrinterProtocol.t :=
  {| PrinterProtocol.firmwareRequest := [0x10; 0xFF; 0x20; 0xF1];
     PrinterProtocol.prefix :=
       [0x10; 0xFF; 0xFE; 0x01; 0x10; 0xFF; 0xFE; 0x40; 0x1D; 0x76; 0x30;
        JS.shr (ImageDimensions.height imageDimensions) 8;
        JS.band (ImageDimensions.height imageDimensions) 0xFF;
        JS.shr (ImageDimensions.width imageDimensions) 8;
        JS.band (ImageDimensions.width imageDimensions) 0xFF;
        0x00];
     PrinterProtocol.postfix := [0x1B; 0x4A; 0x40; 0x10; 0xFF; 0xFE; 0x45] |}.

(* ================================================================= *)
(** ** services/printerService.ts *)
(* ================================================================= *)

Module ImageSplit.
Record t := mk {
  data : list Z;
  dimensions : ImageDimensions.t;
  splitIndex : Z;
  totalSplits : Z
}.
End ImageSplit.

Definition MAX_PRINTER_WIDTH : Z := 255.

Section CalculateImageSplits.

Variable imageData : list Z.
Variables totalWidth height dpi splits : Z.

(** The body of the loop of [calculateImageSplits] at [splitIndex]. *)
Definition imageSplitAt (splitIndex : Z) : ImageSplit.t :=
  let startPos := splitIndex * MAX_PRINTER_WIDTH * height in
  let currentWidth :=
    JS.min MAX_PRINTER_WIDTH (totalWidth - splitIndex * MAX_PRINTER_WIDTH) in
  let splitDimensions :=
    {| ImageDimensions.width := currentWidth;
       ImageDimensions.height := height;
       ImageDimensions.dpi := dpi |} in
  let splitImageData :=
    JS.slice imageData startPos (startPos + currentWidth * height) in
  {| ImageSplit.data := splitImageData;
     ImageSplit.dimensions := splitDimensions;
     ImageSplit.splitIndex := splitIndex;
     ImageSplit.totalSplits := splits |}.

(** [for (let splitIndex = 0; splitIndex < splits; splitIndex++)]; the
    fuel is the number of iterations still possible. *)
Fixpoint splitLoop (fuel : nat) (splitIndex : Z)
    (imageSplits : list ImageSplit.t) : list ImageSplit.t :=
  match fuel with
  | O => imageSplits
  | S fuel' =>
      if splitIndex <? splits
      then splitLoop fuel' (splitIndex + 1)
             (imageSplits ++ [imageSplitAt splitIndex])
      else imageSplits
  end.

End CalculateImageSplits.

Definition calculateImageSplits (imageData : list Z)
    (imageDimensions : ImageDimensions.t) : list ImageSplit.t :=
  let totalWidth := ImageDimensions.width imageDimensions in
  let height := ImageDimensions.height imageDimensions in
  let dpi := ImageDimensions.dpi imageDimensions in
  let splits := JS.ceil_div totalWidth MAX_PRINTER_WIDTH in
  splitLoop imageData totalWidth height dpi splits (Z.to_nat splits) 0 [].

(** What the service does to the outside: a completed write on the
    serial port, or a pause of [ms] milliseconds. *)
Inductive Effect :=
| Write (chunk : list Z)
| Pause (ms : Z).

Definition writes (io : list Effect) : list (list Z) :=
  omap (fun e => match e with Write chunk => Some chunk | Pause _ => None end) io.

(** The mutable part of a [PrinterService] object, with the effects it
    has performed so far. *)
Module PrinterService.
Record t := mk {
  config : PrinterConfig.t;
  protocol : PrinterProtocol.t;
  io : list Effect
}.
End PrinterService.

(** [new PrinterService(config, protocol, logger)] *)
Definition newPrinterService (config : PrinterConfig.t)
    (protocol : PrinterProtocol.t) : PrinterService.t :=
  {| PrinterService.config := config;
     PrinterService.protocol := protocol;
     PrinterService.io := [] |}.

(** How a promise ends: resolved with a value, rejected by a failed
    write, or never settled ([Pending]: the loop does not end). *)
Inductive Outcome (A : Type) :=
| Resolved (a : A)
| Rejected
| Pending.
Arguments Resolved {A} a.
Arguments Rejected {A}.
Arguments Pending {A}.

Definition Async (A : Type) : Type :=
  PrinterService.t -> PrinterService.t * Outcome A.

Definition resolve {A} (a : A) : Async A := fun s => (s, Resolved a).

Definition await {A B} (m : Async A) (k : A -> Async B) : Async B :=
  fun s =>
    match m s with
    | (s', Resolved a) => k a s'
    | (s', Rejected) => (s', Rejected)
    | (s', Pending) => (s', Pending)
    end.

Notation "m ';;;' k" := (await m (fun _ => k))
  (at level 100, k at level 200, right associativity).

Definition appendEffect (e : Effect) (s : PrinterService.t) : PrinterService.t :=
  {| PrinterService.config := PrinterService.config s;
     PrinterService.protocol := PrinterService.protocol s;
     PrinterService.io := PrinterService.io s ++ [e] |}.

Definition setProtocol (p : PrinterProtocol.t) (s : PrinterService.t)
  : PrinterService.t :=
  {| PrinterService.config := PrinterService.config s;
     PrinterService.protocol := p;
     PrinterService.io := PrinterService.io s |}.

Section Port.

(** The serial port: whether the write of [chunk], attempted after [n]
    completed writes, completes. *)
Variable write_ok : nat -> list Z -> bool.

Definition writeData (data : list Z) : Async unit :=
  fun s =>
    if write_ok (length (writes (PrinterService.io s))) data
    then (appendEffect (Write data) s, Resolved tt)
    else (s, Rejected).

Definition delay (ms : Z) : Async unit :=
  fun s =>
    if 0 <? ms
    then (appendEffect (Pause ms) s, Resolved tt)
    else (s, Resolved tt).

(** [for (let i = 0; i < data.length; i += this.config.packetSize)] *)
Fixpoint packetLoop (fuel : nat) (data : list Z) (i : Z) : Async unit :=
  fun s =>
    let packetSize := PrinterConfig.packetSize (PrinterService.config s) in
    let packetDelay := PrinterConfig.packetDelay (PrinterService.config s) in
    if i <? Z.of_nat (length data) then
      match fuel with
      | O => (s, Pending)
      | S fuel' =>
          let chunk := JS.slice data i (i + packetSize) in
          (writeData chunk ;;;
           delay packetDelay ;;;
           packetLoop fuel' data (i + packetSize)) s
      end
    else (s, Resolved tt).

(** With a packet size of at least one the loop ends within
    [data.length] iterations. *)
Definition sendDataInPackets (data : list Z) (splitNumber totalSplits : Z)
  : Async unit :=
  packetLoop (length data) data 0.

Definition sendImageSplit (split : ImageSplit.t) : Async unit :=
  fun s =>
    let data := ImageSplit.data split in
    let dimensions := ImageSplit.dimensions split in
    let splitIndex := ImageSplit.splitIndex split in
    let totalSplits := ImageSplit.totalSplits split in
    let s1 := setProtocol (getPrinterProtocol dimensions) s in
    let message :=
      PrinterProtocol.prefix (PrinterService.protocol s1) ++ data in
    sendDataInPackets message (splitIndex + 1) totalSplits s1.

(** [for (const split of imageSplits) await this.sendImageSplit(split)] *)
Fixpoint sendSplits (imageSplits : list ImageSplit.t) : Async unit :=
  match imageSplits with
  | [] => resolve tt
  | split :: rest => sendImageSplit split ;;; sendSplits rest
  end.

Definition sendImageData (imageData : list Z)
    (imageDimensions : ImageDimensions.t) : Async unit :=
  let imageSplits := calculateImageSplits imageData imageDimensions in
  sendSplits imageSplits ;;;
  (fun s => writeData (PrinterProtocol.postfix (PrinterService.protocol s)) s).

End Port.

(* ================================================================= *)
(** ** utils/imageProcessor.ts *)
(* ================================================================= *)

Module IMAGE_CONFIG.
Definition STANDARD_DPI : Z := 96.
Definition HEIGHT_MULTIPLIER : Z := 8.
Definition BITS_PER_BYTE : Z := 8.
Definition WHITE_PIXEL_VALUE : Z := 0xFF.
End IMAGE_CONFIG.

(** [COLORS] *)
Inductive Color := WHITE | BLACK.

Module CanvasConfig.
Record t := mk {
  width : Z;
  height : Z;
  scaleFactor : Q;
  adjustedFontSize : Z
}.
End CanvasConfig.

(** The calls the renderer makes on the 2D context.  [SetFont size
    family] is the assignment of [`${size}px "${family}" normal`];
    [ArcFull] is [arc(x, y, r, 0, 2 * Math.PI)]. *)
Inductive CanvasOp :=
| Save
| Restore
| SetFillStyle (color : Color)
| SetStrokeStyle (color : Color)
| SetLineWidth (w : Z)
| SetFont (size : Z) (family : string)
| SetTextAlign (a : Align)
| FillRect (x y w h : Z)
| StrokeRect (x y w h : Z)
| FillText (content : string) (x y : Z)
| BeginPath
| MoveTo (x y : Z)
| LineTo (x y : Z)
| ArcFull (x y r : Z)
| Stroke
| Fill.

(** A canvas: its size, and the calls made on its context so far. *)
Module Canvas.
Record t := mk {
  width : Z;
  height : Z;
  calls : list CanvasOp
}.
End Canvas.

Definition createCanvas (width height : Z) : Canvas.t :=
  {| Canvas.width := width; Canvas.height := height; Canvas.calls := [] |}.

(** [bitArrayToByte] *)
Definition bitArrayToByte (bitArray : list Z) : Z :=
  JS.reduce
    (fun value bit index =>
       if bit =? 1 then JS.bor value (JS.shl 1 index) else value)
    bitArray 0.

(** [getCanvasConfig], on the processor's [dimensions]. *)
Definition getCanvasConfig (dimensions : ImageDimensions.t)
    (options : PrintOptions.t) : CanvasConfig.t :=
  let scaleFactor :=
    (inject_Z (ImageDimensions.dpi dimensions)
     / inject_Z IMAGE_CONFIG.STANDARD_DPI)%Q in
  let width := JS.or_else (ImageDimensions.width dimensions) 0xE3 in
  let height :=
    ImageDimensions.height dimensions * IMAGE_CONFIG.HEIGHT_MULTIPLIER in
  let adjustedFontSize :=
    JS.round (inject_Z (PrintOptions.fontSize options) * scaleFactor)%Q in
  {| CanvasConfig.width := width;
     CanvasConfig.height := height;
     CanvasConfig.scaleFactor := scaleFactor;
     CanvasConfig.adjustedFontSize := adjustedFontSize |}.

(** [configureContext] *)
Definition configureContext (ctx : list CanvasOp) (config : CanvasConfig.t)
    (options : PrintOptions.t) : list CanvasOp :=
  ctx ++
  [SetFillStyle WHITE;
   FillRect 0 0 (CanvasConfig.width config) (CanvasConfig.height config);
   SetFillStyle BLACK;
   SetFont (CanvasConfig.adjustedFontSize config)
           (PrintOptions.fontFamily options)].

(** [setupCanvas].  The registration of the font file (and the error it
    logs when the file is missing) does not depend on the template and
    is left out. *)
Definition setupCanvas (dimensions : ImageDimensions.t)
    (options : PrintOptions.t) : Canvas.t * CanvasConfig.t :=
  let config := getCanvasConfig dimensions options in
  let canvas :=
    createCanvas (CanvasConfig.width config) (CanvasConfig.height config) in
  ({| Canvas.width := Canvas.width canvas;
      Canvas.height := Canvas.height canvas;
      Canvas.calls := configureContext (Canvas.calls canvas) config options |},
   config).

(** [String(value)] for a string and for an integer that a double
    holds exactly (below [2 ^ 53] in absolute value), which is written
    in decimal; larger numbers, which [String] rounds and from [1e21]
    on writes with an exponent, are outside the model. *)
Definition String_of (value : VarValue) : string :=
  match value with
  | VString s => s
  | VNumber n => pretty n
  end.

(** [processVariables].  The regular expression built from each key is
    read as the literal text [{{key}}], which is what it matches for the
    keys of [JS.literal_key] and the values of [JS.plain_replacement]. *)
Definition processVariables (content : string) (variables : option Variables)
  : string :=
  match variables with
  | None => content
  | Some entries =>
      fold_left
        (fun result '(key, value) =>
           let placeholder := ("{{" ++ key ++ "}}")%string in
           JS.replace_all result placeholder (String_of value))
        entries content
  end.

(** How a call of a render function ends: it returns, or it raises;
    either way with the calls made on the context so far. *)
Inductive Rendered :=
| Returned (ctx : list CanvasOp)
| Raised (ctx : list CanvasOp).

(** The message of the [catch] in [renderFromTemplate]:
    [`Failed to render element ${index + 1} (${element.type})`]. *)
Definition failedMessage (index : Z) (element : RenderElement) : string :=
  ("Failed to render element " ++ pretty (index + 1)
   ++ " (" ++ type_of element ++ ")")%string.

(** The calls of [renderStripeElement] on the rounded values: [save],
    the fill style, one rectangle per iteration of the loop of the
    element's direction, [restore].  [None] when the loop does not
    end. *)
Definition renderStripes (bounds : Bounds.t) (spacing stripeWidth : Z)
    (direction : Direction) (ctx : list CanvasOp) : option (list CanvasOp) :=
  let ctx1 := ctx ++ [Save; SetFillStyle BLACK] in
  ctx2 ←
    match direction with
    | horizontal =>
        JS.for_loop (Z.to_nat (Bounds.height bounds))
          (fun y => y <? Bounds.y bounds + Bounds.height bounds) spacing
          (fun y c =>
             c ++ [FillRect (Bounds.x bounds) y (Bounds.width bounds)
                     (JS.min stripeWidth
                        (Bounds.y bounds + Bounds.height bounds - y))])
          (Bounds.y bounds) ctx1
    | vertical =>
        JS.for_loop (Z.to_nat (Bounds.width bounds))
          (fun x => x <? Bounds.x bounds + Bounds.width bounds) spacing
          (fun x c =>
             c ++ [FillRect x (Bounds.y bounds)
                     (JS.min stripeWidth
                        (Bounds.x bounds + Bounds.width bounds - x))
                     (Bounds.height bounds)])
          (Bounds.x bounds) ctx1
    end;
  Some (ctx2 ++ [Restore]).

(** The calls of [renderGridElement] on the rounded values: [save], the
    stroke style and the line width, the vertical rules, the horizontal
    rules, [restore].  [None] when a loop does not end. *)
Definition renderGrid (lineWidth : option Z) (bounds : Bounds.t)
    (cellWidth cellHeight : Z) (ctx : list CanvasOp)
  : option (list CanvasOp) :=
  let ctx1 :=
    ctx ++
    [Save; SetStrokeStyle BLACK;
     SetLineWidth (JS.opt_or_else lineWidth 1)] in
  ctx2 ←
    JS.for_loop (Z.to_nat (Bounds.width bounds + 1))
      (fun x => x <=? Bounds.x bounds + Bounds.width bounds) cellWidth
      (fun x c =>
         c ++ [BeginPath;
               MoveTo x (Bounds.y bounds);
               LineTo x (Bounds.y bounds + Bounds.height bounds);
               Stroke])
      (Bounds.x bounds) ctx1;
  ctx3 ←
    JS.for_loop (Z.to_nat (Bounds.height bounds + 1))
      (fun y => y <=? Bounds.y bounds + Bounds.height bounds) cellHeight
      (fun y c =>
         c ++ [BeginPath;
               MoveTo (Bounds.x bounds) y;
               LineTo (Bounds.x bounds + Bounds.width bounds) y;
               Stroke])
      (Bounds.y bounds) ctx2;
  Some (ctx3 ++ [Restore]).

Section Render.

Variable config : CanvasConfig.t.

(** [Math.round(v * config.scaleFactor)], on the exact product. *)
Definition scaled (v : Z) : Z :=
  JS.round (inject_Z v * CanvasConfig.scaleFactor config)%Q.

Definition renderTextElement (ctx : list CanvasOp) (element : TextElement.t)
    (variables : option Variables) : list CanvasOp :=
  let content := processVariables (TextElement.content element) variables in
  let fontSize :=
    match TextElement.fontSize element with
    | Some v => if v =? 0 then CanvasConfig.adjustedFontSize config else scaled v
    | None => CanvasConfig.adjustedFontSize config
    end in
  let fontFamily := JS.str_or_else (TextElement.fontFamily element) "Arial" in
  let x := scaled (Position.x (TextElement.position element)) in
  let y := scaled (Position.y (TextElement.position element)) in
  ctx ++
  [Save;
   SetFont fontSize fontFamily;
   SetTextAlign (default AlignLeft (TextElement.align element));
   SetFillStyle BLACK;
   FillText content x y;
   Restore].

Definition renderLineElement (ctx : list CanvasOp) (element : LineElement.t)
  : list CanvasOp :=
  let startX := scaled (Position.x (LineElement.start element)) in
  let startY := scaled (Position.y (LineElement.start element)) in
  let endX := scaled (Position.x (LineElement.end_ element)) in
  let endY := scaled (Position.y (LineElement.end_ element)) in
  ctx ++
  [Save;
   SetStrokeStyle BLACK;
   SetLineWidth (JS.opt_or_else (LineElement.width element) 1);
   BeginPath;
   MoveTo startX startY;
   LineTo endX endY;
   Stroke;
   Restore].

Definition renderRectangleElement (ctx : list CanvasOp)
    (element : RectangleElement.t) : list CanvasOp :=
  let x := scaled (Position.x (RectangleElement.position element)) in
  let y := scaled (Position.y (RectangleElement.position element)) in
  let width := scaled (RectangleElement.width element) in
  let height := scaled (RectangleElement.height element) in
  ctx ++ [Save] ++
  (if default false (RectangleElement.filled element)
   then [SetFillStyle BLACK; FillRect x y width height]
   else [SetStrokeStyle BLACK; StrokeRect x y width height]) ++
  [Restore].

(** [renderCircleElement].  [ctx.arc] raises on a negative radius; the
    calls made before it stay made, and the [restore] is not reached. *)
Definition renderCircleElement (ctx : list CanvasOp)
    (element : CircleElement.t) : Rendered :=
  let centerX := scaled (Position.x (CircleElement.center element)) in
  let centerY := scaled (Position.y (CircleElement.center element)) in
  let radius := scaled (CircleElement.radius element) in
  if radius <? 0 then Raised (ctx ++ [Save; BeginPath])
  else
    Returned
      (ctx ++ [Save; BeginPath; ArcFull centerX centerY radius] ++
       (if default false (CircleElement.filled element)
        then [SetFillStyle BLACK; Fill]
        else [SetStrokeStyle BLACK; Stroke]) ++
       [Restore]).

(** The bounds of a stripe or grid element: the scaled [bounds] when
    present, the whole canvas otherwise. *)
Definition scaledBounds (bounds : option Bounds.t) : Bounds.t :=
  match bounds with
  | Some b =>
      {| Bounds.x := scaled (Bounds.x b);
         Bounds.y := scaled (Bounds.y b);
         Bounds.width := scaled (Bounds.width b);
         Bounds.height := scaled (Bounds.height b) |}
  | None =>
      {| Bounds.x := 0;
         Bounds.y := 0;
         Bounds.width := CanvasConfig.width config;
         Bounds.height := CanvasConfig.height config |}
  end.

(** [renderStripeElement]: the rounded [bounds], [spacing] and
    [stripeWidth], then the calls made with them; [None] when a loop
    does not end (a spacing that scales to zero or less, over non-empty
    bounds). *)
Definition renderStripeElement (ctx : list CanvasOp)
    (element : StripeElement.t) : option (list CanvasOp) :=
  let bounds := scaledBounds (StripeElement.bounds element) in
  let spacing := scaled (StripeElement.spacing element) in
  let stripeWidth := scaled (StripeElement.width element) in
  renderStripes bounds spacing stripeWidth (StripeElement.direction element)
    ctx.

(** [renderGridElement]: the rounded [bounds], [cellWidth] and
    [cellHeight], then the calls made with them; [None] when a loop
    does not end (a cell size that scales to zero or less). *)
Definition renderGridElement (ctx : list CanvasOp) (element : GridElement.t)
  : option (list CanvasOp) :=
  let bounds := scaledBounds (GridElement.bounds element) in
  let cellWidth := scaled (GridElement.cellWidth element) in
  let cellHeight := scaled (GridElement.cellHeight element) in
  renderGrid (GridElement.lineWidth element) bounds cellWidth cellHeight ctx.

(** [renderElement]: how the call ends, with the context as the call
    leaves it, and the messages passed to [logger.error]; [None] when
    the element's loop does not end. *)
Definition renderElement (ctx : list CanvasOp) (element : RenderElement)
    (variables : option Variables) : option (Rendered * list string) :=
  match element with
  | text e => Some (Returned (renderTextElement ctx e variables), [])
  | line e => Some (Returned (renderLineElement ctx e), [])
  | rectangle e => Some (Returned (renderRectangleElement ctx e), [])
  | circle e => Some (renderCircleElement ctx e, [])
  | stripes e => ctx' ← renderStripeElement ctx e; Some (Returned ctx', [])
  | grid e => ctx' ← renderGridElement ctx e; Some (Returned ctx', [])
  | unknown tag =>
      Some (Returned ctx, [("Unknown element type: " ++ tag)%string])
  end.

(** The [forEach] of [renderFromTemplate], from the element of index
    [index] on: an element that raises is caught, reported to
    [logger.error] with its position counted from 1 and its type, and
    the elements after it are rendered on the context as it was left. *)
Fixpoint renderElementsFrom (index : Z) (ctx : list CanvasOp)
    (errors : list string) (elements : list RenderElement)
    (variables : option Variables) : option (list CanvasOp * list string) :=
  match elements with
  | [] => Some (ctx, errors)
  | element :: rest =>
      match renderElement ctx element variables with
      | Some (Returned ctx', logged) =>
          renderElementsFrom (index + 1) ctx' (errors ++ logged) rest variables
      | Some (Raised ctx', logged) =>
          renderElementsFrom (index + 1) ctx'
            (errors ++ logged ++ [failedMessage index element]) rest variables
      | None => None
      end
  end.

Definition renderElements (ctx : list CanvasOp) (errors : list string)
    (elements : list RenderElement) (variables : option Variables)
  : option (list CanvasOp * list string) :=
  renderElementsFrom 0 ctx errors elements variables.

Definition renderFromTemplate (canvas : Canvas.t) (template : RenderTemplate.t)
    (variables : option Variables) : option (Canvas.t * list string) :=
  '(ctx, errors) ←
    renderElements (Canvas.calls canvas) []
      (RenderTemplate.elements template) variables;
  Some ({| Canvas.width := Canvas.width canvas;
           Canvas.height := Canvas.height canvas;
           Canvas.calls := ctx |}, errors).

End Render.

Section CanvasToImageData.

(** [canvas.stride] and [canvas.toBuffer('raw')] *)
Variable stride : Z.
Variable pixels : list Z.
Variable config : CanvasConfig.t.

(** The bit of the pixel at column [x], row [y]: the first byte of the
    pixel is compared with the white value. *)
Definition pixelBit (x y : Z) : Z :=
  let pixelIndex := y * stride + x * 4 in
  let blueValue := JS.get pixels pixelIndex in
  match blueValue with
  | Some v => if v =? IMAGE_CONFIG.WHITE_PIXEL_VALUE then 0 else 1
  | None => 1
  end.

(** [for (let y = config.height - 1; y >= 0; y--)]: with [n] rows left,
    the row visited is [y = n - 1]. *)
Fixpoint columnLoop (n : nat) (x : Z) (bitChunk imageData : list Z)
  : list Z * list Z :=
  match n with
  | O => (bitChunk, imageData)
  | S n' =>
      let y := Z.of_nat n' in
      let bit := pixelBit x y in
      let bitChunk1 := bit :: bitChunk in
      if Z.of_nat (length bitChunk1) =? IMAGE_CONFIG.BITS_PER_BYTE
      then columnLoop n' x [] (imageData ++ [bitArrayToByte bitChunk1])
      else columnLoop n' x bitChunk1 imageData
  end.

(** [for (let x = 0; x < config.width; x++)], with a fresh [bitChunk]
    for every column. *)
Fixpoint rowLoop (fuel : nat) (x : Z) (imageData : list Z) : list Z :=
  match fuel with
  | O => imageData
  | S fuel' =>
      if x <? CanvasConfig.width config
      then rowLoop fuel' (x + 1)
             (snd (columnLoop (Z.to_nat (CanvasConfig.height config)) x []
                     imageData))
      else imageData
  end.

Definition canvasToImageData : list Z :=
  rowLoop (Z.to_nat (CanvasConfig.width config)) 0 [].

End CanvasToImageData.

Module JsonRenderOptions.
Record t := mk {
  template : RenderTemplate.t;
  variables : option Variables
}.
End JsonRenderOptions.

(** The result of [createImageFromJson]: [imageData] and [config] as
    returned, with the canvas that was drawn and the messages passed to
    [logger.error] kept for the statements. *)
Module JsonImage.
Record t := mk {
  imageData : list Z;
  config : CanvasConfig.t;
  canvas : Canvas.t;
  errors : list string
}.
End JsonImage.

(** The dimensions the temporary processor is created with. *)
Definition effectiveDimensions (dimensions : ImageDimensions.t)
    (template : RenderTemplate.t) : ImageDimensions.t :=
  match RenderTemplate.dimensions template with
  | Some d =>
      {| ImageDimensions.width :=
           JS.opt_or_else (TemplateDimensions.width d)
             (ImageDimensions.width dimensions);
         ImageDimensions.height :=
           JS.opt_or_else (TemplateDimensions.height d)
             (ImageDimensions.height dimensions);
         ImageDimensions.dpi := ImageDimensions.dpi dimensions |}
  | None => dimensions
  end.

Definition dummyOptions (template : RenderTemplate.t) : PrintOptions.t :=
  {| PrintOptions.fontSize :=
       JS.opt_or_else (DefaultFont.size <$> RenderTemplate.defaultFont template) 12;
     PrintOptions.fontFamily :=
       JS.str_or_else (DefaultFont.family <$> RenderTemplate.defaultFont template)
         "Arial" |}.

Section CreateImageFromJson.

(** The canvas library: the row stride and the raw pixel buffer of a
    canvas on which the given calls were made. *)
Variable canvas_stride : Canvas.t -> Z.
Variable canvas_toBuffer : Canvas.t -> list Z.

(** [createImageFromJson], on the processor's [dimensions].  The debug
    files written in debug mode are left out. *)
Definition createImageFromJson (dimensions : ImageDimensions.t)
    (options : JsonRenderOptions.t) : option JsonImage.t :=
  let template := JsonRenderOptions.template options in
  let '(canvas0, config) :=
    setupCanvas (effectiveDimensions dimensions template)
      (dummyOptions template) in
  '(canvas, errors) ←
    renderFromTemplate config canvas0 template
      (JsonRenderOptions.variables options);
  let imageData :=
    canvasToImageData (canvas_stride canvas) (canvas_toBuffer canvas) config in
  Some {| JsonImage.imageData := imageData;
          JsonImage.config := config;
          JsonImage.canvas := canvas;
          JsonImage.errors := errors |}.

End CreateImageFromJson.

(* ================================================================= *)
(** ** Reading the models *)
(* ================================================================= *)





(** Big-endian 16-bit encoding, as the specification words it: the most
    significant byte first. *)
Definition be16 (n : Z) : list Z := [n / 256; n mod 256].

(** Reading two bytes back as a big-endian number. *)
Definition be16_decode (bs : list Z) : option Z :=
  match bs with
  | [hi; lo] => Some (hi * 256 + lo)
  | _ => None
  end.

Definition is_byte (b : Z) : Prop := 0 <= b < 256.

(** The constant part of the prefix. *)
Definition PREFIX_HEADER : list Z :=
  [0x10; 0xFF; 0xFE; 0x01; 0x10; 0xFF; 0xFE; 0x40; 0x1D; 0x76; 0x30].

(** The [j]-th block of [size] consecutive elements of [l]. *)
Definition blockAt {A} (l : list A) (size j : nat) : list A :=
  take size (drop (j * size) l).

(** The first [n] blocks of [l]. *)
Definition blocks {A} (l : list A) (size n : nat) : list (list A) :=
  map (blockAt l size) (seq 0 n).

(** The sum of a list of integers. *)
Definition Zsum (l : list Z) : Z := foldr Z.add 0 l.

(** The number whose binary digits are [bits], least significant
    first. *)
Fixpoint bitsValue (bits : list bool) : Z :=
  match bits with
  | [] => 0
  | b :: rest => Z.b2z b + 2 * bitsValue rest
  end.

(** Whether [pattern] occurs somewhere in [s]. *)
Fixpoint occurs (pattern s : string) : bool :=
  match s with
  | EmptyString => false
  | String _ rest => String.prefix pattern s || occurs pattern rest
  end.

(** Whether the pixel at column [x], row [y] of the raw buffer is not
    white: its first byte differs from [0xFF] (or is missing). *)
Definition notWhite (stride : Z) (pixels : list Z) (x y : Z) : bool :=
  match JS.get pixels (y * stride + x * 4) with
  | Some v => negb (v =? 0xFF)
  | None => true
  end.

(** The row of the [k]-th pixel visited in a column of a surface of the
    given height ([k] counted from 0): the walk starts at the bottom. *)
Definition visitedRow (height k : Z) : Z := height - 1 - k.

(** The byte packed from the eight rows [y0 .. y0 + 7] of column [x]. *)
Definition columnByte (stride : Z) (pixels : list Z) (x y0 : Z) : Z :=
  bitArrayToByte
    (map (fun j => pixelBit stride pixels x (y0 + j)) [0; 1; 2; 3; 4; 5; 6; 7]).

(** The bytes of column [x] of a surface of height [h]: one per complete
    group of eight rows, the bottom group first. *)
Definition packedColumn (stride : Z) (pixels : list Z) (h x : Z) : list Z :=
  map (fun g => columnByte stride pixels x (h - 8 * (Z.of_nat g + 1)))
      (seq 0 (Z.to_nat (h / 8))).

(** The bit order as the specification states it: bit [i] of the byte of
    group [g] in column [x] tells whether the [i]-th pixel visited in
    that group is not white, bit 0 being the first pixel visited. *)
Definition bit0_is_first_visited : Prop :=
  forall (stride : Z) (pixels : list Z) (config : CanvasConfig.t) (x g i : Z),
    let w := CanvasConfig.width config in
    let h := CanvasConfig.height config in
    0 <= h -> h mod 8 = 0 ->
    0 <= x < w -> 0 <= g < h / 8 -> 0 <= i < 8 ->
    exists b,
      canvasToImageData stride pixels config !! Z.to_nat (x * (h / 8) + g)
        = Some b
      /\ Z.testbit b i = notWhite stride pixels x (visitedRow h (8 * g + i)).

(** A surface one pixel wide and eight pixels high (stride 4): rows 0
    to 6 are white, the bottom row 7 is black. *)
Definition bottom_black_pixels : list Z :=
  [255; 255; 255; 255;  255; 255; 255; 255;  255; 255; 255; 255;
   255; 255; 255; 255;  255; 255; 255; 255;  255; 255; 255; 255;
   255; 255; 255; 255;  0; 0; 0; 255].

Definition one_by_eight : CanvasConfig.t :=
  {| CanvasConfig.width := 1;
     CanvasConfig.height := 8;
     CanvasConfig.scaleFactor := 1;
     CanvasConfig.adjustedFontSize := 12 |}.




(** A line of declared width 3, and the canvas configuration of the
    default dimensions at 192 dpi (scale factor 2). *)
Definition line_of_width_3 : LineElement.t :=
  {| LineElement.start := Position.mk 0 0;
     LineElement.end_ := Position.mk 10 0;
     LineElement.width := Some 3 |}.

Definition config_192dpi : CanvasConfig.t :=
  getCanvasConfig (IMAGE_DIMENSIONS 192)
    {| PrintOptions.fontSize := 12; PrintOptions.fontFamily := "Arial" |}.

(** The override rule as the specification states it: the template's
    value wins when present and non-zero. *)
Definition overrideOr (override : option Z) (base : Z) : Z :=
  match override with
  | Some v => if v =? 0 then base else v
  | None => base
  end.

Definition effectiveWidth (template : RenderTemplate.t)
    (base : ImageDimensions.t) : Z :=
  match RenderTemplate.dimensions template with
  | Some d => overrideOr (TemplateDimensions.width d) (ImageDimensions.width base)
  | None => ImageDimensions.width base
  end.

Definition effectiveHeight (template : RenderTemplate.t)
    (base : ImageDimensions.t) : Z :=
  match RenderTemplate.dimensions template with
  | Some d =>
      overrideOr (TemplateDimensions.height d) (ImageDimensions.height base)
  | None => ImageDimensions.height base
  end.

(** The canvas [createImageFromJson] draws on, before any element. *)
Definition jsonCanvas (dimensions : ImageDimensions.t)
    (template : RenderTemplate.t) : Canvas.t :=
  fst (setupCanvas (effectiveDimensions dimensions template)
         (dummyOptions template)).

(** A template without elements and without a [dimensions] override,
    and base dimensions of width zero. *)
Definition empty_template : RenderTemplate.t :=
  {| RenderTemplate.name := "empty";
     RenderTemplate.description := None;
     RenderTemplate.dimensions := None;
     RenderTemplate.defaultFont := None;
     RenderTemplate.elements := [] |}.

Definition zero_width_dimensions : ImageDimensions.t :=
  {| ImageDimensions.width := 0;
     ImageDimensions.height := 0x11;
     ImageDimensions.dpi := 203 |}.

(** The same template with other elements. *)
Definition withElements (template : RenderTemplate.t)
    (elements : list RenderElement) : RenderTemplate.t :=
  {| RenderTemplate.name := RenderTemplate.name template;
     RenderTemplate.description := RenderTemplate.description template;
     RenderTemplate.dimensions := RenderTemplate.dimensions template;
     RenderTemplate.defaultFont := RenderTemplate.defaultFont template;
     RenderTemplate.elements := elements |}.

(** The surface size as the specification states it. *)
Definition surface_size_is_effective : Prop :=
  forall (dimensions : ImageDimensions.t) (template : RenderTemplate.t),
    Canvas.width (jsonCanvas dimensions template)
      = effectiveWidth template dimensions
    /\ Canvas.height (jsonCanvas dimensions template)
       = effectiveHeight template dimensions * 8.



(* ================================================================= *)
(** ** services/printerService.ts: the firmware handshake *)
(* ================================================================= *)

Section Device.

Variable write_ok : nat -> list Z -> bool.

(** The data event that answers the firmware request, if one ever
    arrives. *)
Variable device_reply : option (list Z).

(** [Buffer.prototype.toString] *)
Variable Buffer_toString : list Z -> string.

(** [waitForData]: settles with the first data event; there is no
    timeout. *)
Definition waitForData : Async (list Z) :=
  fun s =>
    match device_reply with
    | Some buf => (s, Resolved buf)
    | None => (s, Pending)
    end.

Definition getFirmwareVersion : Async string :=
  fun s =>
    await
      (writeData write_ok
         (PrinterProtocol.firmwareRequest (PrinterService.protocol s)))
      (fun _ =>
         await waitForData
           (fun firmwareVersion => resolve (Buffer_toString firmwareVersion)))
      s.

Definition waitForCompletion : Async unit :=
  fun s => delay (PrinterConfig.exitDelay (PrinterService.config s)) s.

End Device.

(* ================================================================= *)
(** ** jsonPrinterApp.ts *)
(* ================================================================= *)

(** How the process ends: [process.exit(code)], or never. *)
Inductive ProcessEnd :=
| Exit (code : Z)
| Hang.

Section JsonPrinterApp.

Variable write_ok : nat -> list Z -> bool.
Variable device_reply : option (list Z).
Variable Buffer_toString : list Z -> string.
Variable canvas_stride : Canvas.t -> Z.
Variable canvas_toBuffer : Canvas.t -> list Z.

(** The dpi read from the environment by [IMAGE_DIMENSIONS]. *)
Variable printer_dpi : Z.

(** The printer service the constructor creates. *)
Definition appPrinterService (printerConfig : PrinterConfig.t)
  : PrinterService.t :=
  newPrinterService printerConfig
    (getPrinterProtocol (IMAGE_DIMENSIONS printer_dpi)).

(** [renderTemplate]: the image processor was created with
    [IMAGE_DIMENSIONS]. *)
Definition renderTemplate (template : RenderTemplate.t)
    (variables : option Variables) : option JsonImage.t :=
  createImageFromJson canvas_stride canvas_toBuffer
    (IMAGE_DIMENSIONS printer_dpi)
    {| JsonRenderOptions.template := template;
       JsonRenderOptions.variables := variables |}.

(** [{ ...IMAGE_DIMENSIONS, width: imageData.config.width }] *)
Definition printDimensions (imageData : JsonImage.t) : ImageDimensions.t :=
  {| ImageDimensions.width := CanvasConfig.width (JsonImage.config imageData);
     ImageDimensions.height :=
       ImageDimensions.height (IMAGE_DIMENSIONS printer_dpi);
     ImageDimensions.dpi := ImageDimensions.dpi (IMAGE_DIMENSIONS printer_dpi) |}.

(** [handleConnection]: the [try] block ends in [process.exit(0)], the
    [catch] block in [process.exit(1)]. *)
Definition handleConnection (template : RenderTemplate.t)
    (variables : option Variables)
  : PrinterService.t -> PrinterService.t * ProcessEnd :=
  fun s =>
    match getFirmwareVersion write_ok device_reply Buffer_toString s with
    | (s1, Resolved firmwareVersion) =>
        match renderTemplate template variables with
        | Some imageData =>
            match
              (sendImageData write_ok (JsonImage.imageData imageData)
                 (printDimensions imageData) ;;;
               waitForCompletion) s1
            with
            | (s2, Resolved _) => (s2, Exit 0)
            | (s2, Rejected) => (s2, Exit 1)
            | (s2, Pending) => (s2, Hang)
            end
        | None => (s1, Hang)
        end
    | (s1, Rejected) => (s1, Exit 1)
    | (s1, Pending) => (s1, Hang)
    end.

End JsonPrinterApp.

(** A port on which every write completes. *)
Definition accepting : nat -> list Z -> bool := fun _ _ => true.

(** The port accepts every write of [trace], made after the effects
    [io0]. *)
Definition accepted (write_ok : nat -> list Z -> bool)
    (io0 trace : list Effect) : Prop :=
  forall (n : nat) (chunk : list Z),
    writes trace !! n = Some chunk ->
    write_ok (length (writes io0) + n)%nat chunk = true.

(** A run against the port [write_ok], started after the effects [io0],
    follows the run [ideal] of the same operation on the accepting port:
    [ideal] resolves after some trace of effects, and the run either
    performs the same trace, every write of it accepted, and resolves to
    the same state and value, or it performs the part of the trace that
    comes before a write the port refuses, and is rejected. *)
Definition follows {A} (write_ok : nat -> list Z -> bool)
    (io0 : list Effect) (ideal actual : PrinterService.t * Outcome A)
  : Prop :=
  exists (sAll : PrinterService.t) (a : A) (trace : list Effect),
    ideal = (sAll, Resolved a)
    /\ PrinterService.io sAll = io0 ++ trace
    /\ ((actual = (sAll, Resolved a) /\ accepted write_ok io0 trace)
        \/ exists (s' : PrinterService.t) (pre : list Effect)
                  (chunk : list Z) (post : list Effect),
             actual = (s', Rejected)
             /\ trace = pre ++ Write chunk :: post
             /\ PrinterService.io s' = io0 ++ pre
             /\ accepted write_ok io0 pre
             /\ write_ok (length (writes (io0 ++ pre))) chunk = false).

(* ================================================================= *)
(** ** Reading the renderer's calls *)
(* ================================================================= *)

Section ContextState.

(** The drawing state of a 2D context (styles, line width, font, text
    alignment, ...), left abstract, and what a call other than [save]
    and [restore] does to it. *)
Variable St : Type.
Variable assign : CanvasOp -> St -> St.

(** [save] pushes the current drawing state, [restore] pops it (and
    does nothing on an empty stack). *)
Definition contextStep (st : St * list St) (op : CanvasOp) : St * list St :=
  let '(cur, stack) := st in
  match op with
  | Save => (cur, cur :: stack)
  | Restore =>
      match stack with
      | [] => (cur, [])
      | saved :: stack' => (saved, stack')
      end
  | _ => (assign op cur, stack)
  end.

Definition contextAfter (st : St * list St) (ops : list CanvasOp)
  : St * list St :=
  fold_left contextStep ops st.

End ContextState.

Definition isSaveRestore (op : CanvasOp) : bool :=
  match op with
  | Save | Restore => true
  | _ => false
  end.

(** The values the variable of [for (i = start; ...; i += step)] takes
    in its first [n] iterations. *)
Definition loopIndices (start step : Z) (n : nat) : list Z :=
  map (fun k => start + Z.of_nat k * step) (seq 0 n).

(** The elements whose loop cannot advance: a stripe spacing or a grid
    cell size that scales to zero or less, over bounds that the loop
    enters. *)
Definition loopStalls (config : CanvasConfig.t) (element : RenderElement)
  : Prop :=
  match element with
  | stripes e =>
      let bounds := scaledBounds config (StripeElement.bounds e) in
      scaled config (StripeElement.spacing e) <= 0
      /\ 0 < match StripeElement.direction e with
             | horizontal => Bounds.height bounds
             | vertical => Bounds.width bounds
             end
  | grid e =>
      let bounds := scaledBounds config (GridElement.bounds e) in
      (scaled config (GridElement.cellWidth e) <= 0
       /\ 0 <= Bounds.width bounds)
      \/ (scaled config (GridElement.cellHeight e) <= 0
          /\ 0 <= Bounds.height bounds)
  | _ => False
  end.

(** The configuration [createImageFromJson] renders a template with. *)
Definition jsonConfig (dimensions : ImageDimensions.t)
    (template : RenderTemplate.t) : CanvasConfig.t :=
  getCanvasConfig (effectiveDimensions dimensions template)
    (dummyOptions template).

(** The fill style and the stroke style of a context, as the calls of
    the renderer assign them. *)
Definition styleAssign (op : CanvasOp) (st : Color * Color) : Color * Color :=
  match op with
  | SetFillStyle color => (color, snd st)
  | SetStrokeStyle color => (fst st, color)
  | _ => st
  end.

(** The colour every painting call of [ops] paints with, in order: the
    fill style in force for [fillRect], [fillText] and [fill], the
    stroke style in force for [stroke] and [strokeRect]. *)
Fixpoint paintColors (st : (Color * Color) * list (Color * Color))
    (ops : list CanvasOp) : list Color :=
  match ops with
  | [] => []
  | op :: rest =>
      match op with
      | FillRect _ _ _ _ | FillText _ _ _ | Fill => [fst (fst st)]
      | Stroke | StrokeRect _ _ _ _ => [snd (fst st)]
      | _ => []
      end ++ paintColors (contextStep (Color * Color) styleAssign st op) rest
  end.

(** Calls that leave the styles and the stack alone and paint, if they
    paint, by filling ([fills]) or by stroking ([negb fills]). *)
Definition paintsBy (fills : bool) (op : CanvasOp) : Prop :=
  match op with
  | FillRect _ _ _ _ | FillText _ _ _ | Fill => fills = true
  | Stroke | StrokeRect _ _ _ _ => fills = false
  | Save | Restore | SetFillStyle _ | SetStrokeStyle _ => False
  | _ => True
  end.

(** The context as a call of a render function leaves it. *)
Definition callsOf (r : Rendered) : list CanvasOp :=
  match r with
  | Returned ctx | Raised ctx => ctx
  end.

(** The elements on which a render function raises: a circle whose
    radius scales below zero. *)
Definition elementRaises (config : CanvasConfig.t) (element : RenderElement)
  : bool :=
  match element with
  | circle e => scaled config (CircleElement.radius e) <? 0
  | _ => false
  end.





(* ================================================================= *)
(** * Properties *)
(* ================================================================= *)

(** ** Facts about the JavaScript primitives *)

Lemma toInt32_small (z : Z) : - 2 ^ 31 <= z < 2 ^ 31 -> JS.toInt32 z = z.
Proof.
  intros Hz. unfold JS.toInt32.
  rewrite Z.mod_small by lia. lia.
Qed.

Lemma shr_8_high_byte (n : Z) : 0 <= n < 65536 -> JS.shr n 8 = n / 256.
Proof.
  intros Hn. unfold JS.shr.
  rewrite toInt32_small by lia.
  change (8 mod 32) with 8.
  rewrite Z.shiftr_div_pow2 by lia. reflexivity.
Qed.

Lemma band_255_low_byte (n : Z) : 0 <= n < 65536 -> JS.band n 0xFF = n mod 256.
Proof.
  intros Hn. unfold JS.band.
  rewrite (toInt32_small n) by lia.
  rewrite (toInt32_small 255) by lia.
  change 255 with (Z.ones 8).
  rewrite Z.land_ones by lia.
  change (2 ^ 8) with 256.
  apply toInt32_small.
  pose proof (Z.mod_pos_bound n 256). lia.
Qed.

Lemma slice_take_drop {A} (arr : list A) (a b : Z) :
  0 <= a <= b ->
  JS.slice arr a b = take (Z.to_nat (b - a)) (drop (Z.to_nat a) arr).
Proof.
  intros Hab. unfold JS.slice, JS.clamp_index.
  destruct (Z.ltb_spec a 0) as [?|_]; [lia|].
  destruct (Z.ltb_spec b 0) as [?|_]; [lia|].
  set (len := Z.of_nat (length arr)).
  destruct (Z.le_gt_cases len a) as [Hge|Hlt].
  - rewrite Z.min_r by lia.
    rewrite !drop_ge by lia. by rewrite !take_nil.
  - rewrite (Z.min_l a) by lia.
    destruct (Z.le_gt_cases b len) as [Hb|Hb].
    + rewrite Z.min_l by lia. f_equal. lia.
    + rewrite Z.min_r by lia.
      rewrite !take_ge; [done | | ]; rewrite length_drop; lia.
Qed.

(** ** Protocol framing ([getPrinterProtocol]) *)

Lemma be16_bytes (n : Z) : 0 <= n < 65536 -> Forall is_byte (be16 n).
Proof.
  intros Hn. unfold be16, is_byte.
  repeat constructor.
  - apply Z.div_pos; lia.
  - apply Z.div_lt_upper_bound; lia.
  - apply Z.mod_pos_bound; lia.
  - apply Z.mod_pos_bound; lia.
Qed.

Lemma be16_roundtrip (n : Z) : be16_decode (be16 n) = Some n.
Proof.
  unfold be16, be16_decode. f_equal.
  pose proof (Z.div_mod n 256). lia.
Qed.

Lemma prefix_layout (d : ImageDimensions.t) :
  0 <= ImageDimensions.height d < 65536 ->
  0 <= ImageDimensions.width d < 65536 ->
  PrinterProtocol.prefix (getPrinterProtocol d) =
    PREFIX_HEADER ++ be16 (ImageDimensions.height d)
                  ++ be16 (ImageDimensions.width d) ++ [0].
Proof.
  intros Hh Hw. unfold getPrinterProtocol, PrinterProtocol.prefix.
  rewrite !shr_8_high_byte, !band_255_low_byte by assumption.
  reflexivity.
Qed.

(** C4.  For dimensions whose height and width fit in 16 bits, the
    firmware request is the fixed four bytes 10 FF 20 F1, the prefix is
    the fixed eleven-byte header followed by the height and then the
    width in big-endian 16-bit form and one zero byte (sixteen bytes in
    all, each a byte value), and the postfix is the fixed seven bytes
    1B 4A 40 10 FF FE 45. *)
Theorem getPrinterProtocol_framing (d : ImageDimensions.t) :
  0 <= ImageDimensions.height d < 65536 ->
  0 <= ImageDimensions.width d < 65536 ->
  PrinterProtocol.firmwareRequest (getPrinterProtocol d)
    = [0x10; 0xFF; 0x20; 0xF1]
  /\ PrinterProtocol.prefix (getPrinterProtocol d)
     = PREFIX_HEADER ++ be16 (ImageDimensions.height d)
                     ++ be16 (ImageDimensions.width d) ++ [0]
  /\ length PREFIX_HEADER = 11%nat
  /\ length (PrinterProtocol.prefix (getPrinterProtocol d)) = 16%nat
  /\ Forall is_byte (PrinterProtocol.prefix (getPrinterProtocol d))
  /\ be16_decode (be16 (ImageDimensions.height d))
     = Some (ImageDimensions.height d)
  /\ be16_decode (be16 (ImageDimensions.width d))
     = Some (ImageDimensions.width d)
  /\ PrinterProtocol.postfix (getPrinterProtocol d)
     = [0x1B; 0x4A; 0x40; 0x10; 0xFF; 0xFE; 0x45].
Proof.
  intros Hh Hw.
  split; [reflexivity|].
  split; [by apply prefix_layout|].
  split; [reflexivity|].
  split; [reflexivity|].
  split.
  - rewrite prefix_layout by assumption.
    repeat apply Forall_app_2.
    + unfold PREFIX_HEADER, is_byte. repeat constructor; lia.
    + by apply be16_bytes.
    + by apply be16_bytes.
    + unfold is_byte. repeat constructor; lia.
  - repeat split; auto using be16_roundtrip.
Qed.

Lemma getPrinterProtocol_framing_witness :
  PrinterProtocol.prefix
    (getPrinterProtocol
       {| ImageDimensions.width := 255;
          ImageDimensions.height := 0x11;
          ImageDimensions.dpi := 203 |})
  = PREFIX_HEADER ++ be16 0x11 ++ be16 255 ++ [0].
Proof.
  refine (proj1 (proj2 (getPrinterProtocol_framing
    {| ImageDimensions.width := 255;
       ImageDimensions.height := 0x11;
       ImageDimensions.dpi := 203 |} _ _))); simpl; lia.
Defined.

(** ** Blocks of a list, and rounding a quotient up *)

Lemma ceil_div_bounds (a b : Z) :
  0 < b -> b * (JS.ceil_div a b - 1) < a <= b * JS.ceil_div a b.
Proof.
  intros Hb. unfold JS.ceil_div.
  pose proof (Z.div_mod (- a) b ltac:(lia)) as Hdm.
  pose proof (Z.mod_pos_bound (- a) b Hb) as Hm.
  nia.
Qed.

Lemma ceil_div_unique (a b n : Z) :
  0 < b -> b * (n - 1) < a <= b * n -> JS.ceil_div a b = n.
Proof.
  intros Hb Hn. pose proof (ceil_div_bounds a b Hb). nia.
Qed.

Lemma blocks_length {A} (l : list A) (size n : nat) :
  length (blocks l size n) = n.
Proof. unfold blocks. by rewrite length_map, length_seq. Qed.

Lemma blocks_lookup {A} (l : list A) (size n j : nat) :
  (j < n)%nat -> blocks l size n !! j = Some (blockAt l size j).
Proof.
  intros Hj. unfold blocks.
  rewrite list_lookup_fmap, lookup_seq_lt by done. reflexivity.
Qed.

Lemma blocks_S {A} (l : list A) (size n : nat) :
  blocks l size (S n) = blocks l size n ++ [blockAt l size n].
Proof. unfold blocks. rewrite seq_S, map_app. reflexivity. Qed.

Lemma blocks_concat_take {A} (l : list A) (size n : nat) :
  concat (blocks l size n) = take (n * size) l.
Proof.
  induction n as [|n IH].
  - reflexivity.
  - rewrite blocks_S, concat_app, IH. simpl. rewrite app_nil_r.
    unfold blockAt. rewrite take_take_drop. f_equal. lia.
Qed.

Lemma blocks_concat {A} (l : list A) (size n : nat) :
  (length l <= n * size)%nat -> concat (blocks l size n) = l.
Proof. intros H. rewrite blocks_concat_take. by apply take_ge. Qed.

Lemma blockAt_length {A} (l : list A) (size j : nat) :
  length (blockAt l size j) = (size `min` (length l - j * size))%nat.
Proof. unfold blockAt. by rewrite length_take, length_drop. Qed.

Lemma ceil_div_step (a b : Z) :
  0 < b -> JS.ceil_div a b = 1 + JS.ceil_div (a - b) b.
Proof.
  intros Hb. apply ceil_div_unique; [done|].
  pose proof (ceil_div_bounds (a - b) b Hb). nia.
Qed.

Lemma ceil_div_pos (a b : Z) : 0 < b -> 0 < a -> 0 < JS.ceil_div a b.
Proof. intros Hb Ha. pose proof (ceil_div_bounds a b Hb). nia. Qed.

Lemma ceil_div_nonpos (a b : Z) : 0 < b -> a <= 0 -> JS.ceil_div a b <= 0.
Proof. intros Hb Ha. pose proof (ceil_div_bounds a b Hb). nia. Qed.

(** ** The serial port and the packet loop *)

Lemma writes_app (io1 io2 : list Effect) :
  writes (io1 ++ io2) = writes io1 ++ writes io2.
Proof. unfold writes. apply omap_app. Qed.

Section PortFacts.

Variable write_ok : nat -> list Z -> bool.
Hypothesis all_ok : forall n chunk, write_ok n chunk = true.

Lemma writeData_ok (data : list Z) (s : PrinterService.t) :
  writeData write_ok data s = (appendEffect (Write data) s, Resolved tt).
Proof. unfold writeData. by rewrite all_ok. Qed.

Lemma delay_spec (ms : Z) (s : PrinterService.t) :
  exists s',
    delay ms s = (s', Resolved tt)
    /\ writes (PrinterService.io s') = writes (PrinterService.io s)
    /\ PrinterService.protocol s' = PrinterService.protocol s
    /\ PrinterService.config s' = PrinterService.config s.
Proof.
  unfold delay. destruct (0 <? ms).
  - eexists. split; [reflexivity|]. simpl.
    rewrite writes_app. simpl. by rewrite app_nil_r.
  - eexists. split; [reflexivity|]. done.
Qed.

Lemma packetLoop_spec (data : list Z) (fuel : nat) :
  forall (j : nat) (s : PrinterService.t),
    let P := PrinterConfig.packetSize (PrinterService.config s) in
    let left := Z.to_nat (JS.ceil_div (Z.of_nat (length data) - Z.of_nat j * P) P) in
    0 < P ->
    (left <= fuel)%nat ->
    exists s',
      packetLoop write_ok fuel data (Z.of_nat j * P) s = (s', Resolved tt)
      /\ writes (PrinterService.io s')
         = writes (PrinterService.io s)
           ++ map (blockAt data (Z.to_nat P)) (seq j left)
      /\ PrinterService.protocol s' = PrinterService.protocol s
      /\ PrinterService.config s' = PrinterService.config s.
Proof.
  induction fuel as [|fuel IH]; intros j s P left HP Hfuel.
  - assert (Hleft : left = 0%nat) by lia.
    assert (Hdone : Z.of_nat (length data) - Z.of_nat j * P <= 0).
    { destruct (Z.le_gt_cases (Z.of_nat (length data) - Z.of_nat j * P) 0)
        as [?|Hgt]; [done|].
      pose proof (ceil_div_pos _ P HP Hgt). subst left. lia. }
    exists s. simpl. fold P.
    destruct (Z.ltb_spec (Z.of_nat j * P) (Z.of_nat (length data))); [lia|].
    rewrite Hleft. simpl. by rewrite app_nil_r.
  - simpl. fold P.
    destruct (Z.ltb_spec (Z.of_nat j * P) (Z.of_nat (length data)))
      as [Hlt|Hge].
    + unfold await at 1. rewrite writeData_ok.
      unfold await at 1.
      destruct (delay_spec
                  (PrinterConfig.packetDelay (PrinterService.config s))
                  (appendEffect
                     (Write (JS.slice data (Z.of_nat j * P) (Z.of_nat j * P + P)))
                     s))
        as (s1 & -> & Hw1 & Hp1 & Hc1).
      simpl in Hw1, Hp1, Hc1.
      assert (HP1 : PrinterConfig.packetSize (PrinterService.config s1) = P)
        by (by rewrite Hc1).
      assert (Hstep : left
        = S (Z.to_nat (JS.ceil_div
               (Z.of_nat (length data) - Z.of_nat (S j) * P) P))).
      { subst left.
        rewrite (ceil_div_step (Z.of_nat (length data) - Z.of_nat j * P) P HP).
        replace (Z.of_nat (length data) - Z.of_nat j * P - P)
          with (Z.of_nat (length data) - Z.of_nat (S j) * P) by lia.
        pose proof (ceil_div_bounds
          (Z.of_nat (length data) - Z.of_nat (S j) * P) P HP).
        assert (0 <= JS.ceil_div
          (Z.of_nat (length data) - Z.of_nat (S j) * P) P) by nia.
        lia. }
      destruct (IH (S j) s1) as (s2 & Hrun & Hw2 & Hp2 & Hc2).
      { by rewrite HP1. }
      { rewrite HP1. lia. }
      rewrite HP1 in Hrun, Hw2.
      replace (Z.of_nat j * P + P) with (Z.of_nat (S j) * P) by lia.
      exists s2. split; [exact Hrun|]. split.
      * rewrite Hw2, Hw1, writes_app, Hstep. simpl.
        rewrite <- app_assoc. simpl. do 2 f_equal.
        rewrite slice_take_drop by lia.
        unfold blockAt. f_equal; [lia|]. f_equal. nia.
      * split; congruence.
    + assert (Hleft : left = 0%nat).
      { pose proof (ceil_div_nonpos
          (Z.of_nat (length data) - Z.of_nat j * P) P HP). subst left. lia. }
      exists s. rewrite Hleft. simpl. by rewrite app_nil_r.
Qed.

End PortFacts.

(** ** Packetization ([sendDataInPackets]) *)

(** C3.  When every write completes and the packet size is positive,
    [sendDataInPackets] resolves after writing exactly ceil(L / P)
    packets; written in order they concatenate to the message; every
    packet but the last has length P, and the last has length L mod P,
    or P when P divides L. *)
Theorem sendDataInPackets_packetization
    (write_ok : nat -> list Z -> bool) (data : list Z)
    (splitNumber totalSplits : Z) (s : PrinterService.t) :
  (forall n chunk, write_ok n chunk = true) ->
  0 < PrinterConfig.packetSize (PrinterService.config s) ->
  let P := PrinterConfig.packetSize (PrinterService.config s) in
  let L := Z.of_nat (length data) in
  exists s' packets,
    sendDataInPackets write_ok data splitNumber totalSplits s
      = (s', Resolved tt)
    /\ writes (PrinterService.io s') = writes (PrinterService.io s) ++ packets
    /\ Z.of_nat (length packets) = JS.ceil_div L P
    /\ P * (Z.of_nat (length packets) - 1) < L <= P * Z.of_nat (length packets)
    /\ concat packets = data
    /\ forall (j : nat) (p : list Z),
         packets !! j = Some p ->
         ((S j < length packets)%nat -> Z.of_nat (length p) = P)
         /\ ((S j = length packets)%nat ->
             Z.of_nat (length p) = if L mod P =? 0 then P else L mod P).
Proof.
  intros Hok HP P L.
  pose proof (ceil_div_bounds L P HP) as Hceil.
  assert (HL : 0 <= L) by (subst L; lia).
  assert (Hn0 : 0 <= JS.ceil_div L P) by nia.
  assert (HnL : JS.ceil_div L P <= L) by nia.
  destruct (packetLoop_spec write_ok Hok data (length data) 0 s HP)
    as (s' & Hrun & Hw & _ & _).
  { fold P. rewrite Z.mul_0_l, Z.sub_0_r. fold L. subst L. lia. }
  fold P in Hrun, Hw. simpl in Hrun.
  rewrite Z.mul_0_l, Z.sub_0_r in Hw. fold L in Hw.
  set (n := Z.to_nat (JS.ceil_div L P)) in *.
  exists s', (blocks data (Z.to_nat P) n).
  assert (HnZ : Z.of_nat n = JS.ceil_div L P) by (subst n; lia).
  split; [exact Hrun|].
  split; [exact Hw|].
  rewrite blocks_length.
  split; [exact HnZ|].
  split; [rewrite HnZ; exact Hceil|].
  split.
  { apply blocks_concat. subst L. nia. }
  intros j p Hj.
  assert (Hjn : (j < n)%nat).
  { apply lookup_lt_Some in Hj. by rewrite blocks_length in Hj. }
  rewrite blocks_lookup in Hj by done.
  injection Hj as <-.
  rewrite blockAt_length.
  pose proof (Z.div_mod L P ltac:(lia)) as Hdm.
  pose proof (Z.mod_pos_bound L P HP) as Hm.
  rewrite <- HnZ in Hceil.
  assert (Hp : P = Z.of_nat (Z.to_nat P)) by lia.
  revert Hceil Hdm Hm. generalize (L mod P) (L / P). intros r q.
  subst L. revert HP. rewrite Hp. generalize (Z.to_nat P). clear.
  intros p HP Hceil Hdm Hm. rewrite Nat2Z.id.
  split; intros Hlast.
  - assert (Z.of_nat p * Z.of_nat (S j) <= Z.of_nat p * (Z.of_nat n - 1))
      by (apply Z.mul_le_mono_nonneg_l; lia).
    nia.
  - subst n.
    destruct (Z.eqb_spec r 0) as [H0|H0].
    + assert (q = Z.of_nat (S j)) by nia. nia.
    + assert (q = Z.of_nat j) by nia. nia.
Qed.

Lemma sendDataInPackets_packetization_witness :
  exists s' packets,
    sendDataInPackets (fun _ _ => true) [1; 2; 3; 4; 5] 1 1
      (newPrinterService (PrinterConfig.mk 2 0 0)
         (getPrinterProtocol (IMAGE_DIMENSIONS 203)))
      = (s', Resolved tt)
    /\ writes (PrinterService.io s') = packets
    /\ concat packets = [1; 2; 3; 4; 5].
Proof.
  destruct (sendDataInPackets_packetization (fun _ _ => true)
              [1; 2; 3; 4; 5] 1 1
              (newPrinterService (PrinterConfig.mk 2 0 0)
                 (getPrinterProtocol (IMAGE_DIMENSIONS 203))))
    as (s' & packets & Hrun & Hw & _ & _ & Hcat & _).
  - reflexivity.
  - simpl. lia.
  - exists s', packets. auto.
Defined.

(** ** The send sequence ([sendImageSplit], [sendImageData]) *)

Lemma postfix_constant (d1 d2 : ImageDimensions.t) :
  PrinterProtocol.postfix (getPrinterProtocol d1)
  = PrinterProtocol.postfix (getPrinterProtocol d2).
Proof. reflexivity. Qed.

Section SendFacts.

Variable write_ok : nat -> list Z -> bool.
Hypothesis all_ok : forall n chunk, write_ok n chunk = true.

Lemma sendDataInPackets_resolves (data : list Z) (a b : Z)
    (s : PrinterService.t) :
  0 < PrinterConfig.packetSize (PrinterService.config s) ->
  exists s',
    sendDataInPackets write_ok data a b s = (s', Resolved tt)
    /\ PrinterService.protocol s' = PrinterService.protocol s
    /\ PrinterService.config s' = PrinterService.config s.
Proof.
  intros HP.
  pose proof (ceil_div_bounds (Z.of_nat (length data)) _ HP) as Hceil.
  destruct (packetLoop_spec write_ok all_ok data (length data) 0 s HP)
    as (s' & Hrun & _ & Hp & Hc).
  { rewrite Z.mul_0_l, Z.sub_0_r.
    assert (JS.ceil_div (Z.of_nat (length data))
              (PrinterConfig.packetSize (PrinterService.config s))
            <= Z.of_nat (length data)) by nia.
    lia. }
  exists s'. simpl in Hrun. auto.
Qed.

Lemma sendImageSplit_resolves (split : ImageSplit.t) (s : PrinterService.t) :
  0 < PrinterConfig.packetSize (PrinterService.config s) ->
  exists s',
    sendImageSplit write_ok split s = (s', Resolved tt)
    /\ PrinterService.protocol s'
       = getPrinterProtocol (ImageSplit.dimensions split)
    /\ PrinterService.config s' = PrinterService.config s.
Proof.
  intros HP. unfold sendImageSplit.
  destruct (sendDataInPackets_resolves
              (PrinterProtocol.prefix
                 (PrinterService.protocol
                    (setProtocol
                       (getPrinterProtocol (ImageSplit.dimensions split)) s))
               ++ ImageSplit.data split)
              (ImageSplit.splitIndex split + 1)
              (ImageSplit.totalSplits split)
              (setProtocol (getPrinterProtocol (ImageSplit.dimensions split)) s)
              HP)
    as (s' & Hrun & Hp & Hc).
  exists s'. auto.
Qed.

Lemma sendSplits_resolves (imageSplits : list ImageSplit.t) :
  forall s : PrinterService.t,
    0 < PrinterConfig.packetSize (PrinterService.config s) ->
    exists s',
      sendSplits write_ok imageSplits s = (s', Resolved tt)
      /\ PrinterService.config s' = PrinterService.config s
      /\ (PrinterService.protocol s' = PrinterService.protocol s
          \/ exists d, PrinterService.protocol s' = getPrinterProtocol d).
Proof.
  induction imageSplits as [|split rest IH]; intros s HP.
  - exists s. simpl. auto.
  - simpl. unfold await.
    destruct (sendImageSplit_resolves split s HP) as (s1 & -> & Hp1 & Hc1).
    destruct (IH s1) as (s2 & Hrun & Hc2 & Hp2); [by rewrite Hc1|].
    exists s2. split; [exact Hrun|]. split; [congruence|].
    right. destruct Hp2 as [Hsame|[d Hd]].
    + exists (ImageSplit.dimensions split). congruence.
    + by exists d.
Qed.

Lemma sendImageData_resolves (imageData : list Z) (dims d0 : ImageDimensions.t)
    (s : PrinterService.t) :
  0 < PrinterConfig.packetSize (PrinterService.config s) ->
  PrinterService.protocol s = getPrinterProtocol d0 ->
  exists s' s1,
    sendImageData write_ok imageData dims s = (s', Resolved tt)
    /\ writes (PrinterService.io s')
       = writes (PrinterService.io s1)
         ++ [PrinterProtocol.postfix (getPrinterProtocol d0)].
Proof.
  intros HP Hinit. unfold sendImageData, await.
  destruct (sendSplits_resolves (calculateImageSplits imageData dims) s HP)
    as (s1 & -> & Hc1 & Hp1).
  rewrite writeData_ok by exact all_ok.
  exists (appendEffect
            (Write (PrinterProtocol.postfix (PrinterService.protocol s1))) s1),
         s1.
  split; [reflexivity|].
  simpl. rewrite writes_app. simpl. do 2 f_equal.
  destruct Hp1 as [Hsame|[d Hd]].
  - by rewrite Hsame, Hinit.
  - by rewrite Hd.
Qed.

End SendFacts.

(** C10.  The firmware request and the postfix of [getPrinterProtocol]
    do not depend on the dimensions.  Hence, for a service whose protocol
    field was built by [getPrinterProtocol], when every write completes
    and the packet size is positive, [sendImageData] resolves and the
    last write it performs is that one postfix, however many splits
    recomputed the protocol field before. *)
Theorem postfix_independent_of_splits (d1 d2 : ImageDimensions.t) :
  PrinterProtocol.firmwareRequest (getPrinterProtocol d1)
  = PrinterProtocol.firmwareRequest (getPrinterProtocol d2)
  /\ PrinterProtocol.postfix (getPrinterProtocol d1)
     = PrinterProtocol.postfix (getPrinterProtocol d2)
  /\ forall (write_ok : nat -> list Z -> bool) (imageData : list Z)
       (dims d0 : ImageDimensions.t) (s : PrinterService.t),
       (forall n chunk, write_ok n chunk = true) ->
       0 < PrinterConfig.packetSize (PrinterService.config s) ->
       PrinterService.protocol s = getPrinterProtocol d0 ->
       exists s',
         sendImageData write_ok imageData dims s = (s', Resolved tt)
         /\ last (writes (PrinterService.io s'))
            = Some (PrinterProtocol.postfix (getPrinterProtocol d1))
         /\ PrinterProtocol.postfix (getPrinterProtocol d1)
            = [0x1B; 0x4A; 0x40; 0x10; 0xFF; 0xFE; 0x45].
Proof.
  split; [reflexivity|]. split; [reflexivity|].
  intros write_ok imageData dims d0 s Hok HP Hinit.
  destruct (sendImageData_resolves write_ok Hok imageData dims d0 s HP Hinit)
    as (s' & s1 & Hrun & Hw).
  exists s'. split; [exact Hrun|]. split; [|reflexivity].
  rewrite Hw, last_snoc. reflexivity.
Qed.

Lemma postfix_independent_of_splits_witness :
  exists s',
    sendImageData (fun _ _ => true) (repeat 0 600)
      {| ImageDimensions.width := 300;
         ImageDimensions.height := 2;
         ImageDimensions.dpi := 203 |}
      (newPrinterService (PrinterConfig.mk 122 2000 0)
         (getPrinterProtocol (IMAGE_DIMENSIONS 203)))
    = (s', Resolved tt)
    /\ last (writes (PrinterService.io s'))
       = Some [0x1B; 0x4A; 0x40; 0x10; 0xFF; 0xFE; 0x45].
Proof.
  destruct (proj2 (proj2 (postfix_independent_of_splits
                            (IMAGE_DIMENSIONS 203) (IMAGE_DIMENSIONS 96)))
              (fun _ _ => true) (repeat 0 600)
              {| ImageDimensions.width := 300;
                 ImageDimensions.height := 2;
                 ImageDimensions.dpi := 203 |}
              (IMAGE_DIMENSIONS 203)
              (newPrinterService (PrinterConfig.mk 122 2000 0)
                 (getPrinterProtocol (IMAGE_DIMENSIONS 203))))
    as (s' & Hrun & Hlast & _).
  - reflexivity.
  - simpl. lia.
  - reflexivity.
  - exists s'. split; [exact Hrun | exact Hlast].
Defined.

(** ** Splitting ([calculateImageSplits]) *)

Section SplitFacts.

Variable imageData : list Z.
Variables w h dpi splits : Z.

Lemma splitLoop_spec (fuel : nat) :
  forall (splitIndex : Z) (acc : list ImageSplit.t),
    splitIndex + Z.of_nat fuel <= splits ->
    splitLoop imageData w h dpi splits fuel splitIndex acc
    = acc ++ map (fun k => imageSplitAt imageData w h dpi splits
                             (splitIndex + Z.of_nat k))
                 (seq 0 fuel).
Proof.
  induction fuel as [|fuel IH]; intros splitIndex acc Hfuel.
  - simpl. by rewrite app_nil_r.
  - cbn [splitLoop].
    destruct (Z.ltb_spec splitIndex splits); [|lia].
    rewrite IH by lia.
    rewrite <- app_assoc. f_equal.
    cbn [seq map app]. rewrite Z.add_0_r. f_equal.
    rewrite <- seq_shift, map_map.
    apply map_ext. intros k. f_equal. lia.
Qed.

Hypothesis data_length : Z.of_nat (length imageData) = w * h.
Hypothesis h_nonneg : 0 <= h.

Lemma imageSplitAt_data (k : nat) :
  Z.of_nat k * 255 < w ->
  let cw := Z.min 255 (w - Z.of_nat k * 255) in
  ImageSplit.data (imageSplitAt imageData w h dpi splits (Z.of_nat k))
  = take (Z.to_nat (cw * h)) (drop (Z.to_nat (Z.of_nat k * 255 * h)) imageData).
Proof.
  intros Hk cw. unfold imageSplitAt, MAX_PRINTER_WIDTH, JS.min. simpl.
  fold cw.
  rewrite slice_take_drop by nia.
  f_equal. f_equal. lia.
Qed.

Lemma imageSplitAt_block (k : nat) :
  Z.of_nat k * 255 < w ->
  ImageSplit.data (imageSplitAt imageData w h dpi splits (Z.of_nat k))
  = blockAt imageData (Z.to_nat (255 * h)) k.
Proof.
  intros Hk. rewrite imageSplitAt_data by done.
  unfold blockAt.
  replace (Z.to_nat (Z.of_nat k * 255 * h)) with (k * Z.to_nat (255 * h))%nat
    by nia.
  destruct (Z.le_gt_cases 255 (w - Z.of_nat k * 255)) as [Hfull|Hlast].
  - by rewrite Z.min_l by done.
  - rewrite Z.min_r by lia.
    rewrite !take_ge; [done| |]; rewrite length_drop; nia.
Qed.

Lemma imageSplitAt_data_length (k : nat) :
  Z.of_nat k * 255 < w ->
  Z.of_nat (length
    (ImageSplit.data (imageSplitAt imageData w h dpi splits (Z.of_nat k))))
  = Z.min 255 (w - Z.of_nat k * 255) * h.
Proof.
  intros Hk. rewrite imageSplitAt_data by done.
  rewrite length_take, length_drop.
  destruct (Z.le_gt_cases 255 (w - Z.of_nat k * 255)) as [Hfull|Hlast].
  - rewrite Z.min_l by done. nia.
  - rewrite Z.min_r by lia. nia.
Qed.

End SplitFacts.

Lemma Zsum_snoc (l : list Z) (a : Z) : Zsum (l ++ [a]) = Zsum l + a.
Proof.
  unfold Zsum. induction l as [|x l IH]; simpl; [lia|]. rewrite IH. lia.
Qed.

Lemma split_widths_sum (w : Z) (m : nat) :
  0 <= w ->
  255 * (Z.of_nat m - 1) < w ->
  Zsum (map (fun k => Z.min 255 (w - Z.of_nat k * 255)) (seq 0 m))
  = Z.min (255 * Z.of_nat m) w.
Proof.
  intros Hw. induction m as [|m IH]; intros Hm.
  - simpl. lia.
  - rewrite seq_S, map_app. simpl. rewrite Zsum_snoc, IH by lia. lia.
Qed.

Lemma calculateImageSplits_unfold (imageData : list Z) (d : ImageDimensions.t) :
  0 <= ImageDimensions.width d ->
  calculateImageSplits imageData d
  = map (fun k =>
           imageSplitAt imageData (ImageDimensions.width d)
             (ImageDimensions.height d) (ImageDimensions.dpi d)
             (JS.ceil_div (ImageDimensions.width d) MAX_PRINTER_WIDTH)
             (Z.of_nat k))
        (seq 0 (Z.to_nat (JS.ceil_div (ImageDimensions.width d)
                            MAX_PRINTER_WIDTH))).
Proof.
  intros Hw. unfold calculateImageSplits.
  pose proof (ceil_div_bounds (ImageDimensions.width d) MAX_PRINTER_WIDTH
                ltac:(unfold MAX_PRINTER_WIDTH; lia)) as Hceil.
  rewrite splitLoop_spec by (unfold MAX_PRINTER_WIDTH in *; lia).
  reflexivity.
Qed.

(** C1.  For a packed image of [width * height] bytes with
    [width > 255], [calculateImageSplits] yields ceil(width / 255)
    splits; their widths sum to [width]; their data, concatenated in
    index order, is the packed image; and split [i] holds the
    [min(255, width - i * 255) * height] bytes that start at position
    [i * 255 * height]. *)
Theorem calculateImageSplits_correct
    (imageData : list Z) (d : ImageDimensions.t) :
  let w := ImageDimensions.width d in
  let h := ImageDimensions.height d in
  255 < w ->
  Z.of_nat (length imageData) = w * h ->
  let imageSplits := calculateImageSplits imageData d in
  let n := Z.of_nat (length imageSplits) in
  n = JS.ceil_div w 255
  /\ 255 * (n - 1) < w <= 255 * n
  /\ Zsum (map (fun s => ImageDimensions.width (ImageSplit.dimensions s))
             imageSplits) = w
  /\ concat (map ImageSplit.data imageSplits) = imageData
  /\ forall (i : nat) (s : ImageSplit.t),
       imageSplits !! i = Some s ->
       let startPos := Z.of_nat i * 255 * h in
       let currentWidth := Z.min 255 (w - Z.of_nat i * 255) in
       ImageSplit.data s
         = take (Z.to_nat (currentWidth * h)) (drop (Z.to_nat startPos) imageData)
       /\ Z.of_nat (length (ImageSplit.data s)) = currentWidth * h
       /\ ImageSplit.dimensions s
          = {| ImageDimensions.width := currentWidth;
               ImageDimensions.height := h;
               ImageDimensions.dpi := ImageDimensions.dpi d |}
       /\ ImageSplit.splitIndex s = Z.of_nat i
       /\ ImageSplit.totalSplits s = n.
Proof.
  intros w h Hw Hlen imageSplits n.
  assert (Hh : 0 <= h) by nia.
  pose proof (ceil_div_bounds w 255 ltac:(lia)) as Hceil.
  assert (Hsplits : imageSplits
    = map (fun k => imageSplitAt imageData w h (ImageDimensions.dpi d)
                      (JS.ceil_div w 255) (Z.of_nat k))
          (seq 0 (Z.to_nat (JS.ceil_div w 255)))).
  { subst imageSplits. rewrite calculateImageSplits_unfold by (fold w; lia).
    reflexivity. }
  assert (Hn : n = JS.ceil_div w 255).
  { subst n. rewrite Hsplits, length_map, length_seq. lia. }
  split; [exact Hn|].
  split; [rewrite Hn; exact Hceil|].
  split; [|split].
  - rewrite Hsplits, map_map. simpl.
    unfold MAX_PRINTER_WIDTH, JS.min.
    rewrite split_widths_sum by lia. lia.
  - rewrite Hsplits, map_map.
    rewrite (map_ext_in _ (blockAt imageData (Z.to_nat (255 * h)))).
    + apply (blocks_concat imageData (Z.to_nat (255 * h))). nia.
    + intros k Hk. apply in_seq in Hk.
      apply imageSplitAt_block; [done|done|nia].
  - intros i s Hi startPos currentWidth.
    rewrite Hsplits in Hi.
    rewrite list_lookup_fmap in Hi.
    destruct (seq 0 (Z.to_nat (JS.ceil_div w 255)) !! i) as [k|] eqn:Hk;
      [|discriminate].
    apply lookup_seq in Hk as [-> Hin]. simpl in Hi.
    injection Hi as <-.
    assert (Hlt : Z.of_nat i * 255 < w) by nia.
    split; [by apply imageSplitAt_data|].
    split; [by apply imageSplitAt_data_length|].
    split; [reflexivity|]. split; [reflexivity|].
    simpl. lia.
Qed.

Lemma calculateImageSplits_correct_witness :
  concat (map ImageSplit.data
            (calculateImageSplits (repeat 1 300 ++ repeat 2 300)
               {| ImageDimensions.width := 300;
                  ImageDimensions.height := 2;
                  ImageDimensions.dpi := 203 |}))
  = repeat 1 300 ++ repeat 2 300.
Proof.
  refine (proj1 (proj2 (proj2 (proj2
    (calculateImageSplits_correct (repeat 1 300 ++ repeat 2 300)
       {| ImageDimensions.width := 300;
          ImageDimensions.height := 2;
          ImageDimensions.dpi := 203 |} _ _))))).
  - simpl. lia.
  - reflexivity.
Defined.

(** An image 384 columns wide with 25 bytes per column is sent in two
    splits, 255 and 129 columns wide. *)
Example calculateImageSplits_384 :
  map (fun s => (ImageDimensions.width (ImageSplit.dimensions s),
                 Z.of_nat (length (ImageSplit.data s))))
      (calculateImageSplits (repeat 0 (Z.to_nat 9600))
         {| ImageDimensions.width := 384;
            ImageDimensions.height := 25;
            ImageDimensions.dpi := 203 |})
  = [(255, 6375); (129, 3225)].
Proof. vm_compute. reflexivity. Qed.

(** ** Packing ([bitArrayToByte], [canvasToImageData]) *)

Lemma pixelBit_notWhite (stride : Z) (pixels : list Z) (x y : Z) :
  pixelBit stride pixels x y = Z.b2z (notWhite stride pixels x y).
Proof.
  unfold pixelBit, notWhite, IMAGE_CONFIG.WHITE_PIXEL_VALUE.
  destruct (JS.get pixels (y * stride + x * 4)) as [v|]; [|reflexivity].
  by destruct (v =? 255).
Qed.

Lemma shl_1_pow2 (k : Z) : 0 <= k < 31 -> JS.shl 1 k = 2 ^ k.
Proof.
  intros Hk. unfold JS.shl.
  rewrite (toInt32_small 1) by lia.
  rewrite Z.mod_small by lia.
  rewrite Z.shiftl_1_l.
  apply toInt32_small.
  assert (2 ^ k < 2 ^ 31) by (apply Z.pow_lt_mono_r; lia).
  assert (0 < 2 ^ k) by (apply Z.pow_pos_nonneg; lia).
  lia.
Qed.

(** Setting a bit above all bits of [v] adds its weight. *)
Lemma bor_pow2_add (v k : Z) :
  0 <= k < 31 -> 0 <= v < 2 ^ k -> JS.bor v (2 ^ k) = v + 2 ^ k.
Proof.
  intros Hk Hv.
  assert (Hlt : 2 ^ k < 2 ^ 31) by (apply Z.pow_lt_mono_r; lia).
  assert (Hle : 2 * 2 ^ k <= 2 ^ 31).
  { rewrite <- Z.pow_succ_r by lia. apply Z.pow_le_mono_r; lia. }
  unfold JS.bor.
  rewrite (toInt32_small v), (toInt32_small (2 ^ k)) by lia.
  assert (Hland : Z.land v (2 ^ k) = 0).
  { apply Z.bits_inj'. intros n Hn.
    rewrite Z.land_spec, Z.bits_0, Z.pow2_bits_eqb by lia.
    destruct (Z.eqb_spec k n) as [<-|_]; [|apply andb_false_r].
    rewrite andb_true_r.
    destruct (Z.eq_dec v 0) as [->|Hv0]; [apply Z.bits_0|].
    apply Z.bits_above_log2; [lia|].
    apply Z.log2_lt_pow2; lia. }
  rewrite <- Z.lxor_lor, <- Z.add_nocarry_lxor by exact Hland.
  apply toInt32_small. lia.
Qed.

(** The reduction of [bitArrayToByte], started at index [k] with a
    value below [2 ^ k], adds the bits at the weights [2 ^ k] and up. *)
Lemma reduce_from_bits (bits : list bool) :
  forall k v : Z,
    0 <= k -> k + Z.of_nat (length bits) <= 31 -> 0 <= v < 2 ^ k ->
    JS.reduce_from
      (fun value bit index =>
         if bit =? 1 then JS.bor value (JS.shl 1 index) else value)
      (map Z.b2z bits) k v
    = v + 2 ^ k * bitsValue bits.
Proof.
  induction bits as [|b rest IH]; intros k v Hk Hlen Hv.
  - simpl. lia.
  - cbn [map JS.reduce_from bitsValue length] in *.
    assert (Hpow : 2 ^ (k + 1) = 2 * 2 ^ k)
      by (rewrite Z.pow_add_r by lia; lia).
    assert (Hstep : (if Z.b2z b =? 1 then JS.bor v (JS.shl 1 k) else v)
                    = v + 2 ^ k * Z.b2z b).
    { destruct b; simpl Z.b2z; simpl Z.eqb.
      - rewrite shl_1_pow2, bor_pow2_add by lia. ring.
      - ring. }
    rewrite Hstep, IH, Hpow; [ring | lia | lia |].
    rewrite Hpow. destruct b; simpl Z.b2z; lia.
Qed.

Lemma bitArrayToByte_bitsValue (bits : list bool) :
  (length bits <= 31)%nat ->
  bitArrayToByte (map Z.b2z bits) = bitsValue bits.
Proof.
  intros Hlen. unfold bitArrayToByte, JS.reduce.
  rewrite reduce_from_bits by (simpl; lia).
  simpl. by destruct (bitsValue bits).
Qed.

(** Bit [i] of the value is the bit at index [i]. *)
Lemma bitsValue_testbit (bits : list bool) :
  forall i : nat, Z.testbit (bitsValue bits) (Z.of_nat i) = nth i bits false.
Proof.
  induction bits as [|b rest IH]; intros i.
  - simpl. rewrite Z.bits_0. by destruct i.
  - cbn [bitsValue]. rewrite Z.add_comm.
    destruct i as [|i].
    + simpl Z.of_nat. apply Z.testbit_0_r.
    + rewrite Nat2Z.inj_succ, Z.testbit_succ_r by lia. apply IH.
Qed.

Lemma columnByte_testbit (stride : Z) (pixels : list Z) (x y0 i : Z) :
  0 <= i < 8 ->
  Z.testbit (columnByte stride pixels x y0) i
  = notWhite stride pixels x (y0 + i).
Proof.
  intros Hi. unfold columnByte.
  rewrite (map_ext _ (fun j => Z.b2z (notWhite stride pixels x (y0 + j))))
    by (intros j; apply pixelBit_notWhite).
  rewrite <- (map_map (fun j => notWhite stride pixels x (y0 + j)) Z.b2z).
  rewrite bitArrayToByte_bitsValue by (simpl; lia).
  rewrite <- (Z2Nat.id i) at 1 by lia.
  rewrite bitsValue_testbit.
  assert (Hcases : i = 0 \/ i = 1 \/ i = 2 \/ i = 3 \/ i = 4 \/ i = 5
                   \/ i = 6 \/ i = 7) by lia.
  destruct Hcases as [->|[->|[->|[->|[->|[->|[->| ->]]]]]]]; reflexivity.
Qed.

Section PackingFacts.

Variable stride : Z.
Variable pixels : list Z.

(** Fewer than eight bits in all: nothing is emitted. *)
Lemma columnLoop_short (x : Z) (n : nat) :
  forall bitChunk imageData : list Z,
    (n + length bitChunk < 8)%nat ->
    snd (columnLoop stride pixels n x bitChunk imageData) = imageData.
Proof.
  induction n as [|n IH]; intros bitChunk imageData Hlen; [reflexivity|].
  cbn [columnLoop].
  destruct (Z.eqb_spec (Z.of_nat (length (pixelBit stride pixels x (Z.of_nat n)
                                            :: bitChunk)))
              IMAGE_CONFIG.BITS_PER_BYTE) as [Heq|_].
  - unfold IMAGE_CONFIG.BITS_PER_BYTE in Heq. simpl in Heq. lia.
  - apply IH. simpl. lia.
Qed.

(** Eight rows from an empty chunk emit one byte: the one of the rows
    [m .. m + 7]. *)
Lemma columnLoop_eight (x : Z) (m : nat) (imageData : list Z) :
  columnLoop stride pixels (8 + m) x [] imageData
  = columnLoop stride pixels m x []
      (imageData ++ [columnByte stride pixels x (Z.of_nat m)]).
Proof.
  unfold columnByte.
  cbn [columnLoop Nat.add length Z.of_nat Pos.of_succ_nat Pos.succ Z.eqb
       Pos.eqb IMAGE_CONFIG.BITS_PER_BYTE map].
  repeat f_equal; lia.
Qed.

Lemma columnLoop_groups (x : Z) (r q : nat) :
  forall imageData : list Z,
    (r < 8)%nat ->
    snd (columnLoop stride pixels (8 * q + r) x [] imageData)
    = imageData
      ++ map (fun g => columnByte stride pixels x
                         (Z.of_nat (8 * (q - 1 - g) + r)))
             (seq 0 q).
Proof.
  induction q as [|q IH]; intros imageData Hr.
  - simpl. rewrite columnLoop_short by (simpl; lia). by rewrite app_nil_r.
  - replace (8 * S q + r)%nat with (8 + (8 * q + r))%nat by lia.
    rewrite columnLoop_eight, IH by done.
    rewrite <- app_assoc. f_equal.
    cbn [seq map app]. f_equal; [f_equal; f_equal; lia|].
    rewrite <- seq_shift, map_map.
    apply map_ext. intros g. do 2 f_equal. lia.
Qed.

Lemma columnLoop_packedColumn (x : Z) (H : nat) (imageData : list Z) :
  snd (columnLoop stride pixels H x [] imageData)
  = imageData ++ packedColumn stride pixels (Z.of_nat H) x.
Proof.
  pose proof (Nat.div_mod_eq H 8) as Hdm.
  pose proof (Nat.mod_upper_bound H 8 ltac:(lia)) as Hr.
  rewrite Hdm at 1.
  rewrite columnLoop_groups by done.
  f_equal. unfold packedColumn.
  assert (Hq : Z.to_nat (Z.of_nat H / 8) = (H / 8)%nat).
  { rewrite <- (Nat2Z.id (H / 8)). f_equal.
    rewrite Nat2Z.inj_div. reflexivity. }
  rewrite Hq.
  apply map_ext_in. intros g Hg. apply in_seq in Hg.
  f_equal. lia.
Qed.

Variable config : CanvasConfig.t.

Lemma rowLoop_columns (fuel : nat) :
  forall (x : Z) (imageData : list Z),
    x + Z.of_nat fuel <= CanvasConfig.width config ->
    0 <= CanvasConfig.height config ->
    rowLoop stride pixels config fuel x imageData
    = imageData
      ++ concat (map (fun k => packedColumn stride pixels
                                 (CanvasConfig.height config)
                                 (x + Z.of_nat k))
                     (seq 0 fuel)).
Proof.
  induction fuel as [|fuel IH]; intros x imageData Hfuel Hh.
  - simpl. by rewrite app_nil_r.
  - cbn [rowLoop].
    destruct (Z.ltb_spec x (CanvasConfig.width config)); [|lia].
    rewrite columnLoop_packedColumn, IH by lia.
    rewrite Z2Nat.id by done.
    rewrite <- app_assoc. f_equal.
    cbn [seq map concat]. rewrite Z.add_0_r. f_equal.
    rewrite <- seq_shift, map_map. f_equal.
    apply map_ext. intros k. f_equal. lia.
Qed.

Lemma canvasToImageData_columns :
  0 <= CanvasConfig.height config ->
  canvasToImageData stride pixels config
  = concat (map (fun k => packedColumn stride pixels
                            (CanvasConfig.height config) (Z.of_nat k))
                (seq 0 (Z.to_nat (CanvasConfig.width config)))).
Proof.
  intros Hh. unfold canvasToImageData.
  destruct (Z.le_gt_cases 0 (CanvasConfig.width config)) as [Hw|Hw].
  - rewrite rowLoop_columns by lia. reflexivity.
  - replace (Z.to_nat (CanvasConfig.width config)) with 0%nat by lia.
    reflexivity.
Qed.

Lemma packedColumn_length (h x : Z) :
  length (packedColumn stride pixels h x) = Z.to_nat (h / 8).
Proof. unfold packedColumn. by rewrite length_map, length_seq. Qed.

End PackingFacts.

Lemma concat_length_uniform {A} (n : nat) (ls : list (list A)) :
  Forall (fun l => length l = n) ls ->
  length (concat ls) = (length ls * n)%nat.
Proof.
  induction 1 as [|l ls Hl _ IH]; [reflexivity|].
  simpl. rewrite length_app, IH, Hl. reflexivity.
Qed.

Lemma concat_lookup_uniform {A} (n : nat) (ls : list (list A)) :
  Forall (fun l => length l = n) ls ->
  forall (j i : nat) (l : list A) (a : A),
    ls !! j = Some l -> l !! i = Some a ->
    concat ls !! (j * n + i)%nat = Some a.
Proof.
  induction 1 as [|l0 ls Hl0 _ IH]; intros j i l a Hj Hi; [done|].
  destruct j as [|j]; simpl in *.
  - injection Hj as ->. by apply lookup_app_l_Some.
  - rewrite lookup_app_r by lia.
    replace (n + j * n + i - length l0)%nat with (j * n + i)%nat by lia.
    by apply (IH j i l a).
Qed.

Lemma packedColumns_uniform (stride : Z) (pixels : list Z) (h : Z)
    (ks : list nat) :
  Forall (fun l => length l = Z.to_nat (h / 8))
    (map (fun k => packedColumn stride pixels h (Z.of_nat k)) ks).
Proof.
  induction ks as [|k ks IH]; simpl; constructor; [|exact IH].
  apply packedColumn_length.
Qed.

(** C7.  When the height is not a multiple of 8, every column
    contributes floor(height / 8) bytes, one per complete group of eight
    rows counted from the bottom; the rows left over at the top are not
    packed and nothing is padded, so the output has
    width * floor(height / 8) bytes. *)
Theorem canvasToImageData_drops_partial_byte
    (stride : Z) (pixels : list Z) (config : CanvasConfig.t) :
  let w := CanvasConfig.width config in
  let h := CanvasConfig.height config in
  0 <= w -> 0 <= h -> h mod 8 <> 0 ->
  let columns :=
    map (fun k => packedColumn stride pixels h (Z.of_nat k))
        (seq 0 (Z.to_nat w)) in
  canvasToImageData stride pixels config = concat columns
  /\ Z.of_nat (length columns) = w
  /\ Forall (fun column => Z.of_nat (length column) = h / 8) columns
  /\ Z.of_nat (length (canvasToImageData stride pixels config)) = w * (h / 8)
  /\ 8 * (h / 8) < h.
Proof.
  intros w h Hw Hh Hmod columns.
  assert (Hq : 0 <= h / 8) by (apply Z.div_pos; lia).
  assert (Hcols : Forall (fun l => length l = Z.to_nat (h / 8)) columns).
  { subst columns. apply packedColumns_uniform. }
  assert (Hout : canvasToImageData stride pixels config = concat columns)
    by (by apply canvasToImageData_columns).
  assert (Hn : length columns = Z.to_nat w)
    by (subst columns; by rewrite length_map, length_seq).
  split; [exact Hout|].
  split; [lia|].
  split.
  { eapply Forall_impl; [exact Hcols|]. intros l Hl. simpl in Hl. lia. }
  split.
  { rewrite Hout, (concat_length_uniform _ _ Hcols), Hn. nia. }
  pose proof (Z.div_mod h 8 ltac:(lia)).
  pose proof (Z.mod_pos_bound h 8 ltac:(lia)). lia.
Qed.

Lemma canvasToImageData_drops_partial_byte_witness :
  Z.of_nat (length (canvasToImageData 4 bottom_black_pixels
                      {| CanvasConfig.width := 1;
                         CanvasConfig.height := 7;
                         CanvasConfig.scaleFactor := 1;
                         CanvasConfig.adjustedFontSize := 12 |}))
  = 1 * (7 / 8).
Proof.
  refine (proj1 (proj2 (proj2 (proj2
    (canvasToImageData_drops_partial_byte 4 bottom_black_pixels
       {| CanvasConfig.width := 1;
          CanvasConfig.height := 7;
          CanvasConfig.scaleFactor := 1;
          CanvasConfig.adjustedFontSize := 12 |} _ _ _))))).
  - simpl. lia.
  - simpl. lia.
  - simpl. discriminate.
Defined.

Lemma canvasToImageData_lookup
    (stride : Z) (pixels : list Z) (config : CanvasConfig.t) (x g : Z) :
  let w := CanvasConfig.width config in
  let h := CanvasConfig.height config in
  0 <= h -> 0 <= x < w -> 0 <= g < h / 8 ->
  canvasToImageData stride pixels config !! Z.to_nat (x * (h / 8) + g)
  = Some (columnByte stride pixels x (h - 8 * (g + 1))).
Proof.
  intros w h Hh Hx Hg.
  rewrite canvasToImageData_columns by done. fold w h.
  replace (Z.to_nat (x * (h / 8) + g))
    with (Z.to_nat x * Z.to_nat (h / 8) + Z.to_nat g)%nat by nia.
  apply concat_lookup_uniform
    with (l := packedColumn stride pixels h x).
  - apply packedColumns_uniform.
  - rewrite list_lookup_fmap, lookup_seq_lt by lia. simpl.
    by rewrite Z2Nat.id by lia.
  - unfold packedColumn.
    rewrite list_lookup_fmap, lookup_seq_lt by lia. simpl.
    by rewrite Z2Nat.id by lia.
Qed.

(** The packer on the one-by-eight surface with a black bottom row: the
    single byte has bit 7 set, not bit 0. *)
Example canvasToImageData_bottom_black :
  canvasToImageData 4 bottom_black_pixels one_by_eight = [128].
Proof. reflexivity. Qed.

(** C2, as stated, fails: on the surface whose only black pixel is the
    bottom one, the first pixel visited is black but bit 0 of the byte
    is clear. *)
Lemma bit0_is_first_visited_fails : ~ bit0_is_first_visited.
Proof.
  intros Hclaim.
  assert (Hq : CanvasConfig.height one_by_eight / 8 = 1) by reflexivity.
  destruct (Hclaim 4 bottom_black_pixels one_by_eight 0 0 0)
    as (b & Hb & Hbit).
  - simpl. lia.
  - reflexivity.
  - simpl. lia.
  - rewrite Hq. lia.
  - lia.
  - rewrite canvasToImageData_bottom_black in Hb.
    injection Hb as <-. discriminate Hbit.
Qed.

(** C2, amended.  The packer walks column by column and, inside a
    column, from the bottom row up; every eight pixels visited in a row
    make one byte, in visiting order.  In the byte of group [g] of
    column [x], bit 7 is the first pixel visited and bit 0 the last: bit
    [i] is set iff the [(7 - i)]-th pixel visited in the group is not
    white. *)
Theorem canvasToImageData_bit_order
    (stride : Z) (pixels : list Z) (config : CanvasConfig.t) (x g i : Z) :
  let w := CanvasConfig.width config in
  let h := CanvasConfig.height config in
  0 <= h -> h mod 8 = 0 ->
  0 <= x < w -> 0 <= g < h / 8 -> 0 <= i < 8 ->
  exists b,
    canvasToImageData stride pixels config !! Z.to_nat (x * (h / 8) + g)
      = Some b
    /\ Z.testbit b i
       = notWhite stride pixels x (visitedRow h (8 * g + (7 - i))).
Proof.
  intros w h Hh Hmod Hx Hg Hi.
  exists (columnByte stride pixels x (h - 8 * (g + 1))).
  split; [by apply canvasToImageData_lookup|].
  rewrite columnByte_testbit by done.
  unfold visitedRow. f_equal. lia.
Qed.

Lemma canvasToImageData_bit_order_witness :
  exists b,
    canvasToImageData 4 bottom_black_pixels one_by_eight !! 0%nat = Some b
    /\ Z.testbit b 7 = notWhite 4 bottom_black_pixels 0 7.
Proof.
  refine (canvasToImageData_bit_order 4 bottom_black_pixels one_by_eight
            0 0 7 _ _ _ _ _).
  - simpl. lia.
  - reflexivity.
  - simpl. lia.
  - change (CanvasConfig.height one_by_eight / 8) with 1. lia.
  - lia.
Defined.

(** ** Variable substitution ([processVariables]) *)

Lemma replace_skip_absent (pattern replacement s : string) :
  occurs pattern s = false ->
  JS.replace_skip pattern replacement 0 s = s.
Proof.
  induction s as [|c rest IH]; [reflexivity|].
  cbn [occurs JS.replace_skip]. intros Hocc.
  apply orb_false_iff in Hocc as [Hhere Hrest].
  rewrite Hhere, IH by exact Hrest. reflexivity.
Qed.

(** A content in which no [{{key}}] of the variables occurs is left as
    it is; in particular every [${...}] placeholder stays. *)
Lemma processVariables_absent (content : string) (entries : Variables) :
  Forall (fun entry => occurs ("{{" ++ entry.1 ++ "}}") content = false)
    entries ->
  processVariables content (Some entries) = content.
Proof.
  unfold processVariables.
  induction 1 as [|[key value] entries Hkey _ IH]; [reflexivity|].
  cbn [fold_left]. unfold JS.replace_all at 2.
  rewrite replace_skip_absent by exact Hkey. exact IH.
Qed.

(** C5.  The renderer looks for [{{name}}], not for [${name}]: the
    content ["Hello ${name}"] with [name] bound to ["Alice"] comes back
    unchanged, while ["Hello {{name}}"] becomes ["Hello Alice"]. *)
Theorem processVariables_dollar_placeholder :
  JS.literal_key "name" = true
  /\ JS.plain_replacement (String_of (VString "Alice")) = true
  /\ processVariables "Hello ${name}" (Some [("name"%string, VString "Alice")])
     = "Hello ${name}"%string
  /\ processVariables "Hello ${name}" (Some [("name"%string, VString "Alice")])
     <> "Hello Alice"%string
  /\ processVariables "Hello {{name}}" (Some [("name"%string, VString "Alice")])
     = "Hello Alice"%string.
Proof.
  split; [reflexivity|]. split; [reflexivity|]. split; [reflexivity|].
  split; [discriminate|reflexivity].
Qed.

(** ** Canvas size ([getCanvasConfig], [createImageFromJson]) *)

Lemma effectiveDimensions_spec (dimensions : ImageDimensions.t)
    (template : RenderTemplate.t) :
  ImageDimensions.width (effectiveDimensions dimensions template)
  = effectiveWidth template dimensions
  /\ ImageDimensions.height (effectiveDimensions dimensions template)
     = effectiveHeight template dimensions.
Proof.
  unfold effectiveDimensions, effectiveWidth, effectiveHeight.
  destruct (RenderTemplate.dimensions template) as [[ow oh]|]; [|done].
  simpl. by destruct ow, oh.
Qed.

Lemma renderFromTemplate_size (config : CanvasConfig.t) (canvas : Canvas.t)
    (template : RenderTemplate.t) (variables : option Variables)
    (canvas' : Canvas.t) (errors : list string) :
  renderFromTemplate config canvas template variables = Some (canvas', errors) ->
  Canvas.width canvas' = Canvas.width canvas
  /\ Canvas.height canvas' = Canvas.height canvas.
Proof.
  unfold renderFromTemplate.
  destruct (renderElements config (Canvas.calls canvas) []
              (RenderTemplate.elements template) variables) as [[ctx errs]|];
    simpl; [|discriminate].
  intros [= <- _]. done.
Qed.

Lemma createImageFromJson_canvas
    (canvas_stride : Canvas.t -> Z) (canvas_toBuffer : Canvas.t -> list Z)
    (dimensions : ImageDimensions.t) (options : JsonRenderOptions.t)
    (image : JsonImage.t) :
  createImageFromJson canvas_stride canvas_toBuffer dimensions options
    = Some image ->
  let canvas0 := jsonCanvas dimensions (JsonRenderOptions.template options) in
  Canvas.width (JsonImage.canvas image) = Canvas.width canvas0
  /\ Canvas.height (JsonImage.canvas image) = Canvas.height canvas0
  /\ CanvasConfig.width (JsonImage.config image) = Canvas.width canvas0
  /\ CanvasConfig.height (JsonImage.config image) = Canvas.height canvas0.
Proof.
  unfold createImageFromJson, jsonCanvas.
  destruct (setupCanvas _ _) as [canvas0 config] eqn:Hsetup.
  destruct (renderFromTemplate config canvas0 _ _) as [[canvas errors]|] eqn:Hr;
    simpl; [|discriminate].
  intros [= <-]. simpl.
  apply renderFromTemplate_size in Hr as [Hw Hh].
  unfold setupCanvas in Hsetup. injection Hsetup as <- <-.
  simpl in *. auto.
Qed.

(** The canvas for the empty template on base dimensions of width zero
    is 227 pixels wide. *)
Example jsonCanvas_zero_width :
  Canvas.width (jsonCanvas zero_width_dimensions empty_template) = 227
  /\ effectiveWidth empty_template zero_width_dimensions = 0.
Proof. split; reflexivity. Qed.

(** C9, as stated, fails: with no override and a base width of zero the
    effective width is 0, but the surface is 227 pixels wide. *)
Lemma surface_size_is_effective_fails : ~ surface_size_is_effective.
Proof.
  intros Hclaim.
  destruct (Hclaim zero_width_dimensions empty_template) as [Hw _].
  destruct jsonCanvas_zero_width as [H227 H0].
  rewrite H227, H0 in Hw. discriminate Hw.
Qed.

(** C9, amended.  The surface is [effectiveHeight * 8] pixels high and
    [effectiveWidth] pixels wide, where each effective dimension is the
    template's override when present and non-zero and the base value
    otherwise; when the effective width is zero the surface is 227
    pixels wide.  The canvas of a finished render has that size. *)
Theorem createImageFromJson_surface_size
    (canvas_stride : Canvas.t -> Z) (canvas_toBuffer : Canvas.t -> list Z)
    (dimensions : ImageDimensions.t) (options : JsonRenderOptions.t) :
  let template := JsonRenderOptions.template options in
  let effW := effectiveWidth template dimensions in
  let effH := effectiveHeight template dimensions in
  Canvas.width (jsonCanvas dimensions template)
    = (if effW =? 0 then 0xE3 else effW)
  /\ Canvas.height (jsonCanvas dimensions template) = effH * 8
  /\ forall image : JsonImage.t,
       createImageFromJson canvas_stride canvas_toBuffer dimensions options
         = Some image ->
       Canvas.width (JsonImage.canvas image)
         = (if effW =? 0 then 0xE3 else effW)
       /\ Canvas.height (JsonImage.canvas image) = effH * 8
       /\ CanvasConfig.width (JsonImage.config image)
          = Canvas.width (JsonImage.canvas image)
       /\ CanvasConfig.height (JsonImage.config image)
          = Canvas.height (JsonImage.canvas image).
Proof.
  intros template effW effH.
  destruct (effectiveDimensions_spec dimensions template) as [HW HH].
  assert (Hw0 : Canvas.width (jsonCanvas dimensions template)
                = (if effW =? 0 then 0xE3 else effW)).
  { unfold jsonCanvas, setupCanvas, getCanvasConfig. simpl.
    rewrite HW. reflexivity. }
  assert (Hh0 : Canvas.height (jsonCanvas dimensions template) = effH * 8).
  { unfold jsonCanvas, setupCanvas, getCanvasConfig. simpl.
    rewrite HH. reflexivity. }
  split; [exact Hw0|]. split; [exact Hh0|].
  intros image Himage.
  apply createImageFromJson_canvas in Himage as (Hw & Hh & Hcw & Hch).
  fold template in Hw, Hh, Hcw, Hch.
  rewrite Hw, Hh, Hcw, Hch, Hw0, Hh0. done.
Qed.

Lemma createImageFromJson_surface_size_witness :
  exists image,
    createImageFromJson (fun _ => 0) (fun _ => []) (IMAGE_DIMENSIONS 203)
      {| JsonRenderOptions.template := empty_template;
         JsonRenderOptions.variables := None |} = Some image
    /\ Canvas.width (JsonImage.canvas image) = 227
    /\ Canvas.height (JsonImage.canvas image) = 136.
Proof.
  eexists. split; [reflexivity|].
  refine (let H := proj2 (proj2 (createImageFromJson_surface_size
            (fun _ => 0) (fun _ => []) (IMAGE_DIMENSIONS 203)
            {| JsonRenderOptions.template := empty_template;
               JsonRenderOptions.variables := None |})) _ eq_refl in
          conj (proj1 H) (proj1 (proj2 H))).
Defined.

(** ** Loops of the renderer *)

Lemma for_loop_invariant {S} (P : S -> Prop) (cond : Z -> bool) (step : Z)
    (body : Z -> S -> S) :
  (forall i s, P s -> P (body i s)) ->
  forall (fuel : nat) (i : Z) (s s' : S),
    P s -> JS.for_loop fuel cond step body i s = Some s' -> P s'.
Proof.
  intros Hbody. induction fuel as [|fuel IH]; intros i s s' Hs; simpl.
  - destruct (cond i); [discriminate|]. by intros [= <-].
  - destruct (cond i); [|by intros [= <-]].
    apply IH. by apply Hbody.
Qed.


(** A loop [for (i = start; i < limit; i += step)] with a positive step
    ends within [limit - start] iterations. *)
Lemma for_loop_lt_terminates {S} (limit step : Z) (body : Z -> S -> S) :
  0 < step ->
  forall (fuel : nat) (i : Z) (s : S),
    (Z.to_nat (limit - i) <= fuel)%nat ->
    is_Some (JS.for_loop fuel (fun x => x <? limit) step body i s).
Proof.
  intros Hstep. induction fuel as [|fuel IH]; intros i s Hfuel; simpl.
  - destruct (Z.ltb_spec i limit); [lia|]. by eexists.
  - destruct (Z.ltb_spec i limit); [|by eexists].
    apply IH. lia.
Qed.

(** With a step that is not positive the loop never leaves a condition
    [i <= limit] that holds at the start. *)
Lemma for_loop_le_diverges {S} (limit step : Z) (body : Z -> S -> S) :
  step <= 0 ->
  forall (fuel : nat) (i : Z) (s : S),
    i <= limit ->
    JS.for_loop fuel (fun x => x <=? limit) step body i s = None.
Proof.
  intros Hstep. induction fuel as [|fuel IH]; intros i s Hi; simpl.
  - destruct (Z.leb_spec i limit); [reflexivity|lia].
  - destruct (Z.leb_spec i limit); [|lia].
    apply IH. lia.
Qed.

Lemma renderStripeElement_terminates (config : CanvasConfig.t)
    (ctx : list CanvasOp) (element : StripeElement.t) :
  0 < scaled config (StripeElement.spacing element) ->
  is_Some (renderStripeElement config ctx element).
Proof.
  intros Hsp. unfold renderStripeElement, renderStripes.
  set (bounds := scaledBounds config (StripeElement.bounds element)).
  destruct (StripeElement.direction element).
  - match goal with
    | |- context [JS.for_loop ?fuel ?cond ?step ?body ?i ?s ≫= _] =>
        destruct (for_loop_lt_terminates
                    (Bounds.y bounds + Bounds.height bounds) step body Hsp
                    fuel i s ltac:(lia)) as [ctx2 ->]
    end.
    simpl. by eexists.
  - match goal with
    | |- context [JS.for_loop ?fuel ?cond ?step ?body ?i ?s ≫= _] =>
        destruct (for_loop_lt_terminates
                    (Bounds.x bounds + Bounds.width bounds) step body Hsp
                    fuel i s ltac:(lia)) as [ctx2 ->]
    end.
    simpl. by eexists.
Qed.

(** ** Stroke widths ([renderLineElement], [renderGridElement]) *)














(** ** The log of a rendering ([renderElement], [renderFromTemplate]) *)


Section RenderFacts.

Variable config : CanvasConfig.t.
Variable variables : option Variables.

(** The messages logged so far do not influence the rendering. *)
Lemma renderElementsFrom_errors (elements : list RenderElement) :
  forall (index : Z) (ctx : list CanvasOp) (errors : list string),
    renderElementsFrom config index ctx errors elements variables
    = (fun '(c, logged) => (c, errors ++ logged))
        <$> renderElementsFrom config index ctx [] elements variables.
Proof.
  induction elements as [|element rest IH]; intros index ctx errors.
  - simpl. by rewrite app_nil_r.
  - cbn [renderElementsFrom].
    destruct (renderElement config ctx element variables)
      as [[[ctx'|ctx'] logged]|]; [| |reflexivity].
    + rewrite (IH (index + 1) ctx' (errors ++ logged)),
        (IH (index + 1) ctx' ([] ++ logged)).
      destruct (renderElementsFrom config (index + 1) ctx' [] rest variables)
        as [[c l]|]; simpl; [|reflexivity].
      by rewrite app_assoc.
    + rewrite (IH (index + 1) ctx'
                 (errors ++ logged ++ [failedMessage index element])),
        (IH (index + 1) ctx' ([] ++ logged ++ [failedMessage index element])).
      destruct (renderElementsFrom config (index + 1) ctx' [] rest variables)
        as [[c l]|]; simpl; [|reflexivity].
      by rewrite <- !app_assoc.
Qed.





End RenderFacts.

(* ================================================================= *)
(** * Further properties *)
(* ================================================================= *)

(** ** [bitArrayToByte] on arbitrary arrays *)

Lemma bitsValue_bounds (bits : list bool) :
  0 <= bitsValue bits < 2 ^ Z.of_nat (length bits).
Proof.
  induction bits as [|b rest IH]; [simpl; lia|].
  cbn [bitsValue length]. rewrite Nat2Z.inj_succ, Z.pow_succ_r by lia.
  destruct b; simpl Z.b2z; lia.
Qed.

(** Only the test [bit === 1] matters to the reduction. *)
Lemma reduce_from_is_one (bitArray : list Z) :
  forall k v : Z,
    JS.reduce_from
      (fun value bit index =>
         if bit =? 1 then JS.bor value (JS.shl 1 index) else value)
      bitArray k v
    = JS.reduce_from
        (fun value bit index =>
           if bit =? 1 then JS.bor value (JS.shl 1 index) else value)
        (map Z.b2z (map (fun bit => bit =? 1) bitArray)) k v.
Proof.
  induction bitArray as [|bit rest IH]; intros k v; [reflexivity|].
  cbn [map JS.reduce_from]. rewrite IH. f_equal.
  by destruct (bit =? 1).
Qed.

(** X1.  For an array of at most 31 entries, [bitArrayToByte] returns
    the number below [2 ^ length] whose binary digit [i] tells whether
    entry [i] is exactly 1; every other entry counts as a 0. *)
Theorem bitArrayToByte_decodes (bitArray : list Z) (i : nat) :
  (length bitArray <= 31)%nat ->
  0 <= bitArrayToByte bitArray < 2 ^ Z.of_nat (length bitArray)
  /\ Z.testbit (bitArrayToByte bitArray) (Z.of_nat i)
     = (nth i bitArray 0 =? 1).
Proof.
  intros Hlen. unfold bitArrayToByte, JS.reduce.
  rewrite reduce_from_is_one.
  fold (JS.reduce
          (fun value bit index =>
             if bit =? 1 then JS.bor value (JS.shl 1 index) else value)
          (map Z.b2z (map (fun bit => bit =? 1) bitArray)) 0).
  fold (bitArrayToByte (map Z.b2z (map (fun bit => bit =? 1) bitArray))).
  rewrite bitArrayToByte_bitsValue by (by rewrite length_map).
  split.
  - pose proof (bitsValue_bounds (map (fun bit => bit =? 1) bitArray)) as Hb.
    by rewrite length_map in Hb.
  - rewrite bitsValue_testbit.
    change false with ((fun bit => bit =? 1) 0).
    apply map_nth.
Qed.

Lemma bitArrayToByte_decodes_witness :
  0 <= bitArrayToByte [1; 0; 7; 1] < 2 ^ 4
  /\ Z.testbit (bitArrayToByte [1; 0; 7; 1]) 2 = false.
Proof.
  apply (bitArrayToByte_decodes [1; 0; 7; 1] 2). simpl. lia.
Defined.

(** ** The packed image for every width and height *)

Lemma packedColumn_to_nat (stride : Z) (pixels : list Z) (h x : Z) :
  packedColumn stride pixels (Z.of_nat (Z.to_nat h)) x
  = packedColumn stride pixels h x.
Proof.
  destruct (Z.le_gt_cases 0 h) as [Hh|Hh]; [by rewrite Z2Nat.id|].
  unfold packedColumn.
  replace (Z.to_nat h) with 0%nat by lia.
  replace (Z.to_nat (h / 8)) with 0%nat; [reflexivity|].
  pose proof (Z.div_lt_upper_bound h 8 0 ltac:(lia) ltac:(lia)). lia.
Qed.

Lemma rowLoop_columns_any (stride : Z) (pixels : list Z)
    (config : CanvasConfig.t) (fuel : nat) :
  forall (x : Z) (imageData : list Z),
    x + Z.of_nat fuel <= CanvasConfig.width config ->
    rowLoop stride pixels config fuel x imageData
    = imageData
      ++ concat (map (fun k => packedColumn stride pixels
                                 (CanvasConfig.height config)
                                 (x + Z.of_nat k))
                     (seq 0 fuel)).
Proof.
  induction fuel as [|fuel IH]; intros x imageData Hfuel.
  - simpl. by rewrite app_nil_r.
  - cbn [rowLoop].
    destruct (Z.ltb_spec x (CanvasConfig.width config)); [|lia].
    rewrite columnLoop_packedColumn, IH, packedColumn_to_nat by lia.
    rewrite <- app_assoc. f_equal.
    cbn [seq map concat]. rewrite Z.add_0_r. f_equal.
    rewrite <- seq_shift, map_map. f_equal.
    apply map_ext. intros k. f_equal. lia.
Qed.

(** The output is the concatenation of the packed columns, for every
    width and height. *)
Lemma canvasToImageData_columns_any (stride : Z) (pixels : list Z)
    (config : CanvasConfig.t) :
  canvasToImageData stride pixels config
  = concat (map (fun k => packedColumn stride pixels
                            (CanvasConfig.height config) (Z.of_nat k))
                (seq 0 (Z.to_nat (CanvasConfig.width config)))).
Proof.
  unfold canvasToImageData.
  destruct (Z.le_gt_cases 0 (CanvasConfig.width config)) as [Hw|Hw].
  - rewrite rowLoop_columns_any by lia. reflexivity.
  - replace (Z.to_nat (CanvasConfig.width config)) with 0%nat by lia.
    reflexivity.
Qed.

Lemma canvasToImageData_length_any
    (stride : Z) (pixels : list Z) (config : CanvasConfig.t) :
  Z.of_nat (length (canvasToImageData stride pixels config))
  = Z.max 0 (CanvasConfig.width config)
    * Z.max 0 (CanvasConfig.height config / 8).
Proof.
  rewrite canvasToImageData_columns_any.
  rewrite (concat_length_uniform (Z.to_nat (CanvasConfig.height config / 8)))
    by apply packedColumns_uniform.
  rewrite length_map, length_seq. lia.
Qed.

(** X2.  For every width and height (multiples of 8 or not, zero or
    negative) the packed image has max(0, width) * max(0,
    floor(height / 8)) entries; it is empty when the width is not
    positive or the height is below 8. *)
Theorem canvasToImageData_length
    (stride : Z) (pixels : list Z) (config : CanvasConfig.t) :
  let w := CanvasConfig.width config in
  let h := CanvasConfig.height config in
  Z.of_nat (length (canvasToImageData stride pixels config))
  = Z.max 0 w * Z.max 0 (h / 8)
  /\ (w <= 0 \/ h < 8 -> canvasToImageData stride pixels config = []).
Proof.
  intros w h.
  pose proof (canvasToImageData_length_any stride pixels config) as Hlen.
  fold w h in Hlen.
  split; [exact Hlen|].
  intros Hempty. apply length_zero_iff_nil.
  assert (Z.max 0 w * Z.max 0 (h / 8) = 0); [|lia].
  destruct Hempty as [Hw|Hh].
  - rewrite Z.max_l by lia. lia.
  - assert (h / 8 <= 0).
    { pose proof (Z.div_lt_upper_bound h 8 1 ltac:(lia) ltac:(lia)). lia. }
    rewrite (Z.max_l 0 (h / 8)) by lia. lia.
Qed.

Lemma columnByte_is_byte (stride : Z) (pixels : list Z) (x y0 : Z) :
  is_byte (columnByte stride pixels x y0).
Proof.
  unfold columnByte.
  rewrite (map_ext _ (fun j => Z.b2z (notWhite stride pixels x (y0 + j))))
    by (intros j; apply pixelBit_notWhite).
  rewrite <- (map_map (fun j => notWhite stride pixels x (y0 + j)) Z.b2z).
  rewrite bitArrayToByte_bitsValue by (simpl; lia).
  apply (bitsValue_bounds
           (map (fun j => notWhite stride pixels x (y0 + j))
              [0; 1; 2; 3; 4; 5; 6; 7])).
Qed.

Lemma Forall_concat_map {A B} (P : B -> Prop) (f : A -> list B) (l : list A) :
  (forall a, Forall P (f a)) -> Forall P (concat (map f l)).
Proof.
  intros Hf. induction l as [|a l IH]; simpl; [constructor|].
  apply Forall_app_2; [apply Hf | exact IH].
Qed.

(** X3.  Whatever the canvas buffer holds, every entry of the packed
    image is a byte value, 0 to 255. *)
Theorem canvasToImageData_bytes
    (stride : Z) (pixels : list Z) (config : CanvasConfig.t) :
  Forall is_byte (canvasToImageData stride pixels config).
Proof.
  rewrite canvasToImageData_columns_any.
  apply Forall_concat_map. intros k. unfold packedColumn.
  induction (seq 0 (Z.to_nat (CanvasConfig.height config / 8))) as [|g gs IH];
    simpl; constructor; [apply columnByte_is_byte | exact IH].
Qed.

Lemma columnByte_bits (stride : Z) (pixels : list Z) (x y0 : Z) :
  columnByte stride pixels x y0
  = bitsValue (map (fun j => notWhite stride pixels x (y0 + j))
                 [0; 1; 2; 3; 4; 5; 6; 7]).
Proof.
  unfold columnByte.
  rewrite (map_ext _ (fun j => Z.b2z (notWhite stride pixels x (y0 + j))))
    by (intros j; apply pixelBit_notWhite).
  rewrite <- (map_map (fun j => notWhite stride pixels x (y0 + j)) Z.b2z).
  apply bitArrayToByte_bitsValue. simpl. lia.
Qed.

Lemma columnByte_ext (stride1 stride2 : Z) (pixels1 pixels2 : list Z)
    (x y0 : Z) :
  (forall j, 0 <= j < 8 ->
     notWhite stride1 pixels1 x (y0 + j) = notWhite stride2 pixels2 x (y0 + j)) ->
  columnByte stride1 pixels1 x y0 = columnByte stride2 pixels2 x y0.
Proof.
  intros Hsame. rewrite !columnByte_bits. cbn [map].
  rewrite !Hsame by lia. reflexivity.
Qed.

Lemma packedColumn_ext (stride1 stride2 : Z) (pixels1 pixels2 : list Z)
    (h x : Z) :
  (forall y, h mod 8 <= y < h ->
     notWhite stride1 pixels1 x y = notWhite stride2 pixels2 x y) ->
  packedColumn stride1 pixels1 h x = packedColumn stride2 pixels2 h x.
Proof.
  intros Hsame. unfold packedColumn.
  apply map_ext_in. intros g Hg. apply in_seq in Hg.
  apply columnByte_ext. intros j Hj. apply Hsame.
  pose proof (Z.div_mod h 8 ltac:(lia)).
  pose proof (Z.mod_pos_bound h 8 ltac:(lia)).
  assert (Z.of_nat g < h / 8) by lia.
  lia.
Qed.

(** X4.  The packed image depends on the canvas only through the test
    "first byte of the pixel differs from 0xFF", and only for the rows
    that belong to a complete group of eight: two buffers that agree on
    that test for the columns [0 .. width - 1] and the rows
    [height mod 8 .. height - 1] pack to the same image. *)
Theorem canvasToImageData_ext
    (stride1 stride2 : Z) (pixels1 pixels2 : list Z)
    (config : CanvasConfig.t) :
  let w := CanvasConfig.width config in
  let h := CanvasConfig.height config in
  (forall x y, 0 <= x < w -> h mod 8 <= y < h ->
     notWhite stride1 pixels1 x y = notWhite stride2 pixels2 x y) ->
  canvasToImageData stride1 pixels1 config
  = canvasToImageData stride2 pixels2 config.
Proof.
  intros w h Hsame. rewrite !canvasToImageData_columns_any. f_equal.
  apply map_ext_in. intros k Hk. apply in_seq in Hk.
  apply packedColumn_ext. intros y Hy. apply Hsame; [|exact Hy].
  fold w in Hk. lia.
Qed.

Lemma canvasToImageData_ext_witness :
  canvasToImageData 4 bottom_black_pixels one_by_eight
  = canvasToImageData 4
      [255; 1; 2; 3;  255; 1; 2; 3;  255; 1; 2; 3;  255; 1; 2; 3;
       255; 1; 2; 3;  255; 1; 2; 3;  255; 1; 2; 3;  7; 1; 2; 3]
      one_by_eight.
Proof.
  apply (canvasToImageData_ext 4 4 bottom_black_pixels _ one_by_eight).
  intros x y Hx Hy. simpl in Hx, Hy.
  assert (x = 0) as -> by lia.
  assert (Hcases : y = 0 \/ y = 1 \/ y = 2 \/ y = 3 \/ y = 4 \/ y = 5
                   \/ y = 6 \/ y = 7)
    by (change (8 mod 8) with 0 in Hy; lia).
  destruct Hcases as [->|[->|[->|[->|[->|[->|[->| ->]]]]]]]; reflexivity.
Defined.

Lemma concat_map_repeat {A B} (v : B) (q : nat) (l : list A) :
  concat (map (fun _ => repeat v q) l) = repeat v (length l * q).
Proof.
  induction l as [|a l IH]; [reflexivity|].
  simpl. rewrite IH, repeat_app. reflexivity.
Qed.

Lemma canvasToImageData_uniform
    (stride : Z) (pixels : list Z) (config : CanvasConfig.t) (c : bool) :
  let w := CanvasConfig.width config in
  let h := CanvasConfig.height config in
  (forall x y, 0 <= x < w -> 0 <= y < h -> notWhite stride pixels x y = c) ->
  canvasToImageData stride pixels config
  = repeat (if c then 255 else 0) (Z.to_nat w * Z.to_nat (h / 8)).
Proof.
  intros w h Hall. rewrite canvasToImageData_columns_any. fold w h.
  transitivity
    (concat (map (fun _ : nat => repeat (if c then 255 else 0)
                                   (Z.to_nat (h / 8)))
               (seq 0 (Z.to_nat w))));
    [|by rewrite concat_map_repeat, length_seq].
  f_equal.
  apply map_ext_in. intros k Hk. apply in_seq in Hk.
  unfold packedColumn.
  transitivity
    (map (fun _ : nat => if c then 255 else 0) (seq 0 (Z.to_nat (h / 8))));
    [|by rewrite map_const, length_seq].
  apply map_ext_in. intros g Hg. apply in_seq in Hg.
  rewrite columnByte_bits. cbn [map].
  pose proof (Z.div_mod h 8 ltac:(lia)).
  pose proof (Z.mod_pos_bound h 8 ltac:(lia)).
  assert (Z.of_nat g < h / 8) by lia.
  rewrite !Hall by lia.
  by destruct c.
Qed.

(** X5.  A surface on which every pixel of the canvas area has 0xFF as
    its first byte packs to zeros only; a surface on which no pixel has
    packs to 0xFF only. *)
Theorem canvasToImageData_white_and_black
    (stride : Z) (pixels : list Z) (config : CanvasConfig.t) :
  let w := CanvasConfig.width config in
  let h := CanvasConfig.height config in
  ((forall x y, 0 <= x < w -> 0 <= y < h ->
      JS.get pixels (y * stride + x * 4) = Some 0xFF) ->
   canvasToImageData stride pixels config
   = repeat 0 (Z.to_nat w * Z.to_nat (h / 8)))
  /\ ((forall x y, 0 <= x < w -> 0 <= y < h ->
         JS.get pixels (y * stride + x * 4) <> Some 0xFF) ->
      canvasToImageData stride pixels config
      = repeat 0xFF (Z.to_nat w * Z.to_nat (h / 8))).
Proof.
  intros w h. split; intros Hall.
  - apply (canvasToImageData_uniform stride pixels config false).
    intros x y Hx Hy. unfold notWhite. by rewrite Hall.
  - apply (canvasToImageData_uniform stride pixels config true).
    intros x y Hx Hy. unfold notWhite.
    specialize (Hall x y Hx Hy).
    destruct (JS.get pixels (y * stride + x * 4)) as [v|]; [|reflexivity].
    destruct (Z.eqb_spec v 255) as [->|]; [by destruct Hall | reflexivity].
Qed.

Lemma canvasToImageData_white_and_black_witness :
  canvasToImageData 4 (repeat 255 32) one_by_eight = [0].
Proof.
  apply (proj1 (canvasToImageData_white_and_black 4 (repeat 255 32)
                  one_by_eight)).
  intros x y Hx Hy. simpl in Hx, Hy.
  assert (x = 0) as -> by lia.
  assert (Hcases : y = 0 \/ y = 1 \/ y = 2 \/ y = 3 \/ y = 4 \/ y = 5
                   \/ y = 6 \/ y = 7) by lia.
  destruct Hcases as [->|[->|[->|[->|[->|[->|[->| ->]]]]]]]; reflexivity.
Defined.

(** ** [calculateImageSplits] for every width and every image *)

Lemma calculateImageSplits_unfold_any (imageData : list Z)
    (d : ImageDimensions.t) :
  calculateImageSplits imageData d
  = map (fun k =>
           imageSplitAt imageData (ImageDimensions.width d)
             (ImageDimensions.height d) (ImageDimensions.dpi d)
             (JS.ceil_div (ImageDimensions.width d) MAX_PRINTER_WIDTH)
             (Z.of_nat k))
        (seq 0 (Z.to_nat (JS.ceil_div (ImageDimensions.width d)
                            MAX_PRINTER_WIDTH))).
Proof.
  destruct (Z.le_gt_cases 0 (ImageDimensions.width d)) as [Hw|Hw].
  - by apply calculateImageSplits_unfold.
  - unfold calculateImageSplits.
    pose proof (ceil_div_nonpos (ImageDimensions.width d) MAX_PRINTER_WIDTH
                  ltac:(unfold MAX_PRINTER_WIDTH; lia) ltac:(lia)).
    replace (Z.to_nat (JS.ceil_div (ImageDimensions.width d)
                         MAX_PRINTER_WIDTH)) with 0%nat by lia.
    reflexivity.
Qed.

(** X6.  Whatever the image and the dimensions, every split is between
    1 and 255 columns wide and keeps the height and dpi; the splits are
    numbered 0, 1, ... and all carry the same total.  There is no split
    when the width is not positive, and exactly one, of the full width,
    when the width is at most 255. *)
Theorem calculateImageSplits_device_limit
    (imageData : list Z) (d : ImageDimensions.t) :
  let w := ImageDimensions.width d in
  let imageSplits := calculateImageSplits imageData d in
  (forall (i : nat) (s : ImageSplit.t),
     imageSplits !! i = Some s ->
     1 <= ImageDimensions.width (ImageSplit.dimensions s) <= 255
     /\ ImageDimensions.height (ImageSplit.dimensions s)
        = ImageDimensions.height d
     /\ ImageDimensions.dpi (ImageSplit.dimensions s) = ImageDimensions.dpi d
     /\ ImageSplit.splitIndex s = Z.of_nat i
     /\ ImageSplit.totalSplits s = Z.of_nat (length imageSplits))
  /\ (w <= 0 -> imageSplits = [])
  /\ (0 < w <= 255 ->
      exists s, imageSplits = [s]
        /\ ImageDimensions.width (ImageSplit.dimensions s) = w).
Proof.
  intros w imageSplits.
  pose proof (ceil_div_bounds w 255 ltac:(lia)) as Hceil.
  assert (Hsplits : imageSplits
    = map (fun k => imageSplitAt imageData w (ImageDimensions.height d)
                      (ImageDimensions.dpi d) (JS.ceil_div w 255)
                      (Z.of_nat k))
          (seq 0 (Z.to_nat (JS.ceil_div w 255))))
    by apply calculateImageSplits_unfold_any.
  split; [|split].
  - intros i s Hi. rewrite Hsplits in Hi |- *.
    rewrite length_map, length_seq.
    rewrite list_lookup_fmap in Hi.
    destruct (seq 0 (Z.to_nat (JS.ceil_div w 255)) !! i) as [k|] eqn:Hk;
      [|discriminate].
    apply lookup_seq in Hk as [-> Hin]. simpl in Hi.
    injection Hi as <-. simpl. unfold JS.min, MAX_PRINTER_WIDTH.
    repeat split; lia.
  - intros Hw. rewrite Hsplits.
    replace (Z.to_nat (JS.ceil_div w 255)) with 0%nat; [reflexivity|].
    pose proof (ceil_div_nonpos w 255 ltac:(lia) Hw). lia.
  - intros Hw. rewrite Hsplits.
    rewrite (ceil_div_unique w 255 1) by lia.
    eexists. split; [reflexivity|]. simpl.
    unfold JS.min, MAX_PRINTER_WIDTH. lia.
Qed.

Lemma split_data_concat_take (imageData : list Z) (w h : Z) (m : nat) :
  0 <= h ->
  255 * (Z.of_nat m - 1) < w ->
  concat (map (fun k =>
                 take (Z.to_nat (Z.min 255 (w - Z.of_nat k * 255) * h))
                   (drop (Z.to_nat (Z.of_nat k * 255 * h)) imageData))
            (seq 0 m))
  = take (Z.to_nat (Z.min (255 * Z.of_nat m) w * h)) imageData.
Proof.
  intros Hh. induction m as [|m IH]; intros Hm.
  - cbn [seq map concat].
    replace (Z.to_nat (Z.min (255 * Z.of_nat 0) w * h)) with 0%nat by nia.
    reflexivity.
  - rewrite seq_S, map_app, concat_app, IH by lia. cbn [map concat Nat.add].
    rewrite app_nil_r.
    replace (Z.to_nat (Z.of_nat m * 255 * h))
      with (Z.to_nat (Z.min (255 * Z.of_nat m) w * h)) by nia.
    rewrite take_take_drop. f_equal. nia.
Qed.

Lemma split_data_concat (imageData : list Z) (d : ImageDimensions.t) :
  0 <= ImageDimensions.height d ->
  concat (map ImageSplit.data (calculateImageSplits imageData d))
  = take (Z.to_nat (ImageDimensions.width d * ImageDimensions.height d))
      imageData.
Proof.
  set (w := ImageDimensions.width d). set (h := ImageDimensions.height d).
  intros Hh.
  rewrite calculateImageSplits_unfold_any, map_map. fold w h.
  unfold MAX_PRINTER_WIDTH.
  pose proof (ceil_div_bounds w 255 ltac:(lia)) as Hceil.
  destruct (Z.le_gt_cases w 0) as [Hw|Hw].
  - pose proof (ceil_div_nonpos w 255 ltac:(lia) Hw).
    replace (Z.to_nat (JS.ceil_div w 255)) with 0%nat by lia.
    replace (Z.to_nat (w * h)) with 0%nat by nia. reflexivity.
  - rewrite (map_ext_in _
      (fun k => take (Z.to_nat (Z.min 255 (w - Z.of_nat k * 255) * h))
                  (drop (Z.to_nat (Z.of_nat k * 255 * h)) imageData))).
    + rewrite split_data_concat_take by lia. f_equal. nia.
    + intros k Hk. apply in_seq in Hk.
      unfold imageSplitAt, MAX_PRINTER_WIDTH, JS.min. simpl.
      rewrite slice_take_drop by nia. f_equal. f_equal. lia.
Qed.

(** X7.  For a height that is not negative and an image of any length,
    the data of the splits, concatenated in order, are the first
    [width * height] entries of the image: a longer image is cut there,
    a shorter one is sent whole. *)
Theorem calculateImageSplits_concat
    (imageData : list Z) (d : ImageDimensions.t) :
  let w := ImageDimensions.width d in
  let h := ImageDimensions.height d in
  0 <= h ->
  concat (map ImageSplit.data (calculateImageSplits imageData d))
  = take (Z.to_nat (w * h)) imageData.
Proof. intros w h Hh. by apply split_data_concat. Qed.

Lemma calculateImageSplits_concat_witness :
  concat (map ImageSplit.data
            (calculateImageSplits [1; 2; 3; 4; 5; 6; 7]
               {| ImageDimensions.width := 2;
                  ImageDimensions.height := 3;
                  ImageDimensions.dpi := 203 |}))
  = [1; 2; 3; 4; 5; 6].
Proof.
  apply (calculateImageSplits_concat [1; 2; 3; 4; 5; 6; 7]
           {| ImageDimensions.width := 2;
              ImageDimensions.height := 3;
              ImageDimensions.dpi := 203 |}).
  simpl. lia.
Defined.

(** ** [sendDataInPackets]: pacing, refused writes, packet sizes that
       are not positive *)

Section PacketFacts.

Variable write_ok : nat -> list Z -> bool.

Lemma writes_appendEffect_Write (chunk : list Z) (s : PrinterService.t) :
  writes (PrinterService.io (appendEffect (Write chunk) s))
  = writes (PrinterService.io s) ++ [chunk].
Proof. simpl. by rewrite writes_app. Qed.

(** The effects of one packet: the write, then the pause when the
    packet delay is positive. *)
Lemma packet_step (chunk : list Z) (s : PrinterService.t) :
  write_ok (length (writes (PrinterService.io s))) chunk = true ->
  exists s1,
    (writeData write_ok chunk ;;;
     delay (PrinterConfig.packetDelay (PrinterService.config s))) s
    = (s1, Resolved tt)
    /\ PrinterService.io s1
       = PrinterService.io s
         ++ Write chunk
            :: (if 0 <? PrinterConfig.packetDelay (PrinterService.config s)
                then [Pause (PrinterConfig.packetDelay
                               (PrinterService.config s))]
                else [])
    /\ PrinterService.protocol s1 = PrinterService.protocol s
    /\ PrinterService.config s1 = PrinterService.config s.
Proof.
  intros Hok. unfold await, writeData, delay. rewrite Hok. simpl.
  destruct (0 <? PrinterConfig.packetDelay (PrinterService.config s)).
  - eexists. split; [reflexivity|]. simpl.
    by rewrite <- app_assoc.
  - eexists. split; [reflexivity|]. done.
Qed.

Lemma packetLoop_unfold (fuel : nat) (data : list Z) (i : Z)
    (s s1 : PrinterService.t) :
  i < Z.of_nat (length data) ->
  (writeData write_ok
     (JS.slice data i
        (i + PrinterConfig.packetSize (PrinterService.config s))) ;;;
   delay (PrinterConfig.packetDelay (PrinterService.config s))) s
  = (s1, Resolved tt) ->
  packetLoop write_ok (S fuel) data i s
  = packetLoop write_ok fuel data
      (i + PrinterConfig.packetSize (PrinterService.config s)) s1.
Proof.
  intros Hi Hstep. cbn [packetLoop].
  destruct (Z.ltb_spec i (Z.of_nat (length data))); [|lia].
  unfold await in *.
  destruct (writeData write_ok _ s) as [s0 [[]| |]]; try discriminate.
  destruct (delay _ s0) as [s0' [[]| |]]; try discriminate.
  by injection Hstep as ->.
Qed.

Lemma slice_blockAt (data : list Z) (P : Z) (j : nat) :
  0 < P ->
  JS.slice data (Z.of_nat j * P) (Z.of_nat j * P + P)
  = blockAt data (Z.to_nat P) j.
Proof.
  intros HP. rewrite slice_take_drop by nia.
  unfold blockAt. f_equal; [lia|]. f_equal. nia.
Qed.

(** The packets before a refused write are written, the loop is
    rejected, and nothing follows. *)
Lemma packetLoop_rejected (data : list Z) (k : nat) :
  forall (fuel j : nat) (s : PrinterService.t),
    let P := PrinterConfig.packetSize (PrinterService.config s) in
    let n0 := length (writes (PrinterService.io s)) in
    0 < P ->
    (k < fuel)%nat ->
    Z.of_nat (j + k) * P < Z.of_nat (length data) ->
    (forall i, (i < k)%nat ->
       write_ok (n0 + i)%nat (blockAt data (Z.to_nat P) (j + i)) = true) ->
    write_ok (n0 + k)%nat (blockAt data (Z.to_nat P) (j + k)) = false ->
    exists s',
      packetLoop write_ok fuel data (Z.of_nat j * P) s = (s', Rejected)
      /\ writes (PrinterService.io s')
         = writes (PrinterService.io s)
           ++ map (blockAt data (Z.to_nat P)) (seq j k)
      /\ PrinterService.protocol s' = PrinterService.protocol s.
Proof.
  induction k as [|k IH]; intros fuel j s P n0 HP Hfuel Hlt Hbefore Hfail.
  - destruct fuel as [|fuel]; [lia|].
    exists s. cbn [packetLoop]. fold P.
    destruct (Z.ltb_spec (Z.of_nat j * P) (Z.of_nat (length data)));
      [|lia].
    unfold await, writeData. fold n0.
    rewrite slice_blockAt by done.
    rewrite !Nat.add_0_r in Hfail. rewrite Hfail.
    simpl. by rewrite app_nil_r.
  - destruct fuel as [|fuel]; [lia|].
    assert (Hj : Z.of_nat j * P < Z.of_nat (length data)) by nia.
    destruct (packet_step (blockAt data (Z.to_nat P) j) s)
      as (s1 & Hstep & Hio & Hp1 & Hc1).
    { fold n0. rewrite <- (Nat.add_0_r n0), <- (Nat.add_0_r j) at 1.
      apply Hbefore. lia. }
    rewrite <- slice_blockAt in Hstep by done. fold P in Hstep.
    rewrite (packetLoop_unfold fuel data _ s s1 Hj Hstep). fold P.
    replace (Z.of_nat j * P + P) with (Z.of_nat (S j) * P) by lia.
    assert (HP1 : PrinterConfig.packetSize (PrinterService.config s1) = P)
      by (by rewrite Hc1).
    assert (Hn1 : length (writes (PrinterService.io s1)) = S n0).
    { rewrite Hio, writes_app. cbn [writes omap].
      fold (writes (if 0 <? PrinterConfig.packetDelay (PrinterService.config s)
                    then [Pause (PrinterConfig.packetDelay
                                   (PrinterService.config s))]
                    else [])).
      rewrite length_app. simpl.
      destruct (0 <? _); simpl; fold n0; lia. }
    destruct (IH fuel (S j) s1) as (s' & Hrun & Hw & Hp).
    + by rewrite HP1.
    + lia.
    + rewrite HP1. replace (S j + k)%nat with (j + S k)%nat by lia. exact Hlt.
    + intros i Hi. rewrite HP1, Hn1.
      replace (S n0 + i)%nat with (n0 + S i)%nat by lia.
      replace (S j + i)%nat with (j + S i)%nat by lia.
      apply Hbefore. lia.
    + rewrite HP1, Hn1.
      replace (S n0 + k)%nat with (n0 + S k)%nat by lia.
      replace (S j + k)%nat with (j + S k)%nat by lia.
      exact Hfail.
    + rewrite HP1 in Hrun, Hw.
      exists s'. split; [exact Hrun|]. split; [|congruence].
      rewrite Hw, Hio, writes_app. cbn [seq map].
      rewrite <- app_assoc. f_equal.
      cbn [writes omap].
      destruct (0 <? PrinterConfig.packetDelay (PrinterService.config s));
        reflexivity.
Qed.

End PacketFacts.

(** X8.  When the port refuses the write of packet [k] after completing
    the writes of the packets before it, [sendDataInPackets] is
    rejected; exactly those [k] packets have been written and nothing is
    written after the refused one. *)
Theorem sendDataInPackets_refused_write
    (write_ok : nat -> list Z -> bool) (data : list Z)
    (splitNumber totalSplits : Z) (s : PrinterService.t) (k : nat) :
  let P := PrinterConfig.packetSize (PrinterService.config s) in
  let n0 := length (writes (PrinterService.io s)) in
  0 < P ->
  Z.of_nat k * P < Z.of_nat (length data) ->
  (forall i, (i < k)%nat ->
     write_ok (n0 + i)%nat (blockAt data (Z.to_nat P) i) = true) ->
  write_ok (n0 + k)%nat (blockAt data (Z.to_nat P) k) = false ->
  exists s',
    sendDataInPackets write_ok data splitNumber totalSplits s = (s', Rejected)
    /\ writes (PrinterService.io s')
       = writes (PrinterService.io s) ++ blocks data (Z.to_nat P) k.
Proof.
  intros P n0 HP Hk Hbefore Hfail.
  destruct (packetLoop_rejected write_ok data k (length data) 0 s)
    as (s' & Hrun & Hw & _); try done.
  - fold P. nia.
  - exists s'. split; [exact Hrun | exact Hw].
Qed.

Lemma sendDataInPackets_refused_write_witness :
  exists s',
    sendDataInPackets (fun n _ => (n <? 2)%nat) [1; 2; 3; 4; 5; 6; 7] 1 1
      (newPrinterService (PrinterConfig.mk 2 0 0)
         (getPrinterProtocol (IMAGE_DIMENSIONS 203)))
    = (s', Rejected)
    /\ writes (PrinterService.io s') = [[1; 2]; [3; 4]].
Proof.
  apply (sendDataInPackets_refused_write (fun n _ => (n <? 2)%nat)
           [1; 2; 3; 4; 5; 6; 7] 1 1
           (newPrinterService (PrinterConfig.mk 2 0 0)
              (getPrinterProtocol (IMAGE_DIMENSIONS 203))) 2).
  - simpl. lia.
  - simpl. lia.
  - intros i Hi. simpl. apply Nat.ltb_lt. lia.
  - reflexivity.
Defined.

Section PacingFacts.

Variable write_ok : nat -> list Z -> bool.
Hypothesis all_ok : forall n chunk, write_ok n chunk = true.

Lemma packetLoop_trace (data : list Z) (fuel : nat) :
  forall (j : nat) (s : PrinterService.t),
    let P := PrinterConfig.packetSize (PrinterService.config s) in
    let d := PrinterConfig.packetDelay (PrinterService.config s) in
    let left :=
      Z.to_nat (JS.ceil_div (Z.of_nat (length data) - Z.of_nat j * P) P) in
    0 < P ->
    (left <= fuel)%nat ->
    exists s',
      packetLoop write_ok fuel data (Z.of_nat j * P) s = (s', Resolved tt)
      /\ PrinterService.io s'
         = PrinterService.io s
           ++ concat
                (map (fun k =>
                        Write (blockAt data (Z.to_nat P) k)
                        :: (if 0 <? d then [Pause d] else []))
                   (seq j left)).
Proof.
  induction fuel as [|fuel IH]; intros j s P d left HP Hfuel.
  - assert (Hleft : left = 0%nat) by lia.
    assert (Hdone : Z.of_nat (length data) - Z.of_nat j * P <= 0).
    { destruct (Z.le_gt_cases (Z.of_nat (length data) - Z.of_nat j * P) 0)
        as [?|Hgt]; [done|].
      pose proof (ceil_div_pos _ P HP Hgt). subst left. lia. }
    exists s. simpl. fold P.
    destruct (Z.ltb_spec (Z.of_nat j * P) (Z.of_nat (length data))); [lia|].
    rewrite Hleft. simpl. by rewrite app_nil_r.
  - destruct (Z.le_gt_cases (Z.of_nat (length data)) (Z.of_nat j * P))
      as [Hge|Hlt].
    + assert (Hleft : left = 0%nat).
      { pose proof (ceil_div_nonpos
          (Z.of_nat (length data) - Z.of_nat j * P) P HP). subst left. lia. }
      exists s. cbn [packetLoop]. fold P.
      destruct (Z.ltb_spec (Z.of_nat j * P) (Z.of_nat (length data))); [lia|].
      rewrite Hleft. simpl. by rewrite app_nil_r.
    + destruct (packet_step write_ok (blockAt data (Z.to_nat P) j) s)
        as (s1 & Hstep & Hio & Hp1 & Hc1); [apply all_ok|].
      rewrite <- slice_blockAt in Hstep by done. fold P in Hstep.
      rewrite (packetLoop_unfold write_ok fuel data _ s s1 Hlt Hstep). fold P.
      replace (Z.of_nat j * P + P) with (Z.of_nat (S j) * P) by lia.
      assert (HP1 : PrinterConfig.packetSize (PrinterService.config s1) = P)
        by (by rewrite Hc1).
      assert (Hd1 : PrinterConfig.packetDelay (PrinterService.config s1) = d)
        by (by rewrite Hc1).
      assert (Hstepn : left
        = S (Z.to_nat (JS.ceil_div
               (Z.of_nat (length data) - Z.of_nat (S j) * P) P))).
      { subst left.
        rewrite (ceil_div_step (Z.of_nat (length data) - Z.of_nat j * P) P HP).
        replace (Z.of_nat (length data) - Z.of_nat j * P - P)
          with (Z.of_nat (length data) - Z.of_nat (S j) * P) by lia.
        pose proof (ceil_div_bounds
          (Z.of_nat (length data) - Z.of_nat (S j) * P) P HP).
        assert (0 <= JS.ceil_div
          (Z.of_nat (length data) - Z.of_nat (S j) * P) P) by nia.
        lia. }
      destruct (IH (S j) s1) as (s2 & Hrun & Hio2).
      { by rewrite HP1. }
      { rewrite HP1. lia. }
      rewrite HP1 in Hrun, Hio2. rewrite Hd1 in Hio2.
      exists s2. split; [exact Hrun|].
      rewrite Hio2, Hio, Hstepn. cbn [seq map concat].
      fold d. rewrite <- !app_assoc. reflexivity.
Qed.

(** With a packet size that is not positive the loop writes without
    end: whatever the fuel, it is still pending after that many
    writes. *)
Lemma packetLoop_never_settles (data : list Z) (fuel : nat) :
  forall (i : Z) (s : PrinterService.t),
    PrinterConfig.packetSize (PrinterService.config s) <= 0 ->
    i <= 0 ->
    data <> [] ->
    exists s',
      packetLoop write_ok fuel data i s = (s', Pending)
      /\ length (writes (PrinterService.io s'))
         = (length (writes (PrinterService.io s)) + fuel)%nat.
Proof.
  induction fuel as [|fuel IH]; intros i s HP Hi Hdata.
  - exists s. cbn [packetLoop].
    destruct (Z.ltb_spec i (Z.of_nat (length data))) as [_|Hge].
    + split; [reflexivity|lia].
    + destruct data; [done|simpl in Hge; lia].
  - assert (Hlt : i < Z.of_nat (length data)).
    { destruct data; [done|simpl; lia]. }
    destruct (packet_step write_ok
                (JS.slice data i
                   (i + PrinterConfig.packetSize (PrinterService.config s))) s)
      as (s1 & Hstep & Hio & _ & Hc1); [apply all_ok|].
    rewrite (packetLoop_unfold write_ok fuel data _ s s1 Hlt Hstep).
    destruct (IH (i + PrinterConfig.packetSize (PrinterService.config s)) s1)
      as (s' & Hrun & Hlen); [by rewrite Hc1 | lia | done |].
    exists s'. split; [exact Hrun|].
    rewrite Hlen, Hio, writes_app, length_app. cbn [writes omap].
    destruct (0 <? PrinterConfig.packetDelay (PrinterService.config s));
      simpl; lia.
Qed.

End PacingFacts.

(** X9.  When every write completes and the packet size is positive,
    the effects of [sendDataInPackets] are, packet after packet, the
    write of the packet followed by one pause of [packetDelay]
    milliseconds when that delay is positive, and by nothing when it is
    not: no two writes without the pause between them, and a pause
    after the last packet too. *)
Theorem sendDataInPackets_pacing
    (write_ok : nat -> list Z -> bool) (data : list Z)
    (splitNumber totalSplits : Z) (s : PrinterService.t) :
  let P := PrinterConfig.packetSize (PrinterService.config s) in
  let d := PrinterConfig.packetDelay (PrinterService.config s) in
  (forall n chunk, write_ok n chunk = true) ->
  0 < P ->
  exists s',
    sendDataInPackets write_ok data splitNumber totalSplits s
      = (s', Resolved tt)
    /\ PrinterService.io s'
       = PrinterService.io s
         ++ concat
              (map (fun packet =>
                      Write packet :: (if 0 <? d then [Pause d] else []))
                 (blocks data (Z.to_nat P)
                    (Z.to_nat (JS.ceil_div (Z.of_nat (length data)) P)))).
Proof.
  intros P d Hok HP.
  pose proof (ceil_div_bounds (Z.of_nat (length data)) P HP) as Hceil.
  destruct (packetLoop_trace write_ok Hok data (length data) 0 s HP)
    as (s' & Hrun & Hio).
  { fold P. rewrite Z.mul_0_l, Z.sub_0_r.
    assert (JS.ceil_div (Z.of_nat (length data)) P <= Z.of_nat (length data))
      by nia.
    lia. }
  fold P d in Hrun, Hio. rewrite Z.mul_0_l, Z.sub_0_r in Hio.
  exists s'. split; [exact Hrun|].
  rewrite Hio. unfold blocks. by rewrite map_map.
Qed.

Lemma sendDataInPackets_pacing_witness :
  exists s',
    sendDataInPackets (fun _ _ => true) [1; 2; 3] 1 1
      (newPrinterService (PrinterConfig.mk 2 0 5)
         (getPrinterProtocol (IMAGE_DIMENSIONS 203)))
    = (s', Resolved tt)
    /\ PrinterService.io s'
       = [Write [1; 2]; Pause 5; Write [3]; Pause 5].
Proof.
  apply (sendDataInPackets_pacing (fun _ _ => true) [1; 2; 3] 1 1
           (newPrinterService (PrinterConfig.mk 2 0 5)
              (getPrinterProtocol (IMAGE_DIMENSIONS 203)))).
  - reflexivity.
  - simpl. lia.
Defined.

(** X10.  With a packet size of zero or less and a message that is not
    empty, [sendDataInPackets] never settles, even though every write
    completes: however long the loop is run, it has performed as many
    writes as it made iterations and is still pending. *)
Theorem sendDataInPackets_nonpositive_packet_size
    (write_ok : nat -> list Z -> bool) (data : list Z)
    (splitNumber totalSplits : Z) (s : PrinterService.t) :
  (forall n chunk, write_ok n chunk = true) ->
  PrinterConfig.packetSize (PrinterService.config s) <= 0 ->
  data <> [] ->
  (forall fuel : nat,
     exists s',
       packetLoop write_ok fuel data 0 s = (s', Pending)
       /\ length (writes (PrinterService.io s'))
          = (length (writes (PrinterService.io s)) + fuel)%nat)
  /\ snd (sendDataInPackets write_ok data splitNumber totalSplits s) = Pending.
Proof.
  intros Hok HP Hdata. split.
  - intros fuel.
    by apply (packetLoop_never_settles write_ok Hok data fuel 0 s).
  - destruct (packetLoop_never_settles write_ok Hok data (length data) 0 s)
      as (s' & Hrun & _); try done.
    unfold sendDataInPackets. by rewrite Hrun.
Qed.

Lemma sendDataInPackets_nonpositive_packet_size_witness :
  snd (sendDataInPackets (fun _ _ => true) [1; 2; 3] 1 1
         (newPrinterService (PrinterConfig.mk 0 0 0)
            (getPrinterProtocol (IMAGE_DIMENSIONS 203))))
  = Pending.
Proof.
  apply (proj2 (sendDataInPackets_nonpositive_packet_size
                  (fun _ _ => true) [1; 2; 3] 1 1
                  (newPrinterService (PrinterConfig.mk 0 0 0)
                     (getPrinterProtocol (IMAGE_DIMENSIONS 203)))
                  ltac:(reflexivity) ltac:(simpl; lia)
                  ltac:(discriminate))).
Defined.

(** ** The byte stream of [sendImageSplit] and [sendImageData] *)

Lemma Forall_blocks {A} (Q : A -> Prop) (l : list A) (size n : nat) :
  Forall Q l -> Forall (Forall Q) (blocks l size n).
Proof.
  intros Hl. unfold blocks, blockAt.
  induction (seq 0 n) as [|j js IH]; simpl; constructor; [|exact IH].
  by apply Forall_take, Forall_drop.
Qed.

Section StreamFacts.

Variable write_ok : nat -> list Z -> bool.
Hypothesis all_ok : forall n chunk, write_ok n chunk = true.

Lemma sendDataInPackets_stream (data : list Z) (a b : Z)
    (s : PrinterService.t) :
  0 < PrinterConfig.packetSize (PrinterService.config s) ->
  exists s' n,
    sendDataInPackets write_ok data a b s = (s', Resolved tt)
    /\ writes (PrinterService.io s')
       = writes (PrinterService.io s)
         ++ blocks data
              (Z.to_nat (PrinterConfig.packetSize (PrinterService.config s))) n
    /\ concat (blocks data
                 (Z.to_nat (PrinterConfig.packetSize (PrinterService.config s)))
                 n) = data
    /\ PrinterService.protocol s' = PrinterService.protocol s
    /\ PrinterService.config s' = PrinterService.config s.
Proof.
  intros HP.
  set (P := PrinterConfig.packetSize (PrinterService.config s)) in *.
  pose proof (ceil_div_bounds (Z.of_nat (length data)) P HP) as Hceil.
  assert (HnL : JS.ceil_div (Z.of_nat (length data)) P
                <= Z.of_nat (length data)) by nia.
  destruct (packetLoop_spec write_ok all_ok data (length data) 0 s HP)
    as (s' & Hrun & Hw & Hp & Hc).
  { fold P. rewrite Z.mul_0_l, Z.sub_0_r. lia. }
  fold P in Hrun, Hw. rewrite Z.mul_0_l, Z.sub_0_r in Hw.
  exists s', (Z.to_nat (JS.ceil_div (Z.of_nat (length data)) P)).
  split; [exact Hrun|]. split; [exact Hw|].
  split; [apply blocks_concat; nia | auto].
Qed.

(** The message of a split: its own prefix, then its data. *)
Lemma sendImageSplit_stream (split : ImageSplit.t) (s : PrinterService.t) :
  0 < PrinterConfig.packetSize (PrinterService.config s) ->
  exists s' packets,
    sendImageSplit write_ok split s = (s', Resolved tt)
    /\ writes (PrinterService.io s') = writes (PrinterService.io s) ++ packets
    /\ concat packets
       = PrinterProtocol.prefix (getPrinterProtocol (ImageSplit.dimensions split))
         ++ ImageSplit.data split
    /\ (forall Q : Z -> Prop,
          Forall Q (PrinterProtocol.prefix
                      (getPrinterProtocol (ImageSplit.dimensions split))
                    ++ ImageSplit.data split) ->
          Forall (Forall Q) packets)
    /\ PrinterService.protocol s'
       = getPrinterProtocol (ImageSplit.dimensions split)
    /\ PrinterService.config s' = PrinterService.config s.
Proof.
  intros HP. unfold sendImageSplit.
  set (s1 := setProtocol (getPrinterProtocol (ImageSplit.dimensions split)) s).
  destruct (sendDataInPackets_stream
              (PrinterProtocol.prefix (PrinterService.protocol s1)
               ++ ImageSplit.data split)
              (ImageSplit.splitIndex split + 1)
              (ImageSplit.totalSplits split) s1 HP)
    as (s' & n & Hrun & Hw & Hcat & Hp & Hc).
  exists s', (blocks (PrinterProtocol.prefix (PrinterService.protocol s1)
                      ++ ImageSplit.data split)
                (Z.to_nat (PrinterConfig.packetSize (PrinterService.config s1)))
                n).
  split; [exact Hrun|]. split; [exact Hw|]. split; [exact Hcat|].
  split; [intros Q HQ; by apply Forall_blocks|]. auto.
Qed.

Lemma sendSplits_stream (imageSplits : list ImageSplit.t) :
  forall s : PrinterService.t,
    0 < PrinterConfig.packetSize (PrinterService.config s) ->
    exists s' packets,
      sendSplits write_ok imageSplits s = (s', Resolved tt)
      /\ writes (PrinterService.io s') = writes (PrinterService.io s) ++ packets
      /\ concat packets
         = concat (map (fun split =>
                          PrinterProtocol.prefix
                            (getPrinterProtocol (ImageSplit.dimensions split))
                          ++ ImageSplit.data split)
                     imageSplits)
      /\ (forall Q : Z -> Prop,
            Forall (fun split =>
                      Forall Q (PrinterProtocol.prefix
                                  (getPrinterProtocol
                                     (ImageSplit.dimensions split))
                                ++ ImageSplit.data split))
              imageSplits ->
            Forall (Forall Q) packets)
      /\ PrinterService.config s' = PrinterService.config s
      /\ (PrinterService.protocol s' = PrinterService.protocol s
          \/ exists d, PrinterService.protocol s' = getPrinterProtocol d).
Proof.
  induction imageSplits as [|split rest IH]; intros s HP.
  - exists s, []. simpl. rewrite app_nil_r. repeat split; auto.
  - simpl. unfold await.
    destruct (sendImageSplit_stream split s HP)
      as (s1 & pk1 & -> & Hw1 & Hcat1 & HQ1 & Hp1 & Hc1).
    destruct (IH s1) as (s2 & pk2 & Hrun & Hw2 & Hcat2 & HQ2 & Hc2 & Hp2);
      [by rewrite Hc1|].
    exists s2, (pk1 ++ pk2).
    split; [exact Hrun|].
    split; [by rewrite Hw2, Hw1, app_assoc|].
    split; [by rewrite concat_app, Hcat1, Hcat2|].
    split.
    { intros Q HQ. apply Forall_cons in HQ as [Hhd Htl].
      apply Forall_app_2; [by apply HQ1 | by apply HQ2]. }
    split; [congruence|].
    right. destruct Hp2 as [Hsame|[d Hd]].
    + exists (ImageSplit.dimensions split). congruence.
    + by exists d.
Qed.

(** The whole stream of [sendImageData]: the frames of the splits, then
    the postfix in one write of its own. *)
Lemma sendImageData_stream (imageData : list Z) (dims d0 : ImageDimensions.t)
    (s : PrinterService.t) :
  0 < PrinterConfig.packetSize (PrinterService.config s) ->
  PrinterService.protocol s = getPrinterProtocol d0 ->
  exists s' packets,
    sendImageData write_ok imageData dims s = (s', Resolved tt)
    /\ PrinterService.config s' = PrinterService.config s
    /\ writes (PrinterService.io s')
       = writes (PrinterService.io s) ++ packets
         ++ [PrinterProtocol.postfix (getPrinterProtocol d0)]
    /\ concat packets
       = concat (map (fun split =>
                        PrinterProtocol.prefix
                          (getPrinterProtocol (ImageSplit.dimensions split))
                        ++ ImageSplit.data split)
                   (calculateImageSplits imageData dims))
    /\ (forall Q : Z -> Prop,
          Forall (fun split =>
                    Forall Q (PrinterProtocol.prefix
                                (getPrinterProtocol
                                   (ImageSplit.dimensions split))
                              ++ ImageSplit.data split))
            (calculateImageSplits imageData dims) ->
          Forall (Forall Q) packets)
    /\ exists io1,
         PrinterService.io s'
         = io1 ++ [Write (PrinterProtocol.postfix (getPrinterProtocol d0))].
Proof.
  intros HP Hinit. unfold sendImageData, await.
  destruct (sendSplits_stream (calculateImageSplits imageData dims) s HP)
    as (s1 & packets & -> & Hw & Hcat & HQ & Hc & Hp).
  rewrite writeData_ok by exact all_ok.
  assert (Hpost : PrinterProtocol.postfix (PrinterService.protocol s1)
                  = PrinterProtocol.postfix (getPrinterProtocol d0)).
  { destruct Hp as [Hsame|[d Hd]].
    - by rewrite Hsame, Hinit.
    - by rewrite Hd. }
  eexists. exists packets.
  split; [reflexivity|]. split; [exact Hc|].
  split; [|split; [exact Hcat | split; [exact HQ|]]].
  - rewrite writes_appendEffect_Write, Hw, <- app_assoc, Hpost. reflexivity.
  - exists (PrinterService.io s1). simpl. by rewrite Hpost.
Qed.

End StreamFacts.

(** X11.  When every write completes and the packet size is positive,
    the packets [sendImageSplit] writes are, joined together, the
    16-byte prefix computed from the split's own dimensions followed by
    the split's data, and nothing else; afterwards the protocol field
    holds the framing of that split. *)
Theorem sendImageSplit_frame
    (write_ok : nat -> list Z -> bool) (split : ImageSplit.t)
    (s : PrinterService.t) :
  (forall n chunk, write_ok n chunk = true) ->
  0 < PrinterConfig.packetSize (PrinterService.config s) ->
  exists s' packets,
    sendImageSplit write_ok split s = (s', Resolved tt)
    /\ writes (PrinterService.io s') = writes (PrinterService.io s) ++ packets
    /\ concat packets
       = PrinterProtocol.prefix (getPrinterProtocol (ImageSplit.dimensions split))
         ++ ImageSplit.data split
    /\ take 16 (concat packets)
       = PrinterProtocol.prefix (getPrinterProtocol (ImageSplit.dimensions split))
    /\ PrinterService.protocol s'
       = getPrinterProtocol (ImageSplit.dimensions split).
Proof.
  intros Hok HP.
  destruct (sendImageSplit_stream write_ok Hok split s HP)
    as (s' & packets & Hrun & Hw & Hcat & _ & Hp & _).
  exists s', packets.
  split; [exact Hrun|]. split; [exact Hw|]. split; [exact Hcat|].
  split; [|exact Hp].
  rewrite Hcat. reflexivity.
Qed.

Lemma sendImageSplit_frame_witness :
  exists s' packets,
    sendImageSplit (fun _ _ => true)
      {| ImageSplit.data := [1; 2; 3; 4];
         ImageSplit.dimensions :=
           {| ImageDimensions.width := 2;
              ImageDimensions.height := 2;
              ImageDimensions.dpi := 203 |};
         ImageSplit.splitIndex := 0;
         ImageSplit.totalSplits := 1 |}
      (newPrinterService (PrinterConfig.mk 6 0 0)
         (getPrinterProtocol (IMAGE_DIMENSIONS 203)))
    = (s', Resolved tt)
    /\ writes (PrinterService.io s') = packets
    /\ concat packets
       = [0x10; 0xFF; 0xFE; 0x01; 0x10; 0xFF; 0xFE; 0x40; 0x1D; 0x76; 0x30;
          0; 2; 0; 2; 0; 1; 2; 3; 4].
Proof.
  destruct (sendImageSplit_frame (fun _ _ => true)
              {| ImageSplit.data := [1; 2; 3; 4];
                 ImageSplit.dimensions :=
                   {| ImageDimensions.width := 2;
                      ImageDimensions.height := 2;
                      ImageDimensions.dpi := 203 |};
                 ImageSplit.splitIndex := 0;
                 ImageSplit.totalSplits := 1 |}
              (newPrinterService (PrinterConfig.mk 6 0 0)
                 (getPrinterProtocol (IMAGE_DIMENSIONS 203))))
    as (s' & packets & Hrun & Hw & Hcat & _).
  - reflexivity.
  - simpl. lia.
  - exists s', packets. split; [exact Hrun|]. split; [exact Hw | exact Hcat].
Defined.

Lemma frames_length (imageSplits : list ImageSplit.t) :
  length (concat (map (fun split =>
                         PrinterProtocol.prefix
                           (getPrinterProtocol (ImageSplit.dimensions split))
                         ++ ImageSplit.data split)
                    imageSplits))
  = (16 * length imageSplits
     + length (concat (map ImageSplit.data imageSplits)))%nat.
Proof.
  induction imageSplits as [|split rest IH]; [reflexivity|].
  cbn [map concat]. rewrite !length_app, IH.
  change (length (PrinterProtocol.prefix
                    (getPrinterProtocol (ImageSplit.dimensions split))))
    with 16%nat.
  simpl length. lia.
Qed.

(** X12.  When every write completes, the packet size is positive and
    the protocol field was built by [getPrinterProtocol], the writes of
    [sendImageData] are the packets of the splits followed by the
    7-byte postfix in one write of its own; joined together the packets
    are, split after split, each split's prefix and data.  For an image
    of [width * height] bytes that makes
    [16 * ceil(width / 255) + width * height + 7] bytes on the wire. *)
Theorem sendImageData_wire_stream
    (write_ok : nat -> list Z -> bool) (imageData : list Z)
    (dims d0 : ImageDimensions.t) (s : PrinterService.t) :
  let w := ImageDimensions.width dims in
  let h := ImageDimensions.height dims in
  (forall n chunk, write_ok n chunk = true) ->
  0 < PrinterConfig.packetSize (PrinterService.config s) ->
  PrinterService.protocol s = getPrinterProtocol d0 ->
  exists s' packets,
    sendImageData write_ok imageData dims s = (s', Resolved tt)
    /\ writes (PrinterService.io s')
       = writes (PrinterService.io s) ++ packets
         ++ [[0x1B; 0x4A; 0x40; 0x10; 0xFF; 0xFE; 0x45]]
    /\ concat packets
       = concat (map (fun split =>
                        PrinterProtocol.prefix
                          (getPrinterProtocol (ImageSplit.dimensions split))
                        ++ ImageSplit.data split)
                   (calculateImageSplits imageData dims))
    /\ (0 <= w -> 0 <= h -> Z.of_nat (length imageData) = w * h ->
        Z.of_nat (length (concat packets)) + 7
        = 16 * JS.ceil_div w 255 + w * h + 7).
Proof.
  intros w h Hok HP Hinit.
  destruct (sendImageData_stream write_ok Hok imageData dims d0 s HP Hinit)
    as (s' & packets & Hrun & _ & Hw & Hcat & _).
  exists s', packets.
  split; [exact Hrun|]. split; [exact Hw|]. split; [exact Hcat|].
  intros Hw0 Hh0 Hlen.
  rewrite Hcat, frames_length.
  rewrite (split_data_concat imageData dims Hh0). fold w h.
  rewrite length_take.
  rewrite calculateImageSplits_unfold_any, length_map, length_seq. fold w.
  pose proof (ceil_div_bounds w 255 ltac:(lia)).
  unfold MAX_PRINTER_WIDTH.
  assert (0 <= JS.ceil_div w 255) by nia.
  lia.
Qed.

Lemma sendImageData_wire_stream_witness :
  exists s' packets,
    sendImageData (fun _ _ => true) (repeat 0 600)
      {| ImageDimensions.width := 300;
         ImageDimensions.height := 2;
         ImageDimensions.dpi := 203 |}
      (newPrinterService (PrinterConfig.mk 122 2000 0)
         (getPrinterProtocol (IMAGE_DIMENSIONS 203)))
    = (s', Resolved tt)
    /\ writes (PrinterService.io s')
       = packets ++ [[0x1B; 0x4A; 0x40; 0x10; 0xFF; 0xFE; 0x45]]
    /\ Z.of_nat (length (concat packets)) + 7 = 639.
Proof.
  destruct (sendImageData_wire_stream (fun _ _ => true) (repeat 0 600)
              {| ImageDimensions.width := 300;
                 ImageDimensions.height := 2;
                 ImageDimensions.dpi := 203 |}
              (IMAGE_DIMENSIONS 203)
              (newPrinterService (PrinterConfig.mk 122 2000 0)
                 (getPrinterProtocol (IMAGE_DIMENSIONS 203))))
    as (s' & packets & Hrun & Hw & _ & Hcount).
  - reflexivity.
  - simpl. lia.
  - reflexivity.
  - exists s', packets. split; [exact Hrun|]. split; [exact Hw|].
    simpl in Hcount. rewrite Hcount; [reflexivity | lia | lia | reflexivity].
Defined.

(** ** What [sendImageData] hands to the port *)

Lemma Forall_slice {A} (Q : A -> Prop) (l : list A) (a b : Z) :
  Forall Q l -> Forall Q (JS.slice l a b).
Proof. intros Hl. unfold JS.slice. by apply Forall_take, Forall_drop. Qed.

Lemma prefix_bytes (d : ImageDimensions.t) :
  0 <= ImageDimensions.height d < 65536 ->
  0 <= ImageDimensions.width d < 65536 ->
  Forall is_byte (PrinterProtocol.prefix (getPrinterProtocol d)).
Proof.
  intros Hh Hw. rewrite prefix_layout by assumption.
  repeat apply Forall_app_2.
  - unfold PREFIX_HEADER, is_byte. repeat constructor; lia.
  - by apply be16_bytes.
  - by apply be16_bytes.
  - unfold is_byte. repeat constructor; lia.
Qed.

Lemma split_frames_bytes (imageData : list Z) (d : ImageDimensions.t) :
  Forall is_byte imageData ->
  0 <= ImageDimensions.height d < 65536 ->
  Forall (fun split =>
            Forall is_byte
              (PrinterProtocol.prefix
                 (getPrinterProtocol (ImageSplit.dimensions split))
               ++ ImageSplit.data split))
    (calculateImageSplits imageData d).
Proof.
  intros Hdata Hh. rewrite calculateImageSplits_unfold_any.
  pose proof (ceil_div_bounds (ImageDimensions.width d) 255 ltac:(lia))
    as Hceil.
  unfold MAX_PRINTER_WIDTH.
  apply Forall_map, Forall_forall. intros k Hk.
  apply list_elem_of_In, in_seq in Hk.
  apply Forall_app_2.
  - apply prefix_bytes; simpl; [exact Hh|].
    unfold JS.min, MAX_PRINTER_WIDTH. lia.
  - by apply Forall_slice.
Qed.

(** X13.  When the image consists of bytes and the height fits in 16
    bits, every number [sendImageData] hands to the port is a byte,
    whatever the width: the width field of every prefix is that of a
    split, at most 255. *)
Theorem sendImageData_writes_bytes
    (write_ok : nat -> list Z -> bool) (imageData : list Z)
    (dims d0 : ImageDimensions.t) (s : PrinterService.t) :
  (forall n chunk, write_ok n chunk = true) ->
  0 < PrinterConfig.packetSize (PrinterService.config s) ->
  PrinterService.protocol s = getPrinterProtocol d0 ->
  Forall is_byte imageData ->
  0 <= ImageDimensions.height dims < 65536 ->
  exists s' added,
    sendImageData write_ok imageData dims s = (s', Resolved tt)
    /\ writes (PrinterService.io s') = writes (PrinterService.io s) ++ added
    /\ Forall (Forall is_byte) added.
Proof.
  intros Hok HP Hinit Hdata Hh.
  destruct (sendImageData_stream write_ok Hok imageData dims d0 s HP Hinit)
    as (s' & packets & Hrun & _ & Hw & _ & HQ & _).
  exists s', (packets ++ [PrinterProtocol.postfix (getPrinterProtocol d0)]).
  split; [exact Hrun|]. split; [exact Hw|].
  apply Forall_app_2.
  - apply HQ. by apply split_frames_bytes.
  - constructor; [|constructor]. unfold is_byte. simpl.
    repeat constructor; lia.
Qed.

Lemma sendImageData_writes_bytes_witness :
  exists s' added,
    sendImageData (fun _ _ => true) (repeat 255 600)
      {| ImageDimensions.width := 300;
         ImageDimensions.height := 2;
         ImageDimensions.dpi := 203 |}
      (newPrinterService (PrinterConfig.mk 122 2000 0)
         (getPrinterProtocol (IMAGE_DIMENSIONS 203)))
    = (s', Resolved tt)
    /\ writes (PrinterService.io s') = added
    /\ Forall (Forall is_byte) added.
Proof.
  apply (sendImageData_writes_bytes (fun _ _ => true) (repeat 255 600)
           {| ImageDimensions.width := 300;
              ImageDimensions.height := 2;
              ImageDimensions.dpi := 203 |}
           (IMAGE_DIMENSIONS 203)
           (newPrinterService (PrinterConfig.mk 122 2000 0)
              (getPrinterProtocol (IMAGE_DIMENSIONS 203)))).
  - reflexivity.
  - simpl. lia.
  - reflexivity.
  - apply Forall_forall. intros b Hb.
    apply list_elem_of_In, repeat_spec in Hb. subst b. unfold is_byte. lia.
  - simpl. lia.
Defined.

(** ** [sendImageData] on a port that may refuse writes *)

Lemma accepted_nil (write_ok : nat -> list Z -> bool) (io0 : list Effect) :
  accepted write_ok io0 [].
Proof. intros n chunk Hn. cbn in Hn. by rewrite lookup_nil in Hn. Qed.

Lemma accepted_app (write_ok : nat -> list Z -> bool)
    (io0 t1 t2 : list Effect) :
  accepted write_ok io0 t1 ->
  accepted write_ok (io0 ++ t1) t2 ->
  accepted write_ok io0 (t1 ++ t2).
Proof.
  intros H1 H2 n chunk Hn. rewrite writes_app in Hn.
  apply lookup_app_Some in Hn as [Hn|[Hge Hn]].
  - by apply H1.
  - apply H2 in Hn. rewrite writes_app, length_app in Hn.
    replace (length (writes io0) + n)%nat
      with (length (writes io0) + length (writes t1)
            + (n - length (writes t1)))%nat by lia.
    exact Hn.
Qed.

Section Follows.

Variable write_ok : nat -> list Z -> bool.

Lemma follows_writeData (data : list Z) (s : PrinterService.t) :
  follows write_ok (PrinterService.io s)
    (writeData accepting data s) (writeData write_ok data s).
Proof.
  exists (appendEffect (Write data) s), tt, [Write data].
  split; [reflexivity|]. split; [reflexivity|].
  unfold writeData.
  destruct (write_ok (length (writes (PrinterService.io s))) data) eqn:Hw.
  - left. split; [reflexivity|].
    intros [|n] chunk Hn; cbn in Hn; [|by destruct n].
    injection Hn as <-. by rewrite Nat.add_0_r.
  - right. exists s, [], data, []. rewrite !app_nil_r.
    repeat split; [apply accepted_nil | exact Hw].
Qed.

(** An operation that writes nothing runs the same on every port. *)
Lemma follows_silent {A} (m : Async A) (s s1 : PrinterService.t) (a : A)
    (trace : list Effect) :
  m s = (s1, Resolved a) ->
  PrinterService.io s1 = PrinterService.io s ++ trace ->
  writes trace = [] ->
  follows write_ok (PrinterService.io s) (m s) (m s).
Proof.
  intros Hm Hio Hw. exists s1, a, trace.
  split; [exact Hm|]. split; [exact Hio|]. left. split; [exact Hm|].
  intros n chunk Hn. rewrite Hw in Hn. by rewrite lookup_nil in Hn.
Qed.

Lemma follows_delay (ms : Z) (s : PrinterService.t) :
  follows write_ok (PrinterService.io s) (delay ms s) (delay ms s).
Proof.
  unfold delay. destruct (0 <? ms).
  - by apply (follows_silent (fun s => (appendEffect (Pause ms) s, Resolved tt))
                s (appendEffect (Pause ms) s) tt [Pause ms]).
  - apply (follows_silent (fun s => (s, Resolved tt)) s s tt []);
      [reflexivity | by rewrite app_nil_r | reflexivity].
Qed.

Lemma follows_await {A B} (m mAll : Async A) (k kAll : A -> Async B)
    (s : PrinterService.t) :
  follows write_ok (PrinterService.io s) (mAll s) (m s) ->
  (forall s1 a, mAll s = (s1, Resolved a) ->
     follows write_ok (PrinterService.io s1) (kAll a s1) (k a s1)) ->
  follows write_ok (PrinterService.io s) (await mAll kAll s) (await m k s).
Proof.
  intros (s1 & a & t1 & HmAll & Hio1 & Hm) Hk.
  destruct (Hk s1 a HmAll) as (s2 & b & t2 & HkAll & Hio2 & Hk2).
  exists s2, b, (t1 ++ t2).
  split; [unfold await; by rewrite HmAll|].
  split; [by rewrite Hio2, Hio1, app_assoc|].
  destruct Hm as [[Hm Hacc1]|(s' & pre & chunk & post & Hm & -> & Hio' & Hacc & Href)].
  - assert (Hawait : await m k s = k a s1)
      by (unfold await; by rewrite Hm).
    rewrite Hawait.
    destruct Hk2 as [[Hk2 Hacc2]|(s' & pre & chunk & post & Hk2 & -> & Hio' & Hacc & Href)].
    + left. split; [exact Hk2|]. apply accepted_app; [exact Hacc1|].
      by rewrite <- Hio1.
    + right. exists s', (t1 ++ pre), chunk, post.
      split; [exact Hk2|]. split; [by rewrite app_assoc|].
      split; [by rewrite Hio', Hio1, app_assoc|].
      split; [apply accepted_app; [exact Hacc1|by rewrite <- Hio1]|].
      by rewrite app_assoc, <- Hio1.
  - right. exists s', pre, chunk, (post ++ t2).
    split; [unfold await; by rewrite Hm|].
    split; [by rewrite <- app_assoc|]. done.
Qed.

(** [follows] looks at the effects of the starting state only. *)
Lemma follows_packetLoop (data : list Z) (fuel : nat) :
  forall (i : Z) (s sAll : PrinterService.t),
    packetLoop accepting fuel data i s = (sAll, Resolved tt) ->
    follows write_ok (PrinterService.io s)
      (packetLoop accepting fuel data i s) (packetLoop write_ok fuel data i s).
Proof.
  induction fuel as [|fuel IH]; intros i s sAll Hall; cbn [packetLoop] in *.
  - destruct (i <? Z.of_nat (length data)); [discriminate Hall|].
    apply (follows_silent (fun s => (s, Resolved tt)) s s tt []);
      [reflexivity | by rewrite app_nil_r | reflexivity].
  - destruct (i <? Z.of_nat (length data)).
    2:{ apply (follows_silent (fun s => (s, Resolved tt)) s s tt []);
          [reflexivity | by rewrite app_nil_r | reflexivity]. }
    apply follows_await; [apply follows_writeData|].
    intros s1 [] Hs1. 
    apply follows_await; [apply follows_delay|].
    intros s2 [] Hs2.
    unfold await in Hall. rewrite Hs1, Hs2 in Hall.
    by apply (IH _ s2 sAll).
Qed.

Lemma follows_sendImageSplit (split : ImageSplit.t)
    (s sAll : PrinterService.t) :
  sendImageSplit accepting split s = (sAll, Resolved tt) ->
  follows write_ok (PrinterService.io s)
    (sendImageSplit accepting split s) (sendImageSplit write_ok split s).
Proof.
  unfold sendImageSplit, sendDataInPackets. intros Hall.
  by apply (follows_packetLoop _ _ 0
              (setProtocol (getPrinterProtocol (ImageSplit.dimensions split)) s)
              sAll).
Qed.

Lemma follows_sendSplits (imageSplits : list ImageSplit.t) :
  forall s sAll : PrinterService.t,
    sendSplits accepting imageSplits s = (sAll, Resolved tt) ->
    follows write_ok (PrinterService.io s)
      (sendSplits accepting imageSplits s) (sendSplits write_ok imageSplits s).
Proof.
  induction imageSplits as [|split rest IH]; intros s sAll Hall;
    cbn [sendSplits] in *.
  - apply (follows_silent (fun s => (s, Resolved tt)) s s tt []);
      [reflexivity | by rewrite app_nil_r | reflexivity].
  - unfold await in Hall.
    destruct (sendImageSplit accepting split s) as [s1 [[]| |]] eqn:Hs1;
      try discriminate Hall.
    apply follows_await.
    + by apply (follows_sendImageSplit split s s1).
    + intros s1' [] Hs1'. rewrite Hs1 in Hs1'. injection Hs1' as <-.
      by apply (IH s1 sAll).
Qed.

Lemma follows_sendImageData (imageData : list Z) (dims : ImageDimensions.t)
    (s : PrinterService.t) :
  0 < PrinterConfig.packetSize (PrinterService.config s) ->
  follows write_ok (PrinterService.io s)
    (sendImageData accepting imageData dims s)
    (sendImageData write_ok imageData dims s).
Proof.
  intros HP. unfold sendImageData.
  destruct (sendSplits_resolves accepting ltac:(done)
              (calculateImageSplits imageData dims) s HP)
    as (s1 & Hs1 & _).
  apply follows_await.
  - by apply (follows_sendSplits _ s s1).
  - intros s1' [] _. apply follows_writeData.
Qed.

End Follows.

(** X14.  With a positive packet size [sendImageData] settles whatever
    the port does, and it does what it would do on a port that accepts
    every write, up to the first write the port refuses: either every
    write is accepted and it resolves, in the same state; or it is
    rejected, and then its effects are those that come before a write
    in the run on the accepting port, all of them accepted, and the
    port has refused that very write.  It never stays pending, and
    after a refused write it neither writes nor pauses. *)
Theorem sendImageData_always_settles
    (write_ok : nat -> list Z -> bool) (imageData : list Z)
    (dims : ImageDimensions.t) (s : PrinterService.t) :
  0 < PrinterConfig.packetSize (PrinterService.config s) ->
  exists (sAll : PrinterService.t) (trace : list Effect),
    sendImageData accepting imageData dims s = (sAll, Resolved tt)
    /\ PrinterService.io sAll = PrinterService.io s ++ trace
    /\ exists s',
         (sendImageData write_ok imageData dims s = (s', Resolved tt)
          /\ s' = sAll
          /\ accepted write_ok (PrinterService.io s) trace)
         \/ (sendImageData write_ok imageData dims s = (s', Rejected)
             /\ exists (pre : list Effect) (chunk : list Z)
                       (post : list Effect),
                  trace = pre ++ Write chunk :: post
                  /\ PrinterService.io s' = PrinterService.io s ++ pre
                  /\ accepted write_ok (PrinterService.io s) pre
                  /\ write_ok (length (writes (PrinterService.io s'))) chunk
                     = false).
Proof.
  intros HP.
  destruct (follows_sendImageData write_ok imageData dims s HP)
    as (sAll & [] & trace & Hall & Hio & Hrun).
  exists sAll, trace. split; [exact Hall|]. split; [exact Hio|].
  destruct Hrun as [[Hrun Hacc]
                   |(s' & pre & chunk & post & Hrun & -> & Hio' & Hacc & Href)].
  - exists sAll. left. done.
  - exists s'. right. split; [exact Hrun|].
    exists pre, chunk, post. rewrite Hio'. done.
Qed.

Lemma sendImageData_always_settles_witness :
  exists s',
    sendImageData (fun n _ => (n <? 1)%nat) [1; 2; 3; 4]
      {| ImageDimensions.width := 2;
         ImageDimensions.height := 2;
         ImageDimensions.dpi := 203 |}
      (newPrinterService (PrinterConfig.mk 8 5 0)
         (getPrinterProtocol (IMAGE_DIMENSIONS 203)))
    = (s', Rejected)
    /\ PrinterService.io s'
       = [Write [0x10; 0xFF; 0xFE; 0x01; 0x10; 0xFF; 0xFE; 0x40]].
Proof.
  destruct (sendImageData_always_settles (fun n _ => (n <? 1)%nat)
              [1; 2; 3; 4]
              {| ImageDimensions.width := 2;
                 ImageDimensions.height := 2;
                 ImageDimensions.dpi := 203 |}
              (newPrinterService (PrinterConfig.mk 8 5 0)
                 (getPrinterProtocol (IMAGE_DIMENSIONS 203)))
              ltac:(simpl; lia))
    as (sAll & trace & _ & _ & s' & [(Hrun & _)|(Hrun & _)]).
  - discriminate Hrun.
  - exists s'. split; [exact Hrun|].
    by injection Hrun as <-.
Defined.

(** ** jsonPrinterApp.ts: [handleConnection] *)

Lemma createImageFromJson_fields
    (canvas_stride : Canvas.t -> Z) (canvas_toBuffer : Canvas.t -> list Z)
    (dimensions : ImageDimensions.t) (options : JsonRenderOptions.t)
    (image : JsonImage.t) :
  createImageFromJson canvas_stride canvas_toBuffer dimensions options
    = Some image ->
  JsonImage.config image
    = getCanvasConfig
        (effectiveDimensions dimensions (JsonRenderOptions.template options))
        (dummyOptions (JsonRenderOptions.template options))
  /\ JsonImage.imageData image
     = canvasToImageData (canvas_stride (JsonImage.canvas image))
         (canvas_toBuffer (JsonImage.canvas image)) (JsonImage.config image).
Proof.
  unfold createImageFromJson, setupCanvas.
  destruct (renderFromTemplate _ _ _ _) as [[canvas errors]|];
    simpl; [|discriminate].
  intros [= <-]. done.
Qed.

Section AppFacts.

Variable write_ok : nat -> list Z -> bool.
Variable device_reply : option (list Z).
Variable Buffer_toString : list Z -> string.
Variable canvas_stride : Canvas.t -> Z.
Variable canvas_toBuffer : Canvas.t -> list Z.
Variable printer_dpi : Z.

(** The image handed to [sendImageData] and the dimensions it is sent
    with: the width of the canvas, but always the height 17 of
    [IMAGE_DIMENSIONS]. *)
Lemma renderTemplate_image (template : RenderTemplate.t)
    (variables : option Variables) (image : JsonImage.t) :
  renderTemplate canvas_stride canvas_toBuffer printer_dpi template variables
    = Some image ->
  let w := CanvasConfig.width (JsonImage.config image) in
  let effH := effectiveHeight template (IMAGE_DIMENSIONS printer_dpi) in
  Z.of_nat (length (JsonImage.imageData image)) = Z.max 0 w * Z.max 0 effH
  /\ concat (map ImageSplit.data
               (calculateImageSplits (JsonImage.imageData image)
                  (printDimensions printer_dpi image)))
     = take (Z.to_nat (w * 17)) (JsonImage.imageData image).
Proof.
  intros Himage w effH.
  apply createImageFromJson_fields in Himage as [Hconfig Hdata].
  simpl in Hconfig.
  split.
  - rewrite Hdata, canvasToImageData_length_any. fold w.
    f_equal. f_equal.
    rewrite Hconfig. unfold getCanvasConfig, IMAGE_CONFIG.HEIGHT_MULTIPLIER.
    simpl.
    destruct (effectiveDimensions_spec (IMAGE_DIMENSIONS printer_dpi) template)
      as [_ ->].
    fold effH. apply Z.div_mul. lia.
  - rewrite split_data_concat by (simpl; lia). reflexivity.
Qed.

End AppFacts.

(** X15.  [handleConnection] sends the rendered image with the canvas
    width but always with the height 17 of [IMAGE_DIMENSIONS]: the data
    of the splits are the first [width * 17] bytes of the packed image,
    which has [width * effectiveHeight] bytes.  With the default height
    the whole image is transmitted; with a template height above 17 the
    bytes after the first [width * 17] are never transmitted. *)
Theorem handleConnection_transmitted_image
    (canvas_stride : Canvas.t -> Z) (canvas_toBuffer : Canvas.t -> list Z)
    (printer_dpi : Z) (template : RenderTemplate.t)
    (variables : option Variables) (image : JsonImage.t) :
  renderTemplate canvas_stride canvas_toBuffer printer_dpi template variables
    = Some image ->
  let w := CanvasConfig.width (JsonImage.config image) in
  let effH := effectiveHeight template (IMAGE_DIMENSIONS printer_dpi) in
  let sent :=
    concat (map ImageSplit.data
              (calculateImageSplits (JsonImage.imageData image)
                 (printDimensions printer_dpi image))) in
  Z.of_nat (length (JsonImage.imageData image)) = Z.max 0 w * Z.max 0 effH
  /\ sent = take (Z.to_nat (w * 17)) (JsonImage.imageData image)
  /\ (effH = 17 -> sent = JsonImage.imageData image)
  /\ (0 < w -> 17 < effH ->
      (length sent < length (JsonImage.imageData image))%nat).
Proof.
  intros Himage w effH sent.
  destruct (renderTemplate_image canvas_stride canvas_toBuffer printer_dpi
              template variables image Himage) as [Hlen Hsent].
  fold w effH in Hlen. fold w sent in Hsent.
  split; [exact Hlen|]. split; [exact Hsent|]. split.
  - intros H17. rewrite Hsent. apply take_ge. rewrite H17 in Hlen. lia.
  - intros Hw Hh. rewrite Hsent, length_take. nia.
Qed.

Lemma handleConnection_transmitted_image_witness :
  exists image,
    renderTemplate (fun _ => 0) (fun _ => []) 203 empty_template None
      = Some image
    /\ concat (map ImageSplit.data
                 (calculateImageSplits (JsonImage.imageData image)
                    (printDimensions 203 image)))
       = JsonImage.imageData image.
Proof.
  eexists. split; [reflexivity|].
  refine (proj1 (proj2 (proj2
            (handleConnection_transmitted_image (fun _ => 0) (fun _ => [])
               203 empty_template None _ eq_refl))) eq_refl).
Defined.

Section HandleConnection.

Variable write_ok : nat -> list Z -> bool.
Variable device_reply : option (list Z).
Variable Buffer_toString : list Z -> string.
Variable canvas_stride : Canvas.t -> Z.
Variable canvas_toBuffer : Canvas.t -> list Z.
Variable printer_dpi : Z.

Lemma getFirmwareVersion_replied (s : PrinterService.t) (reply : list Z) :
  write_ok (length (writes (PrinterService.io s)))
    (PrinterProtocol.firmwareRequest (PrinterService.protocol s)) = true ->
  device_reply = Some reply ->
  getFirmwareVersion write_ok device_reply Buffer_toString s
  = (appendEffect
       (Write (PrinterProtocol.firmwareRequest (PrinterService.protocol s))) s,
     Resolved (Buffer_toString reply)).
Proof.
  intros Hok Hreply.
  unfold getFirmwareVersion, await, writeData, waitForData, resolve.
  by rewrite Hok, Hreply.
Qed.

Lemma handleConnection_replied (template : RenderTemplate.t)
    (variables : option Variables) (s : PrinterService.t)
    (reply : list Z) (image : JsonImage.t) :
  write_ok (length (writes (PrinterService.io s)))
    (PrinterProtocol.firmwareRequest (PrinterService.protocol s)) = true ->
  device_reply = Some reply ->
  renderTemplate canvas_stride canvas_toBuffer printer_dpi template variables
    = Some image ->
  handleConnection write_ok device_reply Buffer_toString canvas_stride
    canvas_toBuffer printer_dpi template variables s
  = match
      (sendImageData write_ok (JsonImage.imageData image)
         (printDimensions printer_dpi image) ;;;
       waitForCompletion)
        (appendEffect
           (Write (PrinterProtocol.firmwareRequest (PrinterService.protocol s)))
           s)
    with
    | (s2, Resolved _) => (s2, Exit 0)
    | (s2, Rejected) => (s2, Exit 1)
    | (s2, Pending) => (s2, Hang)
    end.
Proof.
  intros Hok Hreply Hrender. unfold handleConnection.
  by rewrite (getFirmwareVersion_replied s reply Hok Hreply), Hrender.
Qed.

End HandleConnection.

(** X16.  A run in which the printer answers, every write completes,
    the packet size is positive and the rendering ends exits with code
    0.  Its writes are, in this order: the firmware request, the packets
    of the splits, the postfix.  When [exitDelay] is positive the last
    thing the run does is to pause for that long; otherwise it is the
    write of the postfix. *)
Theorem handleConnection_success
    (write_ok : nat -> list Z -> bool) (reply : list Z)
    (Buffer_toString : list Z -> string)
    (canvas_stride : Canvas.t -> Z) (canvas_toBuffer : Canvas.t -> list Z)
    (printer_dpi : Z) (printerConfig : PrinterConfig.t)
    (template : RenderTemplate.t) (variables : option Variables)
    (image : JsonImage.t) :
  (forall n chunk, write_ok n chunk = true) ->
  0 < PrinterConfig.packetSize printerConfig ->
  renderTemplate canvas_stride canvas_toBuffer printer_dpi template variables
    = Some image ->
  exists s' packets,
    handleConnection write_ok (Some reply) Buffer_toString canvas_stride
      canvas_toBuffer printer_dpi template variables
      (appPrinterService printer_dpi printerConfig)
    = (s', Exit 0)
    /\ writes (PrinterService.io s')
       = [[0x10; 0xFF; 0x20; 0xF1]] ++ packets
         ++ [[0x1B; 0x4A; 0x40; 0x10; 0xFF; 0xFE; 0x45]]
    /\ concat packets
       = concat (map (fun split =>
                        PrinterProtocol.prefix
                          (getPrinterProtocol (ImageSplit.dimensions split))
                        ++ ImageSplit.data split)
                   (calculateImageSplits (JsonImage.imageData image)
                      (printDimensions printer_dpi image)))
    /\ last (PrinterService.io s')
       = Some (if 0 <? PrinterConfig.exitDelay printerConfig
               then Pause (PrinterConfig.exitDelay printerConfig)
               else Write [0x1B; 0x4A; 0x40; 0x10; 0xFF; 0xFE; 0x45]).
Proof.
  intros Hok HP Hrender.
  rewrite (handleConnection_replied write_ok (Some reply) Buffer_toString
             canvas_stride canvas_toBuffer printer_dpi template variables
             (appPrinterService printer_dpi printerConfig) reply image
             (Hok _ _) eq_refl Hrender).
  set (s1 := appendEffect _ (appPrinterService printer_dpi printerConfig)).
  destruct (sendImageData_stream write_ok Hok (JsonImage.imageData image)
              (printDimensions printer_dpi image)
              (IMAGE_DIMENSIONS printer_dpi) s1 HP eq_refl)
    as (s2 & packets & Hrun & Hc & Hw & Hcat & _ & io1 & Hio).
  unfold await. rewrite Hrun.
  unfold waitForCompletion, delay. rewrite Hc. simpl PrinterService.config.
  destruct (0 <? PrinterConfig.exitDelay printerConfig).
  - eexists. exists packets. split; [reflexivity|].
    split; [|split; [exact Hcat|]].
    + simpl. rewrite writes_app, Hw. simpl. by rewrite app_nil_r.
    + simpl. apply last_snoc.
  - exists s2, packets. split; [reflexivity|].
    split; [exact Hw|]. split; [exact Hcat|].
    rewrite Hio. apply last_snoc.
Qed.

Lemma handleConnection_success_witness :
  exists s' packets,
    handleConnection (fun _ _ => true) (Some [86; 49]) (fun _ => "V1"%string)
      (fun _ => 0) (fun _ => []) 203 empty_template None
      (appPrinterService 203 (PrinterConfig.mk 122 2000 0))
    = (s', Exit 0)
    /\ writes (PrinterService.io s')
       = [[0x10; 0xFF; 0x20; 0xF1]] ++ packets
         ++ [[0x1B; 0x4A; 0x40; 0x10; 0xFF; 0xFE; 0x45]]
    /\ last (PrinterService.io s') = Some (Pause 2000).
Proof.
  destruct (handleConnection_success (fun _ _ => true) [86; 49]
              (fun _ => "V1"%string) (fun _ => 0) (fun _ => []) 203
              (PrinterConfig.mk 122 2000 0) empty_template None
              _ ltac:(reflexivity) ltac:(simpl; lia) eq_refl)
    as (s' & packets & Hrun & Hw & _ & Hlast).
  exists s', packets. split; [exact Hrun|]. split; [exact Hw | exact Hlast].
Defined.

(** X17.  A printer that never answers the firmware request leaves the
    run hanging, whatever the template: the firmware request is the
    only write, nothing is rendered or sent, and the process never
    exits.  There is no timeout. *)
Theorem handleConnection_no_reply
    (write_ok : nat -> list Z -> bool) (Buffer_toString : list Z -> string)
    (canvas_stride : Canvas.t -> Z) (canvas_toBuffer : Canvas.t -> list Z)
    (printer_dpi : Z) (printerConfig : PrinterConfig.t)
    (template : RenderTemplate.t) (variables : option Variables) :
  write_ok 0%nat [0x10; 0xFF; 0x20; 0xF1] = true ->
  exists s',
    handleConnection write_ok None Buffer_toString canvas_stride
      canvas_toBuffer printer_dpi template variables
      (appPrinterService printer_dpi printerConfig)
    = (s', Hang)
    /\ PrinterService.io s' = [Write [0x10; 0xFF; 0x20; 0xF1]].
Proof.
  intros Hok. unfold handleConnection, getFirmwareVersion, await, writeData.
  simpl. rewrite Hok. simpl.
  eexists. split; reflexivity.
Qed.

Lemma handleConnection_no_reply_witness :
  exists s',
    handleConnection (fun _ _ => true) None (fun _ => "V1"%string)
      (fun _ => 0) (fun _ => []) 203 empty_template None
      (appPrinterService 203 (PrinterConfig.mk 122 2000 0))
    = (s', Hang)
    /\ PrinterService.io s' = [Write [0x10; 0xFF; 0x20; 0xF1]].
Proof.
  apply (handleConnection_no_reply (fun _ _ => true) (fun _ => "V1"%string)
           (fun _ => 0) (fun _ => []) 203 (PrinterConfig.mk 122 2000 0)
           empty_template None).
  reflexivity.
Defined.

(** X18.  When the printer answers, the rendering ends and the packet
    size is positive, the run always exits, with code 0 or 1, whatever
    the port does, and it does what the run on a port that accepts
    every write does, up to the first write the port refuses.  It exits
    with code 0 when every write is accepted, in the same state.  It
    exits with code 1 otherwise, and then its effects are those that
    come before a write in the run on the accepting port, all of them
    accepted, and the port has refused that very write: after a refused
    write nothing more is written and there is no pause before the
    exit. *)
Theorem handleConnection_exit_code
    (write_ok : nat -> list Z -> bool) (reply : list Z)
    (Buffer_toString : list Z -> string)
    (canvas_stride : Canvas.t -> Z) (canvas_toBuffer : Canvas.t -> list Z)
    (printer_dpi : Z) (printerConfig : PrinterConfig.t)
    (template : RenderTemplate.t) (variables : option Variables)
    (image : JsonImage.t) :
  0 < PrinterConfig.packetSize printerConfig ->
  renderTemplate canvas_stride canvas_toBuffer printer_dpi template variables
    = Some image ->
  exists sAll : PrinterService.t,
    handleConnection accepting (Some reply) Buffer_toString canvas_stride
      canvas_toBuffer printer_dpi template variables
      (appPrinterService printer_dpi printerConfig)
    = (sAll, Exit 0)
    /\ exists s',
         (handleConnection write_ok (Some reply) Buffer_toString
            canvas_stride canvas_toBuffer printer_dpi template variables
            (appPrinterService printer_dpi printerConfig)
          = (s', Exit 0)
          /\ s' = sAll
          /\ accepted write_ok [] (PrinterService.io sAll))
         \/ (handleConnection write_ok (Some reply) Buffer_toString
               canvas_stride canvas_toBuffer printer_dpi template variables
               (appPrinterService printer_dpi printerConfig)
             = (s', Exit 1)
             /\ exists (pre : list Effect) (chunk : list Z)
                       (post : list Effect),
                  PrinterService.io sAll = pre ++ Write chunk :: post
                  /\ PrinterService.io s' = pre
                  /\ accepted write_ok [] pre
                  /\ write_ok (length (writes pre)) chunk = false).
Proof.
  intros HP Hrender.
  set (s0 := appPrinterService printer_dpi printerConfig).
  set (s1 := appendEffect (Write [0x10; 0xFF; 0x20; 0xF1]) s0).
  pose proof (follows_await write_ok
                (sendImageData write_ok (JsonImage.imageData image)
                   (printDimensions printer_dpi image))
                (sendImageData accepting (JsonImage.imageData image)
                   (printDimensions printer_dpi image))
                (fun _ => waitForCompletion) (fun _ => waitForCompletion) s1
                (follows_sendImageData write_ok (JsonImage.imageData image)
                   (printDimensions printer_dpi image) s1 HP)
                (fun s2 _ _ =>
                   follows_delay write_ok
                     (PrinterConfig.exitDelay (PrinterService.config s2)) s2))
    as (sAll & [] & trace & Hall & Hio & Hrun).
  exists sAll. split.
  { rewrite (handleConnection_replied accepting (Some reply) Buffer_toString
               canvas_stride canvas_toBuffer printer_dpi template variables
               s0 reply image eq_refl eq_refl Hrender).
    change (appendEffect
              (Write (PrinterProtocol.firmwareRequest
                        (PrinterService.protocol s0))) s0) with s1. by rewrite Hall. }
  assert (Hio1 : PrinterService.io sAll
                 = [Write [0x10; 0xFF; 0x20; 0xF1]] ++ trace)
    by exact Hio.
  destruct (write_ok 0%nat [0x10; 0xFF; 0x20; 0xF1]) eqn:Hfirst.
  - assert (Hacc0 : accepted write_ok [] [Write [0x10; 0xFF; 0x20; 0xF1]]).
    { intros [|n] chunk Hn; cbn in Hn; [|by destruct n].
      by injection Hn as <-. }
    rewrite (handleConnection_replied write_ok (Some reply) Buffer_toString
               canvas_stride canvas_toBuffer printer_dpi template variables
               s0 reply image Hfirst eq_refl Hrender).
    change (appendEffect
              (Write (PrinterProtocol.firmwareRequest
                        (PrinterService.protocol s0))) s0) with s1.
    destruct Hrun as [[Hrun Hacc]
                     |(s' & pre & chunk & post & Hrun & -> & Hio' & Hacc & Href)].
    + exists sAll. left. rewrite Hrun. split; [reflexivity|].
      split; [reflexivity|]. rewrite Hio1. by apply accepted_app.
    + exists s'. right. rewrite Hrun. split; [reflexivity|].
      exists ([Write [0x10; 0xFF; 0x20; 0xF1]] ++ pre), chunk, post.
      split; [by rewrite Hio1, <- app_assoc|].
      split; [exact Hio'|].
      split; [by apply accepted_app|exact Href].
  - exists s0. right. split.
    + unfold handleConnection, getFirmwareVersion, await, writeData.
      simpl. by rewrite Hfirst.
    + exists [], [0x10; 0xFF; 0x20; 0xF1], trace.
      split; [exact Hio1|]. split; [reflexivity|].
      split; [apply accepted_nil|exact Hfirst].
Qed.

Lemma handleConnection_exit_code_witness :
  exists s',
    handleConnection (fun n _ => (n <? 1)%nat) (Some [86; 49])
      (fun _ => "V1"%string) (fun _ => 0) (fun _ => []) 203
      empty_template None
      (appPrinterService 203 (PrinterConfig.mk 122 2000 7))
    = (s', Exit 1)
    /\ PrinterService.io s' = [Write [0x10; 0xFF; 0x20; 0xF1]].
Proof.
  destruct (handleConnection_exit_code (fun n _ => (n <? 1)%nat) [86; 49]
              (fun _ => "V1"%string) (fun _ => 0) (fun _ => []) 203
              (PrinterConfig.mk 122 2000 7) empty_template None
              _ ltac:(simpl; lia) eq_refl)
    as (sAll & _ & s' & [(Hrun & _)|(Hrun & _)]).
  - discriminate Hrun.
  - exists s'. split; [exact Hrun|]. by injection Hrun as <-.
Defined.

(* ================================================================= *)
(** ** The drawing state across elements *)
(* ================================================================= *)

Section ContextFacts.

Context {St : Type} (assign : CanvasOp -> St -> St).

Lemma contextAfter_app (st : St * list St) (a b : list CanvasOp) :
  contextAfter St assign st (a ++ b)
  = contextAfter St assign (contextAfter St assign st a) b.
Proof. unfold contextAfter. apply fold_left_app. Qed.

(** Calls other than [save] and [restore] leave the stack alone. *)
Lemma contextAfter_plain (mid : list CanvasOp) :
  Forall (fun op => isSaveRestore op = false) mid ->
  forall (cur : St) (stack : list St),
    exists cur', contextAfter St assign (cur, stack) mid = (cur', stack).
Proof.
  induction 1 as [|op mid Hop _ IH]; intros cur stack; [by eexists|].
  destruct op; try discriminate Hop; apply IH.
Qed.

Lemma contextAfter_bracket (mid : list CanvasOp) (st : St * list St) :
  Forall (fun op => isSaveRestore op = false) mid ->
  contextAfter St assign st (Save :: mid ++ [Restore]) = st.
Proof.
  intros Hmid. destruct st as [cur stack].
  change (Save :: mid ++ [Restore]) with ([Save] ++ mid ++ [Restore]).
  rewrite !contextAfter_app.
  destruct (contextAfter_plain mid Hmid cur (cur :: stack)) as [cur' Hrun].
  change (contextAfter St assign (cur, stack) [Save]) with (cur, cur :: stack).
  rewrite Hrun. reflexivity.
Qed.

End ContextFacts.

(** A loop whose body only appends calls of one kind only appends
    calls of that kind. *)
Lemma for_loop_extends (Q : CanvasOp -> Prop) (ctx1 : list CanvasOp)
    (cond : Z -> bool) (step : Z)
    (body : Z -> list CanvasOp -> list CanvasOp) (fuel : nat) (i : Z)
    (c' : list CanvasOp) :
  (forall j c, exists added, body j c = c ++ added /\ Forall Q added) ->
  forall c extra,
    c = ctx1 ++ extra ->
    Forall Q extra ->
    JS.for_loop fuel cond step body i c = Some c' ->
    exists extra', c' = ctx1 ++ extra' /\ Forall Q extra'.
Proof.
  intros Hbody c extra Hc Hextra Hloop.
  refine (for_loop_invariant
            (fun c => exists extra', c = ctx1 ++ extra' /\ Forall Q extra')
            cond step body _ fuel i c c' _ Hloop).
  - intros j c0 (extra0 & -> & H0).
    destruct (Hbody j (ctx1 ++ extra0)) as (added & -> & Hadded).
    exists (extra0 ++ added). split; [by rewrite app_assoc|].
    by apply Forall_app.
  - by exists extra.
Qed.

(** The calls of one element: none (an unknown type), or calls without
    [save] and [restore] between one [save] and one [restore]. *)
Lemma renderElement_bracket (config : CanvasConfig.t) (ctx : list CanvasOp)
    (element : RenderElement) (variables : option Variables)
    (r : Rendered) (logged : list string) :
  elementRaises config element = false ->
  renderElement config ctx element variables = Some (r, logged) ->
  exists ctx',
    r = Returned ctx'
    /\ (ctx' = ctx
        \/ exists mid,
             ctx' = ctx ++ Save :: mid ++ [Restore]
             /\ Forall (fun op => isSaveRestore op = false) mid).
Proof.
  intros Hraises.
  destruct element as [e|e|e|e|e|e|tag]; simpl in Hraises |- *.
  - intros [= <- _]. eexists. split; [reflexivity|]. right.
    unfold renderTextElement.
    match goal with
    | |- context [ctx ++ [Save; ?a; ?b; ?c; ?d; Restore]] =>
        exists [a; b; c; d]
    end.
    split; [reflexivity|]. repeat constructor.
  - intros [= <- _]. eexists. split; [reflexivity|]. right.
    unfold renderLineElement.
    match goal with
    | |- context [ctx ++ [Save; ?a; ?b; ?c; ?d; ?e; ?f; Restore]] =>
        exists [a; b; c; d; e; f]
    end.
    split; [reflexivity|]. repeat constructor.
  - intros [= <- _]. eexists. split; [reflexivity|]. right.
    unfold renderRectangleElement.
    destruct (default false _); eexists; (split; [reflexivity|]);
      repeat constructor.
  - unfold renderCircleElement. rewrite Hraises. cbv iota.
    intros [= <- _]. eexists. split; [reflexivity|]. right.
    destruct (default false _);
      match goal with
      | |- context [ctx ++ Save :: ?a :: ?b :: [?c; ?d] ++ [Restore]] =>
          exists [a; b; c; d]
      end;
      (split; [reflexivity|]); repeat constructor.
  - destruct (renderStripeElement config ctx e) as [c|] eqn:Hr;
      simpl; [|discriminate].
    intros [= <- _]. eexists. split; [reflexivity|]. right.
    revert Hr. unfold renderStripeElement, renderStripes.
    set (ctx1 := ctx ++ [Save; SetFillStyle BLACK]).
    destruct (StripeElement.direction e);
      (destruct (JS.for_loop _ _ _ _ _ ctx1) as [ctx2|] eqn:Hloop;
         simpl; [|discriminate]);
      intros [= <-];
      (eapply (for_loop_extends (fun op => isSaveRestore op = false) ctx1)
         with (extra := []) in Hloop;
         [ | intros j c0; eexists; split; [reflexivity|repeat constructor]
           | by rewrite app_nil_r | constructor ]);
      destruct Hloop as (extra & -> & Hextra);
      exists (SetFillStyle BLACK :: extra);
      (split; [subst ctx1; by rewrite <- !app_assoc|]);
      by constructor.
  - destruct (renderGridElement config ctx e) as [c|] eqn:Hr;
      simpl; [|discriminate].
    intros [= <- _]. eexists. split; [reflexivity|]. right.
    revert Hr. unfold renderGridElement, renderGrid.
    set (ctx1 := ctx ++ [Save; SetStrokeStyle BLACK; SetLineWidth _]).
    destruct (JS.for_loop _ _ _ _ _ ctx1) as [ctx2|] eqn:Hloop1;
      simpl; [|discriminate].
    destruct (JS.for_loop _ _ _ _ _ ctx2) as [ctx3|] eqn:Hloop2;
      simpl; [|discriminate].
    intros [= <-].
    eapply (for_loop_extends (fun op => isSaveRestore op = false) ctx1)
      with (extra := []) in Hloop1;
      [ | intros j c0; eexists; split; [reflexivity|repeat constructor]
        | by rewrite app_nil_r | constructor ].
    destruct Hloop1 as (extra1 & -> & Hextra1).
    eapply (for_loop_extends (fun op => isSaveRestore op = false) ctx1)
      with (extra := extra1) in Hloop2;
      [ | intros j c0; eexists; split; [reflexivity|repeat constructor]
        | reflexivity | exact Hextra1 ].
    destruct Hloop2 as (extra2 & -> & Hextra2).
    eexists (SetStrokeStyle BLACK :: SetLineWidth _ :: extra2).
    split; [subst ctx1; by rewrite <- !app_assoc|].
    by repeat constructor.
  - intros [= <- _]. eexists. split; [reflexivity|]. by left.
Qed.

Lemma renderElementsFrom_restores {St : Type}
    (assign : CanvasOp -> St -> St) (config : CanvasConfig.t)
    (variables : option Variables) (elements : list RenderElement) :
  Forall (fun element => elementRaises config element = false) elements ->
  forall (index : Z) (ctx : list CanvasOp) (errors : list string)
         (ctx' : list CanvasOp) (errors' : list string),
    renderElementsFrom config index ctx errors elements variables
    = Some (ctx', errors') ->
    exists ops,
      ctx' = ctx ++ ops
      /\ forall st : St * list St, contextAfter St assign st ops = st.
Proof.
  induction 1 as [|element rest Hel _ IH]; intros index ctx errors ctx' errors';
    cbn [renderElementsFrom].
  - intros [= <- _]. exists []. by rewrite app_nil_r.
  - destruct (renderElement config ctx element variables)
      as [[r logged]|] eqn:Hone; [|discriminate].
    apply (renderElement_bracket config ctx element variables r logged Hel)
      in Hone as (ctx1 & -> & Hctx1).
    intros Hrest. apply IH in Hrest as (ops & -> & Hops).
    destruct Hctx1 as [->|(mid & -> & Hmid)].
    + by exists ops.
    + exists ((Save :: mid ++ [Restore]) ++ ops).
      split; [by rewrite <- app_assoc|].
      intros st. rewrite contextAfter_app.
      rewrite (contextAfter_bracket assign mid st Hmid). apply Hops.
Qed.

(** X19.  When no circle of the template has a radius that scales
    below zero, rendering the elements only adds calls to the context,
    and the calls it adds leave the drawing state and the stack of saved
    states of the context as they were, whatever the state is and
    whatever the other calls do to it: every element draws between a
    [save] and the matching [restore].  So no element changes the fill
    style, stroke style, line width, font or alignment that a later
    element starts from.  (A circle of negative radius raises in
    [ctx.arc], after its [save] and before its [restore].) *)
Theorem renderElements_restores_context {St : Type}
    (assign : CanvasOp -> St -> St) (config : CanvasConfig.t)
    (elements : list RenderElement) (variables : option Variables)
    (ctx : list CanvasOp) (errors : list string)
    (ctx' : list CanvasOp) (errors' : list string) :
  Forall (fun element => elementRaises config element = false) elements ->
  renderElements config ctx errors elements variables = Some (ctx', errors') ->
  exists ops,
    ctx' = ctx ++ ops
    /\ forall st : St * list St, contextAfter St assign st ops = st.
Proof.
  intros Hno Hrun.
  exact (renderElementsFrom_restores assign config variables elements Hno
           0 ctx errors ctx' errors' Hrun).
Qed.

Lemma renderElements_restores_context_witness :
  exists ops,
    renderLineElement config_192dpi [] line_of_width_3 = [] ++ ops
    /\ forall st : Z * list Z,
         contextAfter Z (fun op lw =>
                           match op with
                           | SetLineWidth w => if 0 <? w then w else lw
                           | _ => lw
                           end) st ops = st.
Proof.
  apply (renderElements_restores_context _ config_192dpi
           [line line_of_width_3] None [] [] _ []).
  - repeat constructor.
  - reflexivity.
Defined.

(* ================================================================= *)
(** ** Closed forms of the renderer's loops *)
(* ================================================================= *)

Lemma loopIndices_S (start step : Z) (n : nat) :
  loopIndices start step (S n) = start :: loopIndices (start + step) step n.
Proof.
  unfold loopIndices. simpl. f_equal; [lia|].
  rewrite <- seq_shift, map_map. apply map_ext. intros k. lia.
Qed.

Lemma loopIndices_In (start step : Z) (n : nat) (i : Z) :
  In i (loopIndices start step n)
  <-> exists k : nat, (k < n)%nat /\ i = start + Z.of_nat k * step.
Proof.
  unfold loopIndices. rewrite in_map_iff. split.
  - intros (k & <- & Hk). apply in_seq in Hk. exists k. split; [lia|done].
  - intros (k & Hk & ->). exists k. split; [done|]. apply in_seq. lia.
Qed.

(** A loop whose condition holds at its first [n] indices and fails at
    the next one runs its body at these [n] indices, in order. *)
Lemma for_loop_indices {T} (cond : Z -> bool) (step : Z) (body : Z -> T -> T) :
  forall (n fuel : nat) (start : Z) (s : T),
    (n <= fuel)%nat ->
    (forall k : nat, (k < n)%nat -> cond (start + Z.of_nat k * step) = true) ->
    cond (start + Z.of_nat n * step) = false ->
    JS.for_loop fuel cond step body start s
    = Some (fold_left (fun s i => body i s) (loopIndices start step n) s).
Proof.
  induction n as [|n IH]; intros fuel start s Hfuel Htrue Hfalse.
  - replace (start + Z.of_nat 0 * step) with start in Hfalse by lia.
    destruct fuel; simpl; by rewrite Hfalse.
  - destruct fuel as [|fuel]; [lia|].
    pose proof (Htrue 0%nat ltac:(lia)) as H0.
    replace (start + Z.of_nat 0 * step) with start in H0 by lia.
    simpl JS.for_loop. rewrite H0, loopIndices_S. simpl fold_left.
    apply IH; [lia| |].
    + intros k Hk. rewrite <- (Htrue (S k) ltac:(lia)). f_equal. lia.
    + rewrite <- Hfalse. f_equal. lia.
Qed.

Lemma for_loop_lt_indices {T} (limit step : Z) (body : Z -> T -> T)
    (fuel : nat) (start : Z) (s : T) :
  0 < step ->
  (Z.to_nat (limit - start) <= fuel)%nat ->
  JS.for_loop fuel (fun i => i <? limit) step body start s
  = Some (fold_left (fun s i => body i s)
            (loopIndices start step
               (Z.to_nat (JS.ceil_div (limit - start) step))) s).
Proof.
  intros Hstep Hfuel.
  pose proof (ceil_div_bounds (limit - start) step Hstep) as Hc.
  apply for_loop_indices.
  - nia.
  - intros k Hk. apply Z.ltb_lt. nia.
  - apply Z.ltb_ge. nia.
Qed.

Lemma for_loop_le_indices {T} (limit step : Z) (body : Z -> T -> T)
    (fuel : nat) (start : Z) (s : T) :
  0 < step ->
  (Z.to_nat (limit - start + 1) <= fuel)%nat ->
  JS.for_loop fuel (fun i => i <=? limit) step body start s
  = Some (fold_left (fun s i => body i s)
            (loopIndices start step
               (Z.to_nat ((limit - start) / step + 1))) s).
Proof.
  intros Hstep Hfuel.
  pose proof (Z.div_mod (limit - start) step ltac:(lia)) as Hdm.
  pose proof (Z.mod_pos_bound (limit - start) step Hstep) as Hm.
  apply for_loop_indices.
  - nia.
  - intros k Hk. apply Z.leb_le. nia.
  - apply Z.leb_gt. nia.
Qed.

Lemma fold_left_append {A} (f : A -> list CanvasOp) (l : list A) :
  forall c : list CanvasOp,
    fold_left (fun c i => c ++ f i) l c = c ++ concat (map f l).
Proof.
  induction l as [|i l IH]; intros c; simpl; [by rewrite app_nil_r|].
  by rewrite IH, app_assoc.
Qed.

Lemma concat_map_singleton {A B} (g : A -> B) (l : list A) :
  concat (map (fun i => [g i]) l) = map g l.
Proof. induction l as [|i l IH]; simpl; [done|by rewrite IH]. Qed.

(** X20.  Once the bounds, the spacing and the stripe width are
    rounded, and the spacing is positive, a stripes element draws,
    between one [save] and [restore] and with a black fill style,
    [ceil(extent / spacing)] rectangles, the k-th of them [k * spacing]
    from the start of the bounds.  With a stripe width that is not
    negative every rectangle spans the bounds across, starts inside
    them, is at most the stripe width thick and is cut at the end of the
    bounds. *)
Theorem renderStripeElement_stripes (bounds : Bounds.t)
    (spacing stripeWidth : Z) (direction : Direction) (ctx : list CanvasOp) :
  0 < spacing ->
  let count extent := Z.to_nat (JS.ceil_div extent spacing) in
  let rects :=
    match direction with
    | horizontal =>
        map (fun y =>
               FillRect (Bounds.x bounds) y (Bounds.width bounds)
                 (JS.min stripeWidth
                    (Bounds.y bounds + Bounds.height bounds - y)))
          (loopIndices (Bounds.y bounds) spacing
             (count (Bounds.height bounds)))
    | vertical =>
        map (fun x =>
               FillRect x (Bounds.y bounds)
                 (JS.min stripeWidth
                    (Bounds.x bounds + Bounds.width bounds - x))
                 (Bounds.height bounds))
          (loopIndices (Bounds.x bounds) spacing
             (count (Bounds.width bounds)))
    end in
  renderStripes bounds spacing stripeWidth direction ctx
  = Some (ctx ++ [Save; SetFillStyle BLACK] ++ rects ++ [Restore])
  /\ (0 <= stripeWidth ->
      forall x y w h,
        In (FillRect x y w h) rects ->
        match direction with
        | horizontal =>
            x = Bounds.x bounds /\ w = Bounds.width bounds
            /\ Bounds.y bounds <= y < Bounds.y bounds + Bounds.height bounds
            /\ (0 < h <= stripeWidth
                /\ y + h <= Bounds.y bounds + Bounds.height bounds
                \/ stripeWidth = 0 /\ h = 0)
        | vertical =>
            y = Bounds.y bounds /\ h = Bounds.height bounds
            /\ Bounds.x bounds <= x < Bounds.x bounds + Bounds.width bounds
            /\ (0 < w <= stripeWidth
                /\ x + w <= Bounds.x bounds + Bounds.width bounds
                \/ stripeWidth = 0 /\ w = 0)
        end).
Proof.
  intros Hsp count rects. split.
  - unfold renderStripes. subst rects count. destruct direction.
    + rewrite for_loop_lt_indices by lia.
      simpl. rewrite fold_left_append, concat_map_singleton.
      replace (Bounds.y bounds + Bounds.height bounds - Bounds.y bounds)
        with (Bounds.height bounds) by lia.
      by rewrite <- !app_assoc.
    + rewrite for_loop_lt_indices by lia.
      simpl. rewrite fold_left_append, concat_map_singleton.
      replace (Bounds.x bounds + Bounds.width bounds - Bounds.x bounds)
        with (Bounds.width bounds) by lia.
      by rewrite <- !app_assoc.
  - intros Hsw x y w h Hin. subst rects count. unfold JS.min in Hin.
    destruct direction;
      apply in_map_iff in Hin as (i & [= <- <- <- <-] & Hi);
      apply loopIndices_In in Hi as (k & Hk & ->).
    + pose proof (ceil_div_bounds (Bounds.height bounds) spacing Hsp).
      split; [done|]. split; [done|]. split; [nia|].
      destruct (Z.eq_dec stripeWidth 0) as [->|]; [right|left]; nia.
    + pose proof (ceil_div_bounds (Bounds.width bounds) spacing Hsp).
      split; [done|]. split; [done|]. split; [nia|].
      destruct (Z.eq_dec stripeWidth 0) as [->|]; [right|left]; nia.
Qed.

Lemma renderStripeElement_stripes_witness :
  renderStripes (Bounds.mk 0 0 10 10) 4 3 horizontal []
  = Some [Save; SetFillStyle BLACK;
          FillRect 0 0 10 3; FillRect 0 4 10 3; FillRect 0 8 10 2;
          Restore].
Proof.
  refine (proj1 (renderStripeElement_stripes (Bounds.mk 0 0 10 10) 4 3
                   horizontal [] _)).
  reflexivity.
Defined.

(** X21.  Once the bounds and the cell sizes are rounded, and the cell
    sizes are positive, a grid element strokes
    [floor(width / cellWidth) + 1] vertical rules and then
    [floor(height / cellHeight) + 1] horizontal rules (none over bounds
    of negative extent), the k-th of them [k] cells from the start of
    the bounds and spanning the bounds.  The rule on the far edge of the
    bounds is drawn exactly when the cell size divides the extent. *)
Theorem renderGridElement_rules (lineWidth : option Z) (bounds : Bounds.t)
    (cellWidth cellHeight : Z) (ctx : list CanvasOp) :
  0 < cellWidth ->
  0 < cellHeight ->
  let xs :=
    loopIndices (Bounds.x bounds) cellWidth
      (Z.to_nat (Bounds.width bounds / cellWidth + 1)) in
  let ys :=
    loopIndices (Bounds.y bounds) cellHeight
      (Z.to_nat (Bounds.height bounds / cellHeight + 1)) in
  renderGrid lineWidth bounds cellWidth cellHeight ctx
  = Some (ctx
          ++ [Save; SetStrokeStyle BLACK;
              SetLineWidth (JS.opt_or_else lineWidth 1)]
          ++ concat (map (fun x =>
                            [BeginPath;
                             MoveTo x (Bounds.y bounds);
                             LineTo x (Bounds.y bounds + Bounds.height bounds);
                             Stroke]) xs)
          ++ concat (map (fun y =>
                            [BeginPath;
                             MoveTo (Bounds.x bounds) y;
                             LineTo (Bounds.x bounds + Bounds.width bounds) y;
                             Stroke]) ys)
          ++ [Restore])
  /\ (In (Bounds.x bounds + Bounds.width bounds) xs
      <-> 0 <= Bounds.width bounds
          /\ Bounds.width bounds mod cellWidth = 0)
  /\ (In (Bounds.y bounds + Bounds.height bounds) ys
      <-> 0 <= Bounds.height bounds
          /\ Bounds.height bounds mod cellHeight = 0).
Proof.
  intros Hcw Hch xs ys.
  assert (Hedge : forall start extent cell : Z, 0 < cell ->
            In (start + extent)
              (loopIndices start cell (Z.to_nat (extent / cell + 1)))
            <-> 0 <= extent /\ extent mod cell = 0).
  { intros start extent cell Hcell.
    pose proof (Z.div_mod extent cell ltac:(lia)) as Hdm.
    pose proof (Z.mod_pos_bound extent cell Hcell) as Hm.
    rewrite loopIndices_In. split.
    - intros (k & Hk & Heq).
      assert (extent = Z.of_nat k * cell) as -> by lia.
      split; [nia|]. apply Z_mod_mult.
    - intros [Hext Hmod]. exists (Z.to_nat (extent / cell)).
      rewrite Hmod in Hdm.
      assert (0 <= extent / cell) by (apply Z.div_pos; lia).
      split; [lia|]. rewrite Z2Nat.id by lia. lia. }
  split; [|split; apply Hedge; assumption].
  unfold renderGrid.
  rewrite for_loop_le_indices by lia.
  simpl. rewrite for_loop_le_indices by lia.
  simpl. rewrite !fold_left_append.
  replace (Bounds.x bounds + Bounds.width bounds - Bounds.x bounds)
    with (Bounds.width bounds) by lia.
  replace (Bounds.y bounds + Bounds.height bounds - Bounds.y bounds)
    with (Bounds.height bounds) by lia.
  by rewrite <- !app_assoc.
Qed.

Lemma renderGridElement_rules_witness :
  renderGrid None (Bounds.mk 0 0 8 8) 4 6 []
  = Some ([Save; SetStrokeStyle BLACK; SetLineWidth 1]
          ++ [BeginPath; MoveTo 0 0; LineTo 0 8; Stroke;
              BeginPath; MoveTo 4 0; LineTo 4 8; Stroke;
              BeginPath; MoveTo 8 0; LineTo 8 8; Stroke]
          ++ [BeginPath; MoveTo 0 0; LineTo 8 0; Stroke;
              BeginPath; MoveTo 0 6; LineTo 8 6; Stroke]
          ++ [Restore])
  /\ 8 mod 4 = 0 /\ 8 mod 6 <> 0.
Proof.
  split; [|split; [reflexivity|discriminate]].
  refine (proj1 (renderGridElement_rules None (Bounds.mk 0 0 8 8) 4 6 []
                   _ _)); reflexivity.
Defined.

(* ================================================================= *)
(** ** Loops that cannot advance *)
(* ================================================================= *)

(** With a step that is not positive the loop never leaves a condition
    [i < limit] that holds at the start. *)
Lemma for_loop_lt_diverges {T} (limit step : Z) (body : Z -> T -> T) :
  step <= 0 ->
  forall (fuel : nat) (i : Z) (s : T),
    i < limit ->
    JS.for_loop fuel (fun x => x <? limit) step body i s = None.
Proof.
  intros Hstep. induction fuel as [|fuel IH]; intros i s Hi; simpl.
  - destruct (Z.ltb_spec i limit); [reflexivity|lia].
  - destruct (Z.ltb_spec i limit); [|lia].
    apply IH. lia.
Qed.

Lemma for_loop_skip {T} (cond : Z -> bool) (step : Z) (body : Z -> T -> T)
    (fuel : nat) (i : Z) (s : T) :
  cond i = false -> JS.for_loop fuel cond step body i s = Some s.
Proof. intros Hc. destruct fuel; simpl; by rewrite Hc. Qed.

Lemma renderStripeElement_None_iff (config : CanvasConfig.t)
    (ctx : list CanvasOp) (element : StripeElement.t) :
  renderStripeElement config ctx element = None
  <-> loopStalls config (stripes element).
Proof.
  simpl.
  set (bounds := scaledBounds config (StripeElement.bounds element)).
  destruct (Z_lt_le_dec 0 (scaled config (StripeElement.spacing element)))
    as [Hpos|Hnonpos].
  { destruct (renderStripeElement_terminates config ctx element Hpos)
      as [c ->].
    split; [discriminate|lia]. }
  unfold renderStripeElement, renderStripes. fold bounds.
  destruct (StripeElement.direction element).
  - destruct (Z_lt_le_dec 0 (Bounds.height bounds)) as [Hin|Hout].
    + rewrite for_loop_lt_diverges by lia. simpl. split; [lia|done].
    + rewrite for_loop_skip by (apply Z.ltb_ge; lia).
      simpl. split; [discriminate|lia].
  - destruct (Z_lt_le_dec 0 (Bounds.width bounds)) as [Hin|Hout].
    + rewrite for_loop_lt_diverges by lia. simpl. split; [lia|done].
    + rewrite for_loop_skip by (apply Z.ltb_ge; lia).
      simpl. split; [discriminate|lia].
Qed.

Lemma renderGridElement_None_iff (config : CanvasConfig.t)
    (ctx : list CanvasOp) (element : GridElement.t) :
  renderGridElement config ctx element = None
  <-> loopStalls config (grid element).
Proof.
  simpl.
  set (bounds := scaledBounds config (GridElement.bounds element)).
  unfold renderGridElement, renderGrid. fold bounds.
  set (cw := scaled config (GridElement.cellWidth element)).
  set (ch := scaled config (GridElement.cellHeight element)).
  assert (Hsecond : forall ctx2 : list CanvasOp,
            (JS.for_loop (Z.to_nat (Bounds.height bounds + 1))
               (fun y => y <=? Bounds.y bounds + Bounds.height bounds) ch
               (fun y c =>
                  c ++ [BeginPath;
                        MoveTo (Bounds.x bounds) y;
                        LineTo (Bounds.x bounds + Bounds.width bounds) y;
                        Stroke])
               (Bounds.y bounds) ctx2
             ≫= (fun ctx3 => Some (ctx3 ++ [Restore]))) = None
            <-> ch <= 0 /\ 0 <= Bounds.height bounds).
  { intros ctx2.
    destruct (Z_lt_le_dec 0 ch) as [Hpos|Hnonpos].
    - rewrite for_loop_le_indices by lia. simpl. split; [discriminate|lia].
    - destruct (Z_lt_le_dec (Bounds.height bounds) 0) as [Hout|Hin].
      + rewrite for_loop_skip by (apply Z.leb_gt; lia).
        simpl. split; [discriminate|lia].
      + rewrite for_loop_le_diverges by lia. simpl. split; [lia|done]. }
  destruct (Z_lt_le_dec 0 cw) as [Hpos|Hnonpos].
  - rewrite for_loop_le_indices by lia. simpl.
    rewrite Hsecond. split; [tauto|]. intros [[? _]|?]; [lia|done].
  - destruct (Z_lt_le_dec (Bounds.width bounds) 0) as [Hout|Hin].
    + rewrite for_loop_skip by (apply Z.leb_gt; lia). simpl.
      rewrite Hsecond. split; [tauto|]. intros [[_ ?]|?]; [lia|done].
    + rewrite for_loop_le_diverges by lia. simpl. split; [tauto|done].
Qed.

Lemma renderElement_None_iff (config : CanvasConfig.t) (ctx : list CanvasOp)
    (element : RenderElement) (variables : option Variables) :
  renderElement config ctx element variables = None
  <-> loopStalls config element.
Proof.
  destruct element as [e|e|e|e|e|e|tag];
    try (simpl; split; [discriminate|done]).
  - rewrite <- (renderStripeElement_None_iff config ctx e).
    cbn [renderElement].
    destruct (renderStripeElement config ctx e); simpl;
      split; (discriminate || done).
  - rewrite <- (renderGridElement_None_iff config ctx e).
    cbn [renderElement].
    destruct (renderGridElement config ctx e); simpl;
      split; (discriminate || done).
Qed.

Lemma renderElementsFrom_None_iff (config : CanvasConfig.t)
    (elements : list RenderElement) (variables : option Variables) :
  forall (index : Z) (ctx : list CanvasOp) (errors : list string),
    renderElementsFrom config index ctx errors elements variables = None
    <-> Exists (loopStalls config) elements.
Proof.
  induction elements as [|element rest IH]; intros index ctx errors;
    cbn [renderElementsFrom].
  - split; [discriminate|]. intros H. inversion H.
  - rewrite Exists_cons.
    destruct (renderElement config ctx element variables)
      as [[[ctx1|ctx1] logged]|] eqn:Hone.
    + rewrite IH. split; [tauto|]. intros [Hstall|?]; [|done].
      apply (renderElement_None_iff config ctx element variables) in Hstall.
      congruence.
    + rewrite IH. split; [tauto|]. intros [Hstall|?]; [|done].
      apply (renderElement_None_iff config ctx element variables) in Hstall.
      congruence.
    + split; [|done]. intros _. left.
      by apply (renderElement_None_iff config ctx element variables).
Qed.

Lemma renderElements_None_iff (config : CanvasConfig.t)
    (elements : list RenderElement) (variables : option Variables) :
  forall (ctx : list CanvasOp) (errors : list string),
    renderElements config ctx errors elements variables = None
    <-> Exists (loopStalls config) elements.
Proof. intros ctx errors. apply renderElementsFrom_None_iff. Qed.

Lemma createImageFromJson_None_iff
    (canvas_stride : Canvas.t -> Z) (canvas_toBuffer : Canvas.t -> list Z)
    (dimensions : ImageDimensions.t) (options : JsonRenderOptions.t) :
  createImageFromJson canvas_stride canvas_toBuffer dimensions options = None
  <-> Exists (loopStalls
                (jsonConfig dimensions (JsonRenderOptions.template options)))
        (RenderTemplate.elements (JsonRenderOptions.template options)).
Proof.
  rewrite <- (renderElements_None_iff _ _
                (JsonRenderOptions.variables options)
                (Canvas.calls
                   (fst (setupCanvas
                           (effectiveDimensions dimensions
                              (JsonRenderOptions.template options))
                           (dummyOptions (JsonRenderOptions.template options)))))
                []).
  unfold createImageFromJson, jsonConfig, setupCanvas, renderFromTemplate.
  cbn [fst Canvas.calls].
  destruct (renderElements _ _ _ _ _) as [[ctx errors]|]; simpl;
    split; (discriminate || done).
Qed.

Lemma scaled_zero (config : CanvasConfig.t) : scaled config 0 = 0.
Proof.
  unfold scaled, JS.round.
  rewrite (Qfloor_comp _ (1 # 2)%Q) by ring.
  reflexivity.
Qed.

(** X22.  Rendering a template does not end exactly when one of its
    elements has a loop that cannot advance: a stripes element whose
    spacing scales to zero or less over bounds of positive extent, or a
    grid element with a cell size that scales to zero or less over
    bounds that are not negative.  Text, lines, rectangles, circles and
    unknown elements never keep it from ending.  In particular a
    spacing or a cell size of 0 over the whole of a canvas with positive
    sides is enough: it is not rejected, the rendering just never
    returns. *)
Theorem createImageFromJson_stalls
    (canvas_stride : Canvas.t -> Z) (canvas_toBuffer : Canvas.t -> list Z)
    (dimensions : ImageDimensions.t) (options : JsonRenderOptions.t) :
  let template := JsonRenderOptions.template options in
  let config := jsonConfig dimensions template in
  (createImageFromJson canvas_stride canvas_toBuffer dimensions options = None
   <-> Exists (loopStalls config) (RenderTemplate.elements template))
  /\ (forall e,
        In (stripes e) (RenderTemplate.elements template) ->
        StripeElement.spacing e = 0 -> StripeElement.bounds e = None ->
        0 < CanvasConfig.width config -> 0 < CanvasConfig.height config ->
        createImageFromJson canvas_stride canvas_toBuffer dimensions options
        = None)
  /\ (forall e,
        In (grid e) (RenderTemplate.elements template) ->
        GridElement.cellWidth e = 0 \/ GridElement.cellHeight e = 0 ->
        GridElement.bounds e = None ->
        0 <= CanvasConfig.width config -> 0 <= CanvasConfig.height config ->
        createImageFromJson canvas_stride canvas_toBuffer dimensions options
        = None).
Proof.
  intros template config.
  pose proof (createImageFromJson_None_iff canvas_stride canvas_toBuffer
                dimensions options) as Hiff.
  fold template in Hiff. fold config in Hiff.
  split; [exact Hiff|]. split.
  - intros e Hin Hsp Hb Hw Hh. apply Hiff.
    apply Exists_exists. exists (stripes e).
    split; [by apply list_elem_of_In|].
    unfold loopStalls. rewrite Hsp, Hb, scaled_zero.
    cbn [scaledBounds Bounds.width Bounds.height].
    split; [lia|]. by destruct (StripeElement.direction e).
  - intros e Hin Hcell Hb Hw Hh. apply Hiff.
    apply Exists_exists. exists (grid e).
    split; [by apply list_elem_of_In|].
    unfold loopStalls. rewrite Hb.
    cbn [scaledBounds Bounds.width Bounds.height].
    destruct Hcell as [-> | ->]; rewrite scaled_zero; [left|right]; lia.
Qed.

(** X23.  A run whose template has an element with a loop that cannot
    advance hangs: the printer is asked for its firmware version and
    answers, and then nothing more is written to the port and the
    process never exits, neither with code 0 nor with code 1. *)
Theorem handleConnection_render_hangs
    (write_ok : nat -> list Z -> bool) (reply : list Z)
    (Buffer_toString : list Z -> string)
    (canvas_stride : Canvas.t -> Z) (canvas_toBuffer : Canvas.t -> list Z)
    (printer_dpi : Z) (printerConfig : PrinterConfig.t)
    (template : RenderTemplate.t) (variables : option Variables) :
  write_ok 0%nat [0x10; 0xFF; 0x20; 0xF1] = true ->
  Exists (loopStalls (jsonConfig (IMAGE_DIMENSIONS printer_dpi) template))
    (RenderTemplate.elements template) ->
  exists s',
    handleConnection write_ok (Some reply) Buffer_toString canvas_stride
      canvas_toBuffer printer_dpi template variables
      (appPrinterService printer_dpi printerConfig)
    = (s', Hang)
    /\ PrinterService.io s' = [Write [0x10; 0xFF; 0x20; 0xF1]].
Proof.
  intros Hok Hstall.
  apply (createImageFromJson_None_iff canvas_stride canvas_toBuffer
           (IMAGE_DIMENSIONS printer_dpi)
           {| JsonRenderOptions.template := template;
              JsonRenderOptions.variables := variables |}) in Hstall.
  unfold handleConnection, renderTemplate.
  rewrite Hstall.
  unfold getFirmwareVersion, await, writeData, waitForData, resolve.
  simpl. rewrite Hok. simpl.
  eexists. split; reflexivity.
Qed.

Lemma handleConnection_render_hangs_witness :
  exists s',
    handleConnection (fun _ _ => true) (Some [86; 49]) (fun _ => "V1"%string)
      (fun _ => 0) (fun _ => []) 203
      (withElements empty_template
         [stripes (StripeElement.mk horizontal 0 1 None)]) None
      (appPrinterService 203 (PrinterConfig.mk 122 2000 0))
    = (s', Hang)
    /\ PrinterService.io s' = [Write [0x10; 0xFF; 0x20; 0xF1]].
Proof.
  apply (handleConnection_render_hangs (fun _ _ => true) [86; 49]
           (fun _ => "V1"%string) (fun _ => 0) (fun _ => []) 203
           (PrinterConfig.mk 122 2000 0)
           (withElements empty_template
              [stripes (StripeElement.mk horizontal 0 1 None)]) None
           eq_refl).
  apply Exists_cons_hd. unfold loopStalls.
  split; vm_compute; [discriminate|reflexivity].
Defined.

(* ================================================================= *)
(** ** Substitution of placeholders *)
(* ================================================================= *)









(* ================================================================= *)
(** ** The colour elements paint with *)
(* ================================================================= *)

Lemma paintColors_app (a b : list CanvasOp) :
  forall st : (Color * Color) * list (Color * Color),
    paintColors st (a ++ b)
    = paintColors st a
      ++ paintColors (contextAfter (Color * Color) styleAssign st a) b.
Proof.
  induction a as [|op a IH]; intros st; [reflexivity|].
  simpl. by rewrite IH, <- app_assoc.
Qed.

(** Calls that paint in one way only, made while the style they paint
    with is black, paint in black and leave the state as it is. *)
Lemma paintsBy_black (fills : bool) (extra : list CanvasOp) :
  Forall (paintsBy fills) extra ->
  forall (fillStyle strokeStyle : Color) (stack : list (Color * Color)),
    (if fills then fillStyle else strokeStyle) = BLACK ->
    Forall (eq BLACK) (paintColors (fillStyle, strokeStyle, stack) extra)
    /\ contextAfter (Color * Color) styleAssign
         (fillStyle, strokeStyle, stack) extra
       = (fillStyle, strokeStyle, stack).
Proof.
  induction 1 as [|op extra Hop _ IH]; intros f s stack Hblack;
    [by split|].
  destruct (IH f s stack Hblack) as [Hpaint Hstate].
  destruct op, fills; simpl in Hop; try done;
    (split; [simpl; repeat constructor; try done; by subst|exact Hstate]).
Qed.

(** The calls of one element paint in black, whatever the styles of the
    context are when the element is reached. *)
Lemma renderElement_paints (config : CanvasConfig.t) (ctx : list CanvasOp)
    (element : RenderElement) (variables : option Variables)
    (r : Rendered) (logged : list string) :
  renderElement config ctx element variables = Some (r, logged) ->
  exists ops,
    callsOf r = ctx ++ ops
    /\ forall st, Forall (eq BLACK) (paintColors st ops).
Proof.
  destruct element as [e|e|e|e|e|e|tag]; simpl.
  - intros [= <- _]. eexists. split; [reflexivity|].
    intros [[f s] stack]. simpl. repeat constructor.
  - intros [= <- _]. eexists. split; [reflexivity|].
    intros [[f s] stack]. simpl. repeat constructor.
  - intros [= <- _]. eexists. split; [reflexivity|].
    intros [[f s] stack].
    destruct (default false _); simpl; repeat constructor.
  - intros [= <- _]. unfold renderCircleElement.
    destruct (scaled config (CircleElement.radius e) <? 0).
    + exists [Save; BeginPath]. split; [reflexivity|].
      intros [[f s] stack]. simpl. constructor.
    + eexists. split; [reflexivity|].
      intros [[f s] stack].
      destruct (default false _); simpl; repeat constructor.
  - destruct (renderStripeElement config ctx e) as [c|] eqn:Hr;
      simpl; [|discriminate].
    intros [= <- _]. revert Hr. unfold renderStripeElement, renderStripes.
    set (ctx1 := ctx ++ [Save; SetFillStyle BLACK]).
    destruct (StripeElement.direction e);
      (destruct (JS.for_loop _ _ _ _ _ ctx1) as [ctx2|] eqn:Hloop;
         simpl; [|discriminate]);
      intros [= <-];
      (eapply (for_loop_extends (paintsBy true) ctx1) with (extra := [])
         in Hloop;
         [ | intros j c0; eexists; split;
             [reflexivity|repeat first [progress simpl | constructor]]
           | by rewrite app_nil_r | constructor ]);
      destruct Hloop as (extra & -> & Hextra);
      exists ([Save; SetFillStyle BLACK] ++ extra ++ [Restore]);
      cbn [callsOf];
      (split; [subst ctx1; by rewrite <- !app_assoc|]);
      intros [[f s] stack];
      destruct (paintsBy_black true extra Hextra BLACK s ((f, s) :: stack)
                  eq_refl) as [Hpaint Hstate];
      rewrite !paintColors_app;
      change (contextAfter (Color * Color) styleAssign (f, s, stack)
                [Save; SetFillStyle BLACK])
        with (BLACK, s, (f, s) :: stack);
      rewrite Hstate; simpl; rewrite app_nil_r; exact Hpaint.
  - destruct (renderGridElement config ctx e) as [c|] eqn:Hr;
      simpl; [|discriminate].
    intros [= <- _]. revert Hr. unfold renderGridElement, renderGrid.
    set (lw := SetLineWidth _).
    set (ctx1 := ctx ++ [Save; SetStrokeStyle BLACK; lw]).
    destruct (JS.for_loop _ _ _ _ _ ctx1) as [ctx2|] eqn:Hloop1;
      simpl; [|discriminate].
    destruct (JS.for_loop _ _ _ _ _ ctx2) as [ctx3|] eqn:Hloop2;
      simpl; [|discriminate].
    intros [= <-].
    eapply (for_loop_extends (paintsBy false) ctx1) with (extra := [])
      in Hloop1;
      [ | intros j c0; eexists; split;
             [reflexivity|repeat first [progress simpl | constructor]]
        | by rewrite app_nil_r | constructor ].
    destruct Hloop1 as (extra1 & -> & Hextra1).
    eapply (for_loop_extends (paintsBy false) ctx1) with (extra := extra1)
      in Hloop2;
      [ | intros j c0; eexists; split;
             [reflexivity|repeat first [progress simpl | constructor]]
        | reflexivity | exact Hextra1 ].
    destruct Hloop2 as (extra2 & -> & Hextra2).
    exists ([Save; SetStrokeStyle BLACK; lw] ++ extra2 ++ [Restore]).
    cbn [callsOf].
    split; [subst ctx1; by rewrite <- !app_assoc|].
    intros [[f s] stack].
    destruct (paintsBy_black false extra2 Hextra2 f BLACK ((f, s) :: stack)
                eq_refl) as [Hpaint Hstate].
    rewrite !paintColors_app.
    change (contextAfter (Color * Color) styleAssign (f, s, stack)
              [Save; SetStrokeStyle BLACK; lw])
      with (f, BLACK, (f, s) :: stack).
    rewrite Hstate. simpl. rewrite app_nil_r. exact Hpaint.
  - intros [= <- _]. exists []. split; [simpl; by rewrite app_nil_r|].
    intros st. constructor.
Qed.

(** X25.  Elements only ever paint in black: whatever the fill and
    stroke styles of the context are when the rendering starts, every
    filling call the elements add is made with a black fill style and
    every stroking call with a black stroke style.  The only white paint
    is the background laid by the canvas setup, so an element can cover
    what was drawn before it but never erase it. *)
Theorem renderElements_paint_black (config : CanvasConfig.t)
    (elements : list RenderElement) (variables : option Variables)
    (ctx : list CanvasOp) (errors : list string)
    (ctx' : list CanvasOp) (errors' : list string) :
  renderElements config ctx errors elements variables = Some (ctx', errors') ->
  exists ops,
    ctx' = ctx ++ ops
    /\ forall st : (Color * Color) * list (Color * Color),
         Forall (eq BLACK) (paintColors st ops).
Proof.
  unfold renderElements. generalize 0 as index. revert ctx errors.
  induction elements as [|element rest IH]; intros ctx errors index;
    cbn [renderElementsFrom].
  - intros [= <- _]. exists []. split; [by rewrite app_nil_r|].
    intros st. constructor.
  - destruct (renderElement config ctx element variables)
      as [[r logged]|] eqn:Hone; [|discriminate].
    apply renderElement_paints in Hone as (ops1 & Hone & Hops1).
    intros Hrest.
    assert (exists ops, ctx' = callsOf r ++ ops
              /\ forall st : (Color * Color) * list (Color * Color),
                   Forall (eq BLACK) (paintColors st ops))
      as (ops & -> & Hops)
      by (destruct r; apply IH in Hrest; exact Hrest).
    rewrite Hone.
    exists (ops1 ++ ops). split; [by rewrite <- app_assoc|].
    intros st. rewrite paintColors_app. apply Forall_app.
    split; [apply Hops1|apply Hops].
Qed.

Lemma renderElements_paint_black_witness :
  exists ops,
    renderRectangleElement config_192dpi
      (renderLineElement config_192dpi [] line_of_width_3)
      (RectangleElement.mk (Position.mk 1 1) 4 2 (Some true))
    = [] ++ ops
    /\ paintColors (WHITE, WHITE, []) ops = [BLACK; BLACK].
Proof.
  destruct (renderElements_paint_black config_192dpi
              [line line_of_width_3;
               rectangle (RectangleElement.mk (Position.mk 1 1) 4 2
                            (Some true))]
              None [] [] _ [] eq_refl) as (ops & Hops & Hpaint).
  exists ops. split; [exact Hops|].
  simpl in Hops. subst ops. reflexivity.
Defined.

(* ================================================================= *)
(** ** Unknown elements ([renderElement], [renderFromTemplate]) *)
(* ================================================================= *)





